(** * bio-link: identity, session and page-ownership core

    A shallow embedding of [src/db.js], [src/server.js] and the script
    [src/unnamed/part_000].

    - JavaScript strings are modelled as [string], i.e. sequences of code
      units restricted to the Latin-1 range (one [ascii] per code unit);
      [toLowerCase] and [trim] are written out for that range.  Form fields
      are strings.
    - The five SQL tables are lists of records in row order, so that
      [LIMIT 1] is "first matching row"; PRIMARY KEY / UNIQUE constraints are
      checked by the statements that insert or update, which throw the way
      SQLite does.  Those constraint violations are the only storage failures
      modelled, and requests are handled one after the other.
    - [nanoid], [now] and the salt of [bcrypt.hash] are external sources,
      read through a call counter kept in the store.
    - Handlers are computations in a small state/exception monad with a
      third outcome for a loop that does not finish within its fuel; the
      only loop is the one of [uniqueSlugEnsure].
    - A request is given by the route that Express selects for it, the
      value of the signed session cookie and the form fields. *)

From Stdlib Require Import String Ascii List Bool Arith NArith QArith Lia.
From Stdlib Require Import Qminmax DecimalString DecimalN.
From Stdlib Require Import Sorted Permutation OrderedTypeEx.
Import ListNotations.
Local Open Scope string_scope.
Local Open Scope nat_scope.
Local Open Scope list_scope.

(** ** JavaScript string primitives *)

Module Js.

Definition code (c : ascii) : nat := nat_of_ascii c.

(** ECMAScript WhiteSpace and LineTerminator code units below 256:
    TAB, LF, VT, FF, CR, SP and NBSP. *)
Definition isWhite (c : ascii) : bool :=
  let n := code c in
  ((9 <=? n) && (n <=? 13)) || (n =? 32) || (n =? 160).

Fixpoint trimStart (s : string) : string :=
  match s with
  | EmptyString => EmptyString
  | String c s' => if isWhite c then trimStart s' else s
  end.

Fixpoint trimEnd (s : string) : string :=
  match s with
  | EmptyString => EmptyString
  | String c s' =>
      match trimEnd s' with
      | EmptyString => if isWhite c then EmptyString else String c EmptyString
      | t => String c t
      end
  end.

(** [s.trim()] *)
Definition trim (s : string) : string := trimEnd (trimStart s).

(** Code units with a lower-case counterpart in the Latin-1 range:
    A-Z, and U+00C0..U+00DE without the multiplication sign U+00D7. *)
Definition lowerChar (c : ascii) : ascii :=
  let n := code c in
  if ((65 <=? n) && (n <=? 90))
     || ((192 <=? n) && (n <=? 222) && negb (n =? 215))
  then ascii_of_nat (n + 32) else c.

Fixpoint smap (f : ascii -> ascii) (s : string) : string :=
  match s with
  | EmptyString => EmptyString
  | String c s' => String (f c) (smap f s')
  end.

Fixpoint sfilter (p : ascii -> bool) (s : string) : string :=
  match s with
  | EmptyString => EmptyString
  | String c s' => if p c then String c (sfilter p s') else sfilter p s'
  end.

Fixpoint sforall (p : ascii -> bool) (s : string) : bool :=
  match s with
  | EmptyString => true
  | String c s' => p c && sforall p s'
  end.

(** [toUpperCase] on one code unit: a-z, and U+00E0..U+00FE without the
    division sign.  (The remaining Latin-1 letters, U+00B5, U+00DF and
    U+00FF, have no upper-case form below 256 and are left alone; they are
    outside the alphabet of [nanoid], the only source this is applied to.) *)
Definition upperChar (c : ascii) : ascii :=
  let n := code c in
  if ((97 <=? n) && (n <=? 122))
     || ((224 <=? n) && (n <=? 254) && negb (n =? 247))
  then ascii_of_nat (n - 32) else c.

(** [s.toLowerCase()] *)
Definition toLowerCase (s : string) : string := smap lowerChar s.

(** [s.toUpperCase()] *)
Definition toUpperCase (s : string) : string := smap upperChar s.

(** [s.slice(0, n)] *)
Fixpoint slice0 (n : nat) (s : string) : string :=
  match n, s with
  | S n', String c s' => String c (slice0 n' s')
  | _, _ => EmptyString
  end.

(** [a || b] on strings: the empty string is falsy. *)
Definition orElse (a b : string) : string :=
  match a with EmptyString => b | _ => a end.

Definition isEmpty (s : string) : bool :=
  match s with EmptyString => true | _ => false end.

(** Case folding of a regular expression with the [i] flag and without the
    [u] flag: only A-Z and a-z are identified with each other below 256. *)
Definition foldChar (c : ascii) : ascii :=
  let n := code c in
  if (65 <=? n) && (n <=? 90) then ascii_of_nat (n + 32) else c.

(** [tok] (given in lower case) matches at the start of [s], ignoring
    case. *)
Fixpoint prefix_ci (tok s : string) : bool :=
  match tok, s with
  | EmptyString, _ => true
  | String a tok', String c s' => Ascii.eqb a (foldChar c) && prefix_ci tok' s'
  | String _ _, EmptyString => false
  end.

(** [s.replace(/tok/gi, "")]: leftmost non-overlapping matches of a
    literal token are deleted in one pass.  [skip] counts the code units
    of the current match that are still to be dropped. *)
Fixpoint removeAll_ci_from (tok : string) (skip : nat) (s : string) : string :=
  match s with
  | EmptyString => EmptyString
  | String c s' =>
      match skip with
      | S k => removeAll_ci_from tok k s'
      | O =>
          if negb (isEmpty tok) && prefix_ci tok s
          then removeAll_ci_from tok (String.length tok - 1) s'
          else String c (removeAll_ci_from tok 0 s')
      end
  end.

Definition removeAll_ci (tok s : string) : string := removeAll_ci_from tok 0 s.

(** [s.includes(sub)] *)
Fixpoint includes (sub s : string) : bool :=
  String.prefix sub s
  || match s with EmptyString => false | String _ s' => includes sub s' end.

(** The template literal [`${i}`] for a non-negative integer. *)
Definition decimal (i : N) : string := NilZero.string_of_uint (N.to_uint i).

(** Character classes of the regular expressions in the source. *)
Definition isLowerAlnum (c : ascii) : bool :=
  let n := code c in
  ((97 <=? n) && (n <=? 122)) || ((48 <=? n) && (n <=? 57)).

(** [[a-z0-9_]] *)
Definition isUserChar (c : ascii) : bool :=
  isLowerAlnum c || (code c =? 95).

(** [[a-z0-9_-]] *)
Definition isSlugChar (c : ascii) : bool :=
  isUserChar c || (code c =? 45).

(** The alphabet of [nanoid]: [A-Za-z0-9_-]. *)
Definition isUrlSafe (c : ascii) : bool :=
  ((65 <=? code c) && (code c <=? 90)) || isSlugChar c.

End Js.

(** ** [src/db.js]: pure helpers *)

(** [normalizeSlug]: lower-case, trim, delete every code unit outside
    [[a-z0-9_-]], keep at most 32. *)
Definition normalizeSlug (s : string) : string :=
  Js.slice0 32 (Js.sfilter Js.isSlugChar (Js.trim (Js.toLowerCase s))).

(** [sanitizeCss] *)
Definition sanitizeCss (css : string) : string :=
  Js.slice0 (N.to_nat 6000)
    (Js.removeAll_ci "@import"
       (Js.removeAll_ci "<script"
          (Js.removeAll_ci "</style" css))).

Example normalizeSlug_ex : normalizeSlug "  My Page! " = "mypage".
Proof. reflexivity. Qed.

Example sanitizeCss_ex :
  sanitizeCss "a{}</style><script>@import url(x)" = "a{}>> url(x)".
Proof. reflexivity. Qed.

(** [clamp(n, a, b)] after [n = Number(n)]; [None] stands for NaN. *)
Definition clamp (n : option Q) (a b : Q) : Q :=
  match n with
  | None => a
  | Some q => Qmax a (Qmin b q)
  end.

(** ** Data model: the tables created by [migrate] *)

Record User := mkUser {
  u_id : nat;                 (* INTEGER PRIMARY KEY AUTOINCREMENT *)
  u_username : string;        (* UNIQUE *)
  u_password_hash : string;
  u_created_at : string;
  u_banned : bool;            (* INTEGER holding 0 or 1 *)
  u_ban_reason : string
}.

(** [links_json] holds [JSON.stringify] of an array of [{label, url}]
    objects and is only read back through [JSON.parse]; it is kept as the
    array itself. *)
Record Link := mkLink { l_label : string; l_url : string }.

Record Page := mkPage {
  p_user_id : nat;            (* INTEGER PRIMARY KEY *)
  p_slug : string;            (* UNIQUE *)
  p_display_name : string;
  p_bio : string;
  p_avatar_url : string;
  p_bg_url : string;
  p_accent : string;
  p_song_url : string;
  p_song_volume : Q;
  p_links_json : list Link;
  p_custom_css : string;
  p_updated_at : string
}.

Record InviteKey := mkInviteKey {
  k_key : string;             (* PRIMARY KEY *)
  k_created_by : nat;
  k_used_by : option nat;     (* nullable *)
  k_used_at : option string;  (* nullable *)
  k_created_at : string
}.

Record Session := mkSession {
  s_token : string;           (* PRIMARY KEY *)
  s_user_id : nat;
  s_created_at : string
}.

Record Impersonation := mkImpersonation {
  i_token : string;           (* PRIMARY KEY *)
  i_admin_user_id : nat;
  i_created_at : string
}.

(** The database, plus the number of calls made so far to the external
    sources ([nanoid], [now]). *)
Record Store := mkStore {
  users : list User;
  pages : list Page;
  invite_keys : list InviteKey;
  sessions : list Session;
  impersonations : list Impersonation;
  tick : nat
}.

Definition set_users (f : list User -> list User) (w : Store) : Store :=
  mkStore (f (users w)) (pages w) (invite_keys w) (sessions w) (impersonations w) (tick w).
Definition set_pages (f : list Page -> list Page) (w : Store) : Store :=
  mkStore (users w) (f (pages w)) (invite_keys w) (sessions w) (impersonations w) (tick w).
Definition set_invite_keys (f : list InviteKey -> list InviteKey) (w : Store) : Store :=
  mkStore (users w) (pages w) (f (invite_keys w)) (sessions w) (impersonations w) (tick w).
Definition set_sessions (f : list Session -> list Session) (w : Store) : Store :=
  mkStore (users w) (pages w) (invite_keys w) (f (sessions w)) (impersonations w) (tick w).
Definition set_impersonations (f : list Impersonation -> list Impersonation) (w : Store) : Store :=
  mkStore (users w) (pages w) (invite_keys w) (sessions w) (f (impersonations w)) (tick w).
Definition bump (w : Store) : Store :=
  mkStore (users w) (pages w) (invite_keys w) (sessions w) (impersonations w) (S (tick w)).

(** ** The monad of handlers *)

Inductive Outcome (A : Type) : Type :=
| Ok (a : A) (w : Store)            (* returned *)
| Throw (msg : string) (w : Store)  (* an exception is propagating *)
| Diverge.                          (* still looping when the fuel ran out *)
Arguments Ok {A} a w.
Arguments Throw {A} msg w.
Arguments Diverge {A}.

Definition M (A : Type) : Type := Store -> Outcome A.

Definition ret {A} (a : A) : M A := fun w => Ok a w.

Definition bind {A B} (m : M A) (k : A -> M B) : M B :=
  fun w =>
    match m w with
    | Ok a w' => k a w'
    | Throw msg w' => Throw msg w'
    | Diverge => Diverge
    end.

Definition throw {A} (msg : string) : M A := fun w => Throw msg w.

(** [try { m } catch (e) { h(e.message) }] *)
Definition tryCatch {A} (m : M A) (h : string -> M A) : M A :=
  fun w =>
    match m w with
    | Throw msg w' => h msg w'
    | r => r
    end.

Definition gets {A} (f : Store -> A) : M A := fun w => Ok (f w) w.
Definition modify (f : Store -> Store) : M unit := fun w => Ok tt (f w).

Declare Scope js_scope.
Delimit Scope js_scope with js.
Notation "x <- m ;; k" := (bind m (fun x => k))
  (at level 61, m at next level, right associativity) : js_scope.
Notation "m ;;; k" := (bind m (fun _ => k))
  (at level 61, right associativity) : js_scope.
Local Open Scope js_scope.

(** ** The SQL statements issued by the handlers

    Every [get] carries [LIMIT 1]: the first matching row in row order. *)

Module Sql.

Definition user_by_id (id : nat) (w : Store) : option User :=
  find (fun u => u_id u =? id) (users w).

Definition user_by_username (name : string) (w : Store) : option User :=
  find (fun u => String.eqb (u_username u) name) (users w).

Definition page_by_user (uid : nat) (w : Store) : option Page :=
  find (fun p => p_user_id p =? uid) (pages w).

Definition page_by_slug (slug : string) (w : Store) : option Page :=
  find (fun p => String.eqb (p_slug p) slug) (pages w).

Definition invite_by_key (key : string) (w : Store) : option InviteKey :=
  find (fun k => String.eqb (k_key k) key) (invite_keys w).

Definition session_by_token (token : string) (w : Store) : option Session :=
  find (fun s => String.eqb (s_token s) token) (sessions w).

Definition impersonation_by_token (token : string) (w : Store) : option Impersonation :=
  find (fun i => String.eqb (i_token i) token) (impersonations w).

Definition unique_failed (column : string) : string :=
  ("SQLITE_CONSTRAINT: SQLite error: UNIQUE constraint failed: " ++ column)%string.

Definition foreign_key_failed : string :=
  "SQLITE_CONSTRAINT: SQLite error: FOREIGN KEY constraint failed".

(** AUTOINCREMENT: one more than the largest id ever used; users are never
    deleted, so that is the largest id in the table. *)
Definition next_user_id (w : Store) : nat := S (list_max (map u_id (users w))).

(** [INSERT INTO users (username, password_hash, created_at)]; the result
    is [lastInsertRowid]. *)
Definition insert_user (name hash created : string) : M nat :=
  fun w =>
    if existsb (fun u => String.eqb (u_username u) name) (users w)
    then Throw (unique_failed "users.username") w
    else
      let id := next_user_id w in
      Ok id (set_users (fun us => us ++ [mkUser id name hash created false ""]) w).

(** [UPDATE users SET banned = ?, ban_reason = ? WHERE id = ?] *)
Definition set_ban (flag : bool) (reason : string) (id : nat) (u : User) : User :=
  if u_id u =? id
  then mkUser (u_id u) (u_username u) (u_password_hash u) (u_created_at u) flag reason
  else u.

Definition update_user_ban (flag : bool) (reason : string) (id : nat) : M unit :=
  modify (set_users (map (set_ban flag reason id))).

(** [INSERT INTO pages (...)].  The table has [user_id] as its primary
    key, a unique [slug] and [FOREIGN KEY(user_id) REFERENCES users(id)];
    the key and the unique column are checked as the row is written, the
    foreign key when the statement ends. *)
Definition insert_page (p : Page) : M unit :=
  fun w =>
    if existsb (fun q => p_user_id q =? p_user_id p) (pages w)
    then Throw (unique_failed "pages.user_id") w
    else if existsb (fun q => String.eqb (p_slug q) (p_slug p)) (pages w)
    then Throw (unique_failed "pages.slug") w
    else if negb (existsb (fun u => u_id u =? p_user_id p) (users w))
    then Throw foreign_key_failed w
    else Ok tt (set_pages (fun ps => ps ++ [p]) w).

(** [UPDATE pages SET slug = ?, ... WHERE user_id = ?]: [f] rewrites the
    row, [slug] is the new slug. *)
Definition update_page (uid : nat) (slug : string) (f : Page -> Page) : M unit :=
  fun w =>
    if existsb (fun q => p_user_id q =? uid) (pages w)
       && existsb (fun q => String.eqb (p_slug q) slug && negb (p_user_id q =? uid)) (pages w)
    then Throw (unique_failed "pages.slug") w
    else Ok tt (set_pages (map (fun p => if p_user_id p =? uid then f p else p)) w).

(** [INSERT INTO invite_keys (key, created_by, created_at)] *)
Definition insert_invite_key (key : string) (by_ : nat) (created : string) : M unit :=
  fun w =>
    if existsb (fun k => String.eqb (k_key k) key) (invite_keys w)
    then Throw (unique_failed "invite_keys.key") w
    else Ok tt (set_invite_keys (fun ks => ks ++ [mkInviteKey key by_ None None created]) w).

(** [UPDATE invite_keys SET used_by = ?, used_at = ? WHERE key = ?] *)
Definition set_used (uid : nat) (at_ : string) (key : string) (k : InviteKey) : InviteKey :=
  if String.eqb (k_key k) key
  then mkInviteKey (k_key k) (k_created_by k) (Some uid) (Some at_) (k_created_at k)
  else k.

Definition update_invite_used (uid : nat) (at_ : string) (key : string) : M unit :=
  modify (set_invite_keys (map (set_used uid at_ key))).

(** [INSERT INTO sessions (token, user_id, created_at)] *)
Definition insert_session (token : string) (uid : nat) (created : string) : M unit :=
  fun w =>
    if existsb (fun s => String.eqb (s_token s) token) (sessions w)
    then Throw (unique_failed "sessions.token") w
    else Ok tt (set_sessions (fun ss => ss ++ [mkSession token uid created]) w).

(** [DELETE FROM sessions WHERE token = ?] *)
Definition delete_session (token : string) : M unit :=
  modify (set_sessions (filter (fun s => negb (String.eqb (s_token s) token)))).

(** [INSERT INTO impersonations (token, admin_user_id, created_at)] *)
Definition insert_impersonation (token : string) (admin : nat) (created : string) : M unit :=
  fun w =>
    if existsb (fun i => String.eqb (i_token i) token) (impersonations w)
    then Throw (unique_failed "impersonations.token") w
    else Ok tt (set_impersonations (fun l => l ++ [mkImpersonation token admin created]) w).

(** [DELETE FROM impersonations WHERE token = ?] *)
Definition delete_impersonation (token : string) : M unit :=
  modify (set_impersonations (filter (fun i => negb (String.eqb (i_token i) token)))).

(** [ORDER BY]: insertion sort; the order among rows with equal keys, which
    SQL leaves open, is row order. *)
Fixpoint insert_by {A} (le : A -> A -> bool) (x : A) (l : list A) : list A :=
  match l with
  | [] => [x]
  | y :: l' => if le x y then x :: l else y :: insert_by le x l'
  end.

Definition order_by {A} (le : A -> A -> bool) (l : list A) : list A :=
  fold_right (insert_by le) [] l.

(** [SELECT * FROM invite_keys ORDER BY created_at DESC LIMIT 80] *)
Definition recent_invite_keys (w : Store) : list InviteKey :=
  firstn 80
    (order_by (fun a b => negb (String.ltb (k_created_at a) (k_created_at b)))
       (invite_keys w)).

(** One row of [users u LEFT JOIN pages p ON p.user_id = u.id]. *)
Record UserRow := mkUserRow {
  ur_id : nat;
  ur_username : string;
  ur_banned : bool;
  ur_ban_reason : string;
  ur_created_at : string;
  ur_slug : option string
}.

Definition join_pages (w : Store) (u : User) : list UserRow :=
  let row s := mkUserRow (u_id u) (u_username u) (u_banned u) (u_ban_reason u)
                 (u_created_at u) s in
  match filter (fun p => p_user_id p =? u_id u) (pages w) with
  | [] => [row None]
  | ps => map (fun p => row (Some (p_slug p))) ps
  end.

(** [SELECT ... FROM users u LEFT JOIN pages p ... ORDER BY u.id ASC LIMIT 1000] *)
Definition users_with_slug (w : Store) : list UserRow :=
  firstn 1000
    (flat_map (join_pages w) (order_by (fun a b => u_id a <=? u_id b) (users w))).

End Sql.

(** ** Requests and responses *)

(** [req.body]: the submitted form fields.  Every use in the source is
    [body.k || default] (or [Number(body.k)]), so a field that is absent and
    a field that is empty are the same thing. *)
Definition Body := list (string * string).

Definition field (b : Body) (k : string) : string :=
  match find (fun kv => String.eqb (fst kv) k) b with
  | Some kv => snd kv
  | None => ""
  end.

(** Routes of [src/server.js].  An [:id] parameter is carried as
    [Number(req.params.id)], with [0] for every falsy value (0 or NaN). *)
Inductive Route :=
| GetRoot | GetSignup | PostSignup | GetLogin | PostLogin | PostLogout
| GetDashboard | PostDashboard
| GetAdmin | GetAdminKeys | PostAdminKeys | GetAdminUsers
| PostBan (id : nat) | PostUnban (id : nat)
| PostImpersonate (id : nat) | PostReturn
| GetSlug (slug : string).

(** [signedCookies.session] is [None] when the cookie is missing or its
    signature does not verify. *)
Record Request := mkRequest {
  q_route : Route;
  q_session : option string;
  q_body : Body
}.

(** [req.user]: the columns selected by [getUserFromCookie]. *)
Record AuthUser := mkAuthUser {
  au_id : nat;
  au_username : string;
  au_banned : bool;
  au_ban_reason : string
}.

Inductive View :=
| SignupForm (error : option string)
| LoginForm (error : option string)
| DashboardView (user : AuthUser) (page : Page) (links : list Link)
    (error ok : option string) (isAdmin impersonating : bool)
| AdminKeysView (user : AuthUser) (keys : list InviteKey)
| AdminUsersView (user : AuthUser) (rows : list Sql.UserRow)
| ProfileView (page : Page) (links : list Link).

Inductive Reply :=
| Redirect (path : string)
| Render (v : View)
| Send (status : nat) (text : string).

Inductive CookieOp :=
| CookieKeep
| CookieSet (token : string)   (* res.cookie("session", token, ...) *)
| CookieClear.                 (* res.clearCookie("session") *)

Record Response := mkResponse { r_cookie : CookieOp; r_reply : Reply }.

Definition reply (r : Reply) : M Response := ret (mkResponse CookieKeep r).

(** ** [src/server.js]: validators *)

(** [uniqueSlug] *)
Definition uniqueSlug (base : string) : string :=
  Js.orElse (normalizeSlug base) "user".

(** [/^[a-z0-9_]{3,20}$/] *)
Definition matchUsername (u : string) : bool :=
  Js.sforall Js.isUserChar u && (3 <=? String.length u) && (String.length u <=? 20).

(** [/^[a-z0-9_-]{2,32}$/] *)
Definition matchSlug (s : string) : bool :=
  Js.sforall Js.isSlugChar s && (2 <=? String.length s) && (String.length s <=? 32).

(** [/^https?:\/\//i] *)
Definition matchHttp (s : string) : bool :=
  Js.prefix_ci "http://" s || Js.prefix_ci "https://" s.

Definition validateUsername (u : string) : option string :=
  let u := Js.trim (Js.toLowerCase u) in
  if matchUsername u then Some u else None.

Definition validateSlug (s : string) : option string :=
  let s := normalizeSlug s in
  if matchSlug s then Some s else None.

Definition validateUrl (s : string) : string :=
  let s := Js.trim s in
  if Js.isEmpty s then ""
  else if negb (matchHttp s) then ""
  else Js.slice0 400 s.

(** [requireAuth]: [inl r] answers the request with [r]; [inr u] is
    [next()], with [req.user = u]. *)
Definition requireAuth (user : option AuthUser) : Reply + AuthUser :=
  match user with
  | None => inl (Redirect "/login")
  | Some u => if au_banned u then inl (Send 403 "Banned") else inr u
  end.

(** [requireAdmin] *)
Definition requireAdmin (user : option AuthUser) : Reply + AuthUser :=
  match user with
  | Some u => if au_id u =? 1 then inr u else inl (Send 403 "Forbidden")
  | None => inl (Send 403 "Forbidden")
  end.

(** A cookie value that passes [if (!token)]. *)
Definition truthyToken (c : option string) : option string :=
  match c with
  | Some t => if Js.isEmpty t then None else Some t
  | None => None
  end.

(** The columns of a [users] row that [getUserFromCookie] selects. *)
Definition authOf (u : User) : AuthUser :=
  mkAuthUser (u_id u) (u_username u) (u_banned u) (u_ban_reason u).

(** What [req.user] becomes once the ban columns of user [X] are set. *)
Definition authBan (flag : bool) (reason : string) (X : nat) (a : AuthUser) : AuthUser :=
  if au_id a =? X then mkAuthUser (au_id a) (au_username a) flag reason else a.

(** [getUserFromCookie] *)
Definition getUserFromCookie (c : option string) (w : Store) : option AuthUser :=
  match truthyToken c with
  | None => None
  | Some token =>
      match Sql.session_by_token token w with
      | None => None
      | Some sess =>
          match Sql.user_by_id (s_user_id sess) w with
          | None => None
          | Some u => Some (authOf u)
          end
      end
  end.

(** [isImpersonating] *)
Definition isImpersonating (c : option string) (w : Store) : bool :=
  match truthyToken c with
  | None => false
  | Some token =>
      match Sql.impersonation_by_token token w with
      | Some _ => true
      | None => false
      end
  end.

(** The links loop of [savePageForUser]: the entry pushed for index [i], if
    any. *)
Definition linkAt (b : Body) (i : nat) : option Link :=
  let n := Js.decimal (N.of_nat i) in
  let label := Js.slice0 32 (Js.trim (field b ("label_" ++ n)%string)) in
  let url := validateUrl (field b ("url_" ++ n)%string) in
  if Js.isEmpty label && Js.isEmpty url then None
  else if Js.isEmpty url then None
  else Some (mkLink (Js.orElse label "Link") url).

(** [for (let i = 0; i < 14; i++) { ...; links.push(...) }] *)
Definition collectLinks (b : Body) : list Link :=
  fold_left
    (fun links i => match linkAt b i with Some l => links ++ [l] | None => links end)
    (seq 0 14) [].

(** The result object of [savePageForUser]. *)
Inductive SaveResult :=
| Saved                        (* { ok: true } *)
| NotSaved (error : string).   (* { ok: false, error } *)

(** ** [src/server.js]: the handlers *)

Module Server.

Section App.

(** [nanoid(n)] and [new Date().toISOString()] at the [k]-th call to an
    external source. *)
Variable nanoid_src : nat -> nat -> string.
Variable clock : nat -> string.

(** [bcrypt.hash(password, 12)] (salted at the [k]-th call) and
    [bcrypt.compare(password, hash)]. *)
Variable bcrypt_hash : nat -> string -> string.
Variable bcrypt_compare : string -> string -> bool.

(** [Number(s)], with [None] for NaN. *)
Variable toNumber : string -> option Q.

Definition nanoid (n : nat) : M string :=
  fun w => Ok (nanoid_src (tick w) n) (bump w).

Definition now : M string :=
  fun w => Ok (clock (tick w)) (bump w).

Definition hashPassword (password : string) : M string :=
  fun w => Ok (bcrypt_hash (tick w) password) (bump w).

(** The [while] loop of [uniqueSlugEnsure]: [slug] is about to be looked
    up, [i] is the next suffix. *)
Fixpoint uniqueSlugEnsure_loop (fuel : nat) (base slug : string) (i : N) : M string :=
  fun w =>
    match Sql.page_by_slug slug w with
    | None => Ok slug w
    | Some _ =>
        match fuel with
        | O => Diverge
        | S fuel' =>
            let slug1 := (base ++ Js.decimal i)%string in
            let i1 := (i + 1)%N in
            if (9999 <? i1)%N
            then
              (r <- nanoid 6 ;;
               uniqueSlugEnsure_loop fuel' base
                 (base ++ "-" ++ Js.toLowerCase r)%string i1) w
            else uniqueSlugEnsure_loop fuel' base slug1 i1 w
        end
    end.

Definition uniqueSlugEnsure (fuel : nat) (base : string) : M string :=
  let base := uniqueSlug base in
  uniqueSlugEnsure_loop fuel base base 2%N.

Definition ensurePageForUser (fuel : nat) (userId : nat) (username : string) : M unit :=
  existing <- gets (Sql.page_by_user userId) ;;
  match existing with
  | Some _ => ret tt
  | None =>
      slug <- uniqueSlugEnsure fuel username ;;
      t <- now ;;
      Sql.insert_page
        (mkPage userId slug username "welcome to my page"
           "/public/default-avatar.png" "" "#8b5cf6" "" (4 # 10) [] "" t)
  end.

Definition signupError (e : string) : M Response :=
  reply (Render (SignupForm (Some e))).

Definition loginError (e : string) : M Response :=
  reply (Render (LoginForm (Some e))).

(** [inviteRow.used_by] as a condition: NULL and 0 are falsy. *)
Definition used (k : InviteKey) : bool :=
  match k_used_by k with
  | Some n => negb (n =? 0)
  | None => false
  end.

(** [app.post("/signup")] *)
Definition signup (fuel : nat) (b : Body) : M Response :=
  let password := field b "password" in
  let invite := Js.trim (field b "invite") in
  match validateUsername (field b "username") with
  | None => signupError "Username: 3-20 chars, a-z 0-9 _"
  | Some username =>
      if String.length password <? 6 then signupError "Password must be 6+ chars"
      else
        inviteRow <- gets (Sql.invite_by_key invite) ;;
        match inviteRow with
        | None => signupError "Invalid invite key"
        | Some row =>
            if used row then signupError "Invalid invite key"
            else
              hash <- hashPassword password ;;
              tryCatch
                (t0 <- now ;;
                 userId <- Sql.insert_user username hash t0 ;;
                 t1 <- now ;;
                 Sql.update_invite_used userId t1 invite ;;;
                 ensurePageForUser fuel userId username ;;;
                 token <- nanoid 32 ;;
                 t2 <- now ;;
                 Sql.insert_session token userId t2 ;;;
                 ret (mkResponse (CookieSet token) (Redirect "/dashboard")))
                (fun msg =>
                   if Js.includes "UNIQUE" msg
                   then signupError "Username already taken"
                   else signupError "Signup failed")
        end
  end.

(** [app.post("/login")] *)
Definition login (fuel : nat) (b : Body) : M Response :=
  let username := Js.trim (Js.toLowerCase (field b "username")) in
  let password := field b "password" in
  user <- gets (Sql.user_by_username username) ;;
  match user with
  | None => loginError "Invalid login"
  | Some user =>
      if u_banned user then loginError "Banned"
      else if negb (bcrypt_compare password (u_password_hash user))
      then loginError "Invalid login"
      else
        ensurePageForUser fuel (u_id user) (u_username user) ;;;
        token <- nanoid 32 ;;
        t <- now ;;
        Sql.insert_session token (u_id user) t ;;;
        ret (mkResponse (CookieSet token) (Redirect "/dashboard"))
  end.

(** [app.post("/logout")] *)
Definition logout (c : option string) : M Response :=
  match truthyToken c with
  | Some token =>
      Sql.delete_session token ;;;
      Sql.delete_impersonation token
  | None => ret tt
  end ;;;
  ret (mkResponse CookieClear (Redirect "/login")).

Definition nullPage {A} : M A :=
  throw "TypeError: Cannot read properties of null (reading 'links_json')".

(** The dashboard render shared by GET and POST [/dashboard]. *)
Definition renderDashboard (c : option string) (u : AuthUser)
    (error ok : option string) : M Response :=
  page <- gets (Sql.page_by_user (au_id u)) ;;
  match page with
  | None => nullPage
  | Some page =>
      imp <- gets (isImpersonating c) ;;
      reply (Render (DashboardView u page (p_links_json page) error ok
                       (au_id u =? 1) imp))
  end.

(** [app.get("/dashboard")], after [requireAuth] *)
Definition dashboard (fuel : nat) (c : option string) (u : AuthUser) : M Response :=
  ensurePageForUser fuel (au_id u) (au_username u) ;;;
  renderDashboard c u None None.

(** [savePageForUser] *)
Definition savePageForUser (userId : nat) (b : Body) : M SaveResult :=
  page <- gets (Sql.page_by_user userId) ;;
  match page with
  | None => ret (NotSaved "No page")
  | Some page =>
      match validateSlug (Js.orElse (field b "slug") (p_slug page)) with
      | None => ret (NotSaved "Slug must be 2-32: a-z 0-9 _ -")
      | Some slug =>
          owner <- gets (Sql.page_by_slug slug) ;;
          let taken :=
            match owner with
            | Some o => negb (p_user_id o =? userId)
            | None => false
            end in
          if taken then ret (NotSaved "That slug is taken")
          else
            let links := collectLinks b in
            let displayName := Js.slice0 40 (Js.trim (field b "display_name")) in
            let bio := Js.slice0 240 (Js.trim (field b "bio")) in
            let avatarUrl :=
              Js.orElse (Js.slice0 400 (Js.trim (field b "avatar_url")))
                "/public/default-avatar.png" in
            let bgUrl := Js.slice0 400 (Js.trim (field b "bg_url")) in
            let accent := Js.slice0 16 (Js.trim (Js.orElse (field b "accent") "#8b5cf6")) in
            let songUrl := Js.slice0 400 (Js.trim (field b "song_url")) in
            let songVolume := clamp (toNumber (field b "song_volume")) 0 1 in
            let customCss := sanitizeCss (field b "custom_css") in
            t <- now ;;
            Sql.update_page userId slug
              (fun p => mkPage (p_user_id p) slug displayName bio avatarUrl bgUrl
                          accent songUrl songVolume links customCss t) ;;;
            ret Saved
      end
  end.

(** [app.post("/dashboard")], after [requireAuth] *)
Definition dashboardPost (c : option string) (u : AuthUser) (b : Body) : M Response :=
  result <- savePageForUser (au_id u) b ;;
  match result with
  | Saved => renderDashboard c u None (Some "Saved")
  | NotSaved e => renderDashboard c u (Some e) None
  end.

(** [app.post("/admin/keys")], after [requireAuth] and [requireAdmin] *)
Definition adminMintKey (u : AuthUser) : M Response :=
  r <- nanoid 10 ;;
  t <- now ;;
  Sql.insert_invite_key (Js.toUpperCase r) (au_id u) t ;;;
  reply (Redirect "/admin/keys").

(** [if (!id || id === 1)] *)
Definition badTarget (id : nat) : bool := (id =? 0) || (id =? 1).

(** [app.post("/admin/users/:id/ban")] *)
Definition ban (id : nat) (b : Body) : M Response :=
  if badTarget id then reply (Send 400 "no")
  else
    Sql.update_user_ban true (Js.slice0 120 (field b "reason")) id ;;;
    reply (Redirect "/admin/users").

(** [app.post("/admin/users/:id/unban")] *)
Definition unban (id : nat) : M Response :=
  if badTarget id then reply (Send 400 "no")
  else
    Sql.update_user_ban false "" id ;;;
    reply (Redirect "/admin/users").

(** [app.post("/admin/impersonate/:id")] *)
Definition impersonate (u : AuthUser) (id : nat) : M Response :=
  if id =? 0 then reply (Send 400 "no")
  else
    target <- gets (Sql.user_by_id id) ;;
    match target with
    | None => reply (Send 404 "not found")
    | Some _ =>
        token <- nanoid 32 ;;
        t0 <- now ;;
        Sql.insert_session token id t0 ;;;
        t1 <- now ;;
        Sql.insert_impersonation token (au_id u) t1 ;;;
        ret (mkResponse (CookieSet token) (Redirect "/dashboard"))
    end.

(** [app.post("/admin/return")], after [requireAuth] *)
Definition adminReturn (c : option string) : M Response :=
  match truthyToken c with
  | None => reply (Redirect "/dashboard")
  | Some token =>
      row <- gets (Sql.impersonation_by_token token) ;;
      match row with
      | None => reply (Redirect "/dashboard")
      | Some row =>
          Sql.delete_session token ;;;
          Sql.delete_impersonation token ;;;
          newToken <- nanoid 32 ;;
          t <- now ;;
          Sql.insert_session newToken (i_admin_user_id row) t ;;;
          ret (mkResponse (CookieSet newToken) (Redirect "/admin/users"))
      end
  end.

(** [app.get("/:slug")] *)
Definition profile (segment : string) : M Response :=
  page <- gets (Sql.page_by_slug (normalizeSlug segment)) ;;
  match page with
  | None => reply (Send 404 "Not found")
  | Some page => reply (Render (ProfileView page (p_links_json page)))
  end.

(** [app.get("/")] *)
Definition root (user : option AuthUser) : M Response :=
  match user with
  | None => reply (Redirect "/login")
  | Some u =>
      if au_banned u then reply (Send 403 "Banned")
      else
        page <- gets (Sql.page_by_user (au_id u)) ;;
        reply (Redirect
                 match page with
                 | Some p => ("/" ++ p_slug p)%string
                 | None => "/dashboard"
                 end)
  end.

Definition withAuth (user : option AuthUser) (h : AuthUser -> M Response) : M Response :=
  match requireAuth user with
  | inl r => reply r
  | inr u => h u
  end.

Definition withAdmin (user : option AuthUser) (h : AuthUser -> M Response) : M Response :=
  withAuth user (fun u =>
    match requireAdmin (Some u) with
    | inl r => reply r
    | inr u => h u
    end).

(** Which routes are registered behind [requireAuth]. *)
Definition behindRequireAuth (r : Route) : bool :=
  match r with
  | GetDashboard | PostDashboard | GetAdmin | GetAdminKeys | PostAdminKeys
  | GetAdminUsers | PostBan _ | PostUnban _ | PostImpersonate _ | PostReturn => true
  | _ => false
  end.

(** One request through the application: the middleware that sets
    [req.user], then the route's handler chain. *)
Definition handle (fuel : nat) (q : Request) : M Response :=
  let c := q_session q in
  let b := q_body q in
  user <- gets (getUserFromCookie c) ;;
  match q_route q with
  | GetRoot => root user
  | GetSignup => reply (Render (SignupForm None))
  | PostSignup => signup fuel b
  | GetLogin => reply (Render (LoginForm None))
  | PostLogin => login fuel b
  | PostLogout => logout c
  | GetDashboard => withAuth user (dashboard fuel c)
  | PostDashboard => withAuth user (fun u => dashboardPost c u b)
  | GetAdmin => withAdmin user (fun _ => reply (Redirect "/admin/keys"))
  | GetAdminKeys =>
      withAdmin user (fun u =>
        keys <- gets Sql.recent_invite_keys ;;
        reply (Render (AdminKeysView u keys)))
  | PostAdminKeys => withAdmin user adminMintKey
  | GetAdminUsers =>
      withAdmin user (fun u =>
        rows <- gets Sql.users_with_slug ;;
        reply (Render (AdminUsersView u rows)))
  | PostBan id => withAdmin user (fun _ => ban id b)
  | PostUnban id => withAdmin user (fun _ => unban id)
  | PostImpersonate id => withAdmin user (fun u => impersonate u id)
  | PostReturn => withAuth user (fun _ => adminReturn c)
  | GetSlug segment => profile segment
  end.

(** The row written by the [UPDATE] of [savePageForUser]. *)
Definition savedRow (b : Body) (slug at_ : string) (p : Page) : Page :=
  mkPage (p_user_id p) slug
    (Js.slice0 40 (Js.trim (field b "display_name")))
    (Js.slice0 240 (Js.trim (field b "bio")))
    (Js.orElse (Js.slice0 400 (Js.trim (field b "avatar_url"))) "/public/default-avatar.png")
    (Js.slice0 400 (Js.trim (field b "bg_url")))
    (Js.slice0 16 (Js.trim (Js.orElse (field b "accent") "#8b5cf6")))
    (Js.slice0 400 (Js.trim (field b "song_url")))
    (clamp (toNumber (field b "song_volume")) 0 1)
    (collectLinks b)
    (sanitizeCss (field b "custom_css"))
    at_.

Definition afterSave (uid : nat) (b : Body) (slug : string) (w : Store) : Store :=
  set_pages
    (map (fun p => if p_user_id p =? uid then savedRow b slug (clock (tick w)) p else p))
    (bump w).

(** The candidates of [uniqueSlugEnsure]: the [k]-th sequential one
    ([base], then [base2], [base3], ...) and the random one built from the
    draw made at call counter [t]. *)
Definition seqCandidate (base : string) (k : N) : string :=
  if (k =? 1)%N then base else (base ++ Js.decimal k)%string.

Definition randCandidate (base : string) (t : nat) : string :=
  (base ++ "-" ++ Js.toLowerCase (nanoid_src t 6))%string.

(** [SELECT 1 FROM pages WHERE slug = ?] as a condition. *)
Definition slugTaken (w : Store) (slug : string) : bool :=
  match Sql.page_by_slug slug w with Some _ => true | None => false end.

(** The store after [n] further calls to the external sources. *)
Definition advance (n : nat) (w : Store) : Store := Nat.iter n bump w.

(** The row inserted by [ensurePageForUser]. *)
Definition freshPage (userId : nat) (slug username at_ : string) : Page :=
  mkPage userId slug username "welcome to my page"
    "/public/default-avatar.png" "" "#8b5cf6" "" (4 # 10) [] "" at_.

(** One request, as a transition of the store: the handler returned or
    threw, and left [w']. *)
Inductive step (w w' : Store) : Prop :=
| step_returned fuel q r : handle fuel q w = Ok r w' -> step w w'
| step_threw fuel q msg : handle fuel q w = Throw msg w' -> step w w'.

(** [w'] is [w] after any number of requests. *)
Inductive later (w : Store) : Store -> Prop :=
| later_now : later w w
| later_step w1 w2 : later w w1 -> step w1 w2 -> later w w2.

(** The store after a successful [impersonate] that drew [t]. *)
Definition afterImpersonate (t : string) (U admin : nat) (w : Store) : Store :=
  set_impersonations
    (fun l => l ++ [mkImpersonation t admin (clock (S (S (tick w))))])
    (bump (set_sessions (fun ss => ss ++ [mkSession t U (clock (S (tick w)))])
             (bump (bump w)))).

(** The store after a successful [adminReturn] on [t] that drew [t']. *)
Definition afterReturn (t t' : string) (admin : nat) (w : Store) : Store :=
  set_sessions (fun ss => ss ++ [mkSession t' admin (clock (S (tick w)))])
    (bump (bump
       (set_impersonations (filter (fun i => negb (String.eqb (i_token i) t)))
          (set_sessions (filter (fun s => negb (String.eqb (s_token s) t))) w)))).

(** The store in the middle of a successful signup: the user row is
    inserted and the invite key claimed; the page and the session are still
    to come. *)
Definition afterClaim (username password invite : string) (w : Store) : Store :=
  set_invite_keys
    (map (Sql.set_used (Sql.next_user_id w) (clock (S (S (tick w)))) invite))
    (bump
       (set_users
          (fun us => us ++ [mkUser (Sql.next_user_id w) username
                              (bcrypt_hash (tick w) password)
                              (clock (S (tick w))) false ""])
          (bump (bump w)))).

(** The store after the page of [userId] has been created at [w]. *)
Definition withFreshPage (userId : nat) (slug username : string) (w : Store) : Store :=
  set_pages (fun ps => ps ++ [freshPage userId slug username (clock (tick w))]) (bump w).

(** The store after a session has been issued at [w]. *)
Definition withSession (token : string) (userId : nat) (w : Store) : Store :=
  set_sessions (fun ss => ss ++ [mkSession token userId (clock (S (tick w)))])
    (bump (bump w)).

End App.

End Server.

Import Server.

(** ** Invariants of the store *)

(** Every impersonation record sits on the token of a session row. *)
Definition paired (w : Store) : bool :=
  forallb
    (fun i => existsb (fun s => String.eqb (s_token s) (i_token i)) (sessions w))
    (impersonations w).

(** The users table has a row with id [id]. *)
Definition hasUser (id : nat) (w : Store) : bool :=
  existsb (fun u => u_id u =? id) (users w).

(** FOREIGN KEY(user_id) REFERENCES users(id): every page belongs to a
    user row. *)
Definition pagesHaveOwners (w : Store) : bool :=
  forallb (fun p => hasUser (p_user_id p) w) (pages w).

(** What the schema and the validators guarantee about users and pages:
    the key and unique columns of [pages], its foreign key, and the formats
    of usernames and slugs. *)
Definition sound (w : Store) : Prop :=
  NoDup (map p_user_id (pages w)) /\
  NoDup (map p_slug (pages w)) /\
  pagesHaveOwners w = true /\
  (forall u, In u (users w) -> matchUsername (u_username u) = true) /\
  (forall p, In p (pages w) -> matchSlug (p_slug p) = true).

(** The invite key [key] exists and has been consumed. *)
Definition consumed (key : string) (w : Store) : bool :=
  match Sql.invite_by_key key w with
  | Some row => used row
  | None => false
  end.

(** Hoare triples for handlers: from a store satisfying [P], a normal
    return satisfies [Q] and a propagating exception leaves a store
    satisfying [E]. *)
Definition triple {A} (P : Store -> Prop) (m : M A)
    (Q : A -> Store -> Prop) (E : Store -> Prop) : Prop :=
  forall w, P w ->
    match m w with
    | Ok a w' => Q a w'
    | Throw _ w' => E w'
    | Diverge => True
    end.

(** [m] maintains [I], whether it returns or throws. *)
Definition preserves {A} (I : Store -> Prop) (m : M A) : Prop :=
  triple I m (fun _ => I) I.

(** Handlers that leave [users] and [pages] alone. *)
Definition keeps {A} (m : M A) : Prop :=
  forall w,
    match m w with
    | Ok _ w' | Throw _ w' => users w' = users w /\ pages w' = pages w
    | Diverge => True
    end.

(** [f] holds on [n] consecutive numbers from [s] on: a table to run. *)
Fixpoint allFrom (f : N -> bool) (n : nat) (s : N) : bool :=
  match n with
  | O => true
  | S n' => f s && allFrom f n' (N.succ s)
  end.

(** ** The link filter as the specification words it

    Indices 0..13 in order; an entry is kept when its (trimmed) URL is
    non-empty and starts with [http://] or [https://] in any letter case;
    a kept entry's label is "Link" when the (trimmed) label is empty. *)

Definition urlOf (b : Body) (i : nat) : string :=
  Js.trim (field b ("url_" ++ Js.decimal (N.of_nat i))%string).

Definition labelOf (b : Body) (i : nat) : string :=
  Js.trim (field b ("label_" ++ Js.decimal (N.of_nat i))%string).

Definition keptIndex (b : Body) (i : nat) : bool :=
  negb (Js.isEmpty (urlOf b i)) && matchHttp (urlOf b i).

Definition savedEntry (b : Body) (i : nat) : Link :=
  mkLink (Js.orElse (Js.slice0 32 (labelOf b i)) "Link") (Js.slice0 400 (urlOf b i)).

Definition keptLinks (b : Body) : list Link :=
  map (savedEntry b) (filter (keptIndex b) (seq 0 14)).

(** The submission of the specification's link-filter example. *)
Definition exampleLinksBody : Body :=
  [("label_0", ""); ("url_0", "ftp://x");
   ("label_1", "Blog"); ("url_1", "https://b.example");
   ("label_2", ""); ("url_2", "https://c.example")].

(** ** Requests one after the other *)

Module Runs.

Section Serve.

Variable nanoid_src : nat -> nat -> string.
Variable clock : nat -> string.
Variable bcrypt_hash : nat -> string -> string.
Variable bcrypt_compare : string -> string -> bool.
Variable toNumber : string -> option Q.

(** The store after the requests of [qs], each with the fuel for its slug
    loop, have been handled one after the other, whether a handler returned
    or threw; [None] when one of them was still looping. *)
Fixpoint serve (qs : list (nat * Request)) (w : Store) : option Store :=
  match qs with
  | [] => Some w
  | (fuel, q) :: qs' =>
      match handle nanoid_src clock bcrypt_hash bcrypt_compare toNumber fuel q w with
      | Ok _ w' | Throw _ w' => serve qs' w'
      | Diverge => None
      end
  end.

End Serve.

End Runs.

(** ** [src/unnamed/part_000]: the script that creates the administrator

    The script works on the [users] table through its own connection; it is
    modelled on the store of the application.  What it prints is its
    result. *)

Module Script.

Inductive Log :=
| AlreadyExists (id : nat)   (* "user already exists with id", existing.id *)
| Created (id : nat).        (* "admin created with id", info.lastInsertRowid *)

Definition username : string := "iqsm".
Definition password : string := "Indi2017!!::".

Section Run.

Variable clock : nat -> string.
Variable bcrypt_hash : nat -> string -> string.

(** [run()] *)
Definition run : M Log :=
  hash <- hashPassword bcrypt_hash password ;;
  existing <- gets (Sql.user_by_username username) ;;
  match existing with
  | Some u => ret (AlreadyExists (u_id u))
  | None =>
      t <- now clock ;;
      id <- Sql.insert_user username hash t ;;
      ret (Created id)
  end.

End Run.

End Script.

(** ** Notions used to state the properties of the helpers *)

(** [a] is [b] with some of its code units deleted. *)
Inductive Subseq : string -> string -> Prop :=
| Subseq_nil s : Subseq "" s
| Subseq_keep c a b : Subseq a b -> Subseq (String c a) (String c b)
| Subseq_drop c a b : Subseq a b -> Subseq a (String c b).

(** [tok] (given in lower case) occurs somewhere in [s], ignoring case:
    the regular expression [/tok/i] has a match. *)
Fixpoint includes_ci (tok s : string) : bool :=
  Js.prefix_ci tok s
  || match s with EmptyString => false | String _ s' => includes_ci tok s' end.

(** The database once [migrate] has run on a new one: the five tables,
    empty. *)
Definition emptyStore : Store := mkStore [] [] [] [] [] 0.

(** The columns of a [users] row that no statement of the application
    updates. *)
Definition identity (u : User) : nat * string * string * string :=
  (u_id u, u_username u, u_password_hash u, u_created_at u).

(** PRIMARY KEY and UNIQUE of [users]; AUTOINCREMENT ids are positive. *)
Definition usersKeyed (w : Store) : Prop :=
  NoDup (map u_id (users w)) /\
  NoDup (map u_username (users w)) /\
  (forall u, In u (users w) -> u_id u <> 0).

(** User 1, the administrator of [requireAdmin], is not banned. *)
Definition adminNotBanned (w : Store) : Prop :=
  forall u, In u (users w) -> u_id u = 1 -> u_banned u = false.

(** Every impersonation record names user 1 as its administrator. *)
Definition impersonationsByAdmin (w : Store) : Prop :=
  forall i, In i (impersonations w) -> i_admin_user_id i = 1.

(** The row of [GET /admin/users] for the user row [x]: its columns, and
    the slug of its page if it has one. *)
Definition listedRow (w : Store) (x : User) : Sql.UserRow :=
  Sql.mkUserRow (u_id x) (u_username x) (u_banned x) (u_ban_reason x) (u_created_at x)
    (option_map p_slug (Sql.page_by_user (u_id x) w)).

(** The request [q], arriving at [w], is one of the administrator: its
    session resolves to user 1, who is not banned. *)
Definition byAdmin (q : Request) (w : Store) : Prop :=
  exists u,
    getUserFromCookie (q_session q) w = Some u /\ au_id u = 1 /\ au_banned u = false.

(** Which routes are registered behind [requireAdmin] (each of them after
    [requireAuth]). *)
Definition behindRequireAdmin (r : Route) : bool :=
  match r with
  | GetAdmin | GetAdminKeys | PostAdminKeys | GetAdminUsers
  | PostBan _ | PostUnban _ | PostImpersonate _ => true
  | _ => false
  end.

(** ** Concrete stores and sources used in examples *)

Module Examples.

(** Stand-ins for the external sources: draws are distinct per call and
    have the requested length; the "hash" is recognisable, not secure. *)
Definition nanoidOf (k n : nat) : string :=
  Js.slice0 n ("T" ++ Js.decimal (N.of_nat k) ++ "xKq9_Zr-3LmPw7YtBv2NcHd5JfGs8AeU")%string.

Definition clockOf (k : nat) : string :=
  ("2024-05-01T12:00:00." ++ Js.decimal (N.of_nat k) ++ "Z")%string.

Definition hashOf (k : nat) (password : string) : string :=
  ("$2a$12$" ++ password)%string.

Definition compareOf (password hash : string) : bool :=
  String.eqb hash ("$2a$12$" ++ password)%string.

Definition numberOf (s : string) : option Q :=
  if String.eqb s "1" then Some 1%Q
  else if String.eqb s "0.73" then Some (73 # 100)
  else None.

Definition t0 : string := "2024-04-30T09:00:00.000Z".

(** The administrator, a regular user with a page, and a banned user. *)
Definition exampleStore : Store :=
  mkStore
    [mkUser 1 "iqsm" "$2a$12$Indi2017" t0 false "";
     mkUser 2 "alice" "$2a$12$wonderland" t0 false "";
     mkUser 3 "mallory" "$2a$12$letmein" t0 true "spam"]
    [freshPage 1 "iqsm" "iqsm" t0; freshPage 2 "alice" "alice" t0]
    [mkInviteKey "Q7ZK2M9XPA" 1 None None t0;
     mkInviteKey "B3HW8RT5YC" 1 (Some 2) (Some t0) t0]
    [mkSession "admin-session-token" 1 t0;
     mkSession "alice-session-token" 2 t0;
     mkSession "mallory-session-token" 3 t0]
    [] 0.

Definition signupBody : Body :=
  [("username", " Bob"); ("password", "hunter22"); ("invite", " Q7ZK2M9XPA ")].

Definition adminCookie : option string := Some "admin-session-token".
Definition aliceCookie : option string := Some "alice-session-token".

Definition adminAuth : AuthUser := mkAuthUser 1 "iqsm" false "".
Definition aliceRow : User := mkUser 2 "alice" "$2a$12$wonderland" t0 false "".
Definition alicePage : Page := freshPage 2 "alice" "alice" t0.

Definition aliceLogin : Body := [("username", "Alice "); ("password", "wonderland")].
Definition malloryWrong : Body := [("username", "mallory"); ("password", "wrong")].
Definition nobodyWrong : Body := [("username", "nobody"); ("password", "wrong")].

(** A random source that keeps returning the same string. *)
Definition stubbornNanoid : nat -> nat -> string := fun _ _ => "AAAAAA".

(** Users 1..10000.  The first 9999 hold the slugs [user], [user2], ...,
    [user9999]; the last one has renamed its page to [user-aaaaaa]. *)
Definition crowdedSlugs : list (nat * string) :=
  (1, "user")
    :: map (fun k => (k, ("user" ++ Js.decimal (N.of_nat k))%string))
         (seq 2 (N.to_nat 9998))
    ++ [(N.to_nat 10000, "user-aaaaaa")].

Definition crowdedStore : Store :=
  mkStore
    (map (fun e => mkUser (fst e) ("usr" ++ Js.decimal (N.of_nat (fst e)))%string
                     "$2a$12$hash" t0 false "")
       crowdedSlugs)
    (map (fun e => freshPage (fst e) (snd e)
                     ("usr" ++ Js.decimal (N.of_nat (fst e)))%string t0)
       crowdedSlugs)
    [] [] [] 0.

(** A signup that asks for a username in use. *)
Definition takenBody : Body :=
  [("username", "Alice"); ("password", "hunter22"); ("invite", "Q7ZK2M9XPA")].

(** The example store with one more session, on the very token that the
    example source draws for the session of the next signup. *)
Definition collidingStore : Store :=
  set_sessions (fun ss => ss ++ [mkSession (nanoidOf 4 32) 2 t0]) exampleStore.

(** The example store once mallory, who has no page, has been unbanned. *)
Definition pardonedStore : Store :=
  set_users (map (Sql.set_ban false "" 3)) exampleStore.

Definition malloryCookie : option string := Some "mallory-session-token".

(** The crowded store with one unused invite key, and a signup for the
    username "user", which no user of that store has. *)
Definition crowdedInvited : Store :=
  set_invite_keys (fun _ => [mkInviteKey "Q7ZK2M9XPA" 1 None None t0]) crowdedStore.

Definition userSignup : Body :=
  [("username", "user"); ("password", "hunter22"); ("invite", "Q7ZK2M9XPA")].

(** The crowded store with one more user, "user", who has no page yet (as
    the account that [src/unnamed/part_000] creates has none). *)
Definition crowdedPageless : Store :=
  set_users
    (fun us => us ++ [mkUser (N.to_nat 10001) "user" "$2a$12$hunter22" t0 false ""])
    crowdedStore.

Definition userLogin : Body := [("username", "user"); ("password", "hunter22")].

End Examples.

(** * Properties *)

(** ** Strings *)

Lemma ascii_cases (P : ascii -> Prop) :
  (forall b0 b1 b2 b3 b4 b5 b6 b7, P (Ascii b0 b1 b2 b3 b4 b5 b6 b7)) ->
  forall c, P c.
Proof. intros H [b0 b1 b2 b3 b4 b5 b6 b7]. apply H. Qed.

Ltac by_ascii_cases c :=
  pattern c; apply ascii_cases;
  intros [] [] [] [] [] [] [] []; vm_compute; try reflexivity; try discriminate;
  try (intros; discriminate); try (intros; reflexivity).

Lemma white_not_slugChar c : Js.isWhite c = true -> Js.isSlugChar c = false.
Proof. by_ascii_cases c. Qed.

Lemma slugChar_lower c : Js.isSlugChar c = true -> Js.lowerChar c = c.
Proof. by_ascii_cases c. Qed.

Lemma slugChar_not_white c : Js.isSlugChar c = true -> Js.isWhite c = false.
Proof. by_ascii_cases c. Qed.

Lemma sfilter_trimStart s :
  Js.sfilter Js.isSlugChar (Js.trimStart s) = Js.sfilter Js.isSlugChar s.
Proof.
  induction s as [|c s IH]; simpl; [reflexivity|].
  destruct (Js.isWhite c) eqn:W.
  - rewrite (white_not_slugChar _ W). exact IH.
  - reflexivity.
Qed.

Lemma sfilter_trimEnd s :
  Js.sfilter Js.isSlugChar (Js.trimEnd s) = Js.sfilter Js.isSlugChar s.
Proof.
  induction s as [|c s IH]; simpl; [reflexivity|].
  destruct (Js.trimEnd s) as [|d t] eqn:T.
  - destruct (Js.isWhite c) eqn:W; simpl.
    + rewrite (white_not_slugChar _ W). exact IH.
    + rewrite <- IH. reflexivity.
  - simpl. simpl in IH. rewrite IH. reflexivity.
Qed.

(** The [trim] in [normalizeSlug] is subsumed by the character filter. *)
Lemma normalizeSlug_no_trim s :
  normalizeSlug s = Js.slice0 32 (Js.sfilter Js.isSlugChar (Js.toLowerCase s)).
Proof.
  unfold normalizeSlug, Js.trim. now rewrite sfilter_trimEnd, sfilter_trimStart.
Qed.

Lemma sforall_slice0 p n s : Js.sforall p s = true -> Js.sforall p (Js.slice0 n s) = true.
Proof.
  revert n; induction s as [|c s IH]; intros [|n]; simpl; auto.
  intros H. apply andb_true_iff in H as [H1 H2]. rewrite H1. simpl. auto.
Qed.

Lemma sforall_sfilter p s : Js.sforall p (Js.sfilter p s) = true.
Proof.
  induction s as [|c s IH]; simpl; auto.
  destruct (p c) eqn:E; simpl; auto. now rewrite E.
Qed.

Lemma length_slice0 n s : String.length (Js.slice0 n s) = Nat.min n (String.length s).
Proof.
  revert n; induction s as [|c s IH]; intros [|n]; simpl; auto.
Qed.

Lemma slice0_all n s : String.length s <= n -> Js.slice0 n s = s.
Proof.
  revert n; induction s as [|c s IH]; intros [|n]; simpl; intros H; auto; try lia.
  f_equal. apply IH. lia.
Qed.

Lemma normalizeSlug_chars s : Js.sforall Js.isSlugChar (normalizeSlug s) = true.
Proof. unfold normalizeSlug. apply sforall_slice0, sforall_sfilter. Qed.

Lemma normalizeSlug_length s : String.length (normalizeSlug s) <= 32.
Proof. unfold normalizeSlug. rewrite length_slice0. lia. Qed.

(** After normalization the pattern [[a-z0-9_-]{2,32}] can only fail on the
    lower length bound. *)
Lemma matchSlug_normalized s :
  matchSlug (normalizeSlug s) = (2 <=? String.length (normalizeSlug s)).
Proof.
  unfold matchSlug. rewrite normalizeSlug_chars. simpl.
  pose proof (normalizeSlug_length s) as H.
  apply Nat.leb_le in H. rewrite H. apply andb_true_r.
Qed.

Lemma validateSlug_spec s :
  validateSlug s =
  if 2 <=? String.length (normalizeSlug s) then Some (normalizeSlug s) else None.
Proof. unfold validateSlug. now rewrite matchSlug_normalized. Qed.

Lemma smap_id_on f p s :
  (forall c, p c = true -> f c = c) -> Js.sforall p s = true -> Js.smap f s = s.
Proof.
  intros Hf. induction s as [|c s IH]; simpl; auto.
  intros H. apply andb_true_iff in H as [H1 H2]. now rewrite Hf, IH.
Qed.

Lemma sfilter_id p s : Js.sforall p s = true -> Js.sfilter p s = s.
Proof.
  induction s as [|c s IH]; simpl; auto.
  intros H. apply andb_true_iff in H as [H1 H2]. now rewrite H1, IH.
Qed.

Lemma trimStart_id s : Js.sforall Js.isSlugChar s = true -> Js.trimStart s = s.
Proof.
  destruct s as [|c s]; simpl; auto.
  intros H. apply andb_true_iff in H as [H1 _]. now rewrite (slugChar_not_white _ H1).
Qed.

Lemma trimEnd_id s : Js.sforall Js.isSlugChar s = true -> Js.trimEnd s = s.
Proof.
  induction s as [|c s IH]; simpl; auto.
  intros H. apply andb_true_iff in H as [H1 H2]. rewrite (IH H2).
  destruct s; [now rewrite (slugChar_not_white _ H1)|reflexivity].
Qed.

(** A string that already has the slug format is a fixed point of
    [normalizeSlug]. *)
Lemma normalizeSlug_fixed s : matchSlug s = true -> normalizeSlug s = s.
Proof.
  unfold matchSlug. intros H.
  apply andb_true_iff in H as [H H32]. apply andb_true_iff in H as [Hc H2].
  unfold normalizeSlug, Js.trim, Js.toLowerCase.
  rewrite (smap_id_on _ _ _ slugChar_lower Hc).
  rewrite (trimStart_id _ Hc), (trimEnd_id _ Hc), (sfilter_id _ _ Hc).
  apply slice0_all. now apply Nat.leb_le.
Qed.

(** ** Tables *)

Lemma find_exists {A} (f : A -> bool) l x :
  In x l -> f x = true -> exists y, find f l = Some y.
Proof.
  induction l as [|a l IH]; simpl; [tauto|].
  intros [->|Hin] Hx.
  - rewrite Hx. eauto.
  - destruct (f a); eauto.
Qed.

(** With a UNIQUE column, [get ... WHERE column = ?] returns the row that
    holds the value. *)
Lemma find_unique {A} (key : A -> string) l x :
  NoDup (map key l) -> In x l ->
  find (fun y => String.eqb (key y) (key x)) l = Some x.
Proof.
  induction l as [|a l IH]; simpl; [tauto|].
  intros Hnd [->|Hin].
  - now rewrite String.eqb_refl.
  - inversion Hnd as [|? ? Hnotin Hnd']; subst.
    destruct (String.eqb_spec (key a) (key x)) as [E|_]; [|auto].
    exfalso. apply Hnotin. rewrite E. now apply in_map.
Qed.

Lemma find_app_some {A} (f : A -> bool) l l' x :
  find f l = Some x -> find f (l ++ l') = Some x.
Proof.
  induction l as [|a l IH]; simpl; [discriminate|].
  destruct (f a); auto.
Qed.

Lemma find_app_none {A} (f : A -> bool) l l' :
  find f l = None -> find f (l ++ l') = find f l'.
Proof.
  induction l as [|a l IH]; simpl; auto.
  destruct (f a); [discriminate|auto].
Qed.

Lemma find_none_existsb {A} (f : A -> bool) l :
  find f l = None <-> existsb f l = false.
Proof.
  induction l as [|a l IH]; simpl; [tauto|].
  destruct (f a); simpl; [split; discriminate|exact IH].
Qed.

Lemma find_some_existsb {A} (f : A -> bool) l x :
  find f l = Some x -> existsb f l = true.
Proof.
  intros H. destruct (existsb f l) eqn:E; auto.
  apply find_none_existsb in E. congruence.
Qed.

(** [UPDATE ... WHERE k = ?] seen through [get ... WHERE k = ?], for a
    rewrite [g] that applies [f] to the selected rows and keeps the column
    the rows are selected by. *)
Lemma find_map_update {A} (sel : A -> bool) (f g : A -> A) l :
  (forall x, sel x = true -> g x = f x) ->
  (forall x, sel x = false -> g x = x) ->
  (forall x, sel (f x) = sel x) ->
  find sel (map g l) = option_map f (find sel l).
Proof.
  intros Hg1 Hg2 Hf. induction l as [|a l IH]; simpl; auto.
  destruct (sel a) eqn:E.
  - rewrite (Hg1 _ E), Hf, E. reflexivity.
  - rewrite (Hg2 _ E), E. exact IH.
Qed.

(** ** The helpers of [src/db.js] on their own *)

Lemma clamp_range n a b :
  (a <= b)%Q -> (a <= clamp n a b)%Q /\ (clamp n a b <= b)%Q.
Proof.
  intros H. destruct n as [q|]; simpl.
  - split; [apply Q.le_max_l|]. apply Q.max_lub; [exact H|apply Q.le_min_l].
  - split; [apply Qle_refl|exact H].
Qed.

(** X1.  [clamp(n, a, b)] with [a <= b] always lies between [a] and [b]:
    it is [a] when [n] is NaN or at most [a], [b] when [n] is at least [b],
    and the number [n] itself when [n] lies in between. *)
Theorem clamp_stays_in_range :
  forall n a b,
    (a <= b)%Q ->
    (a <= clamp n a b)%Q /\ (clamp n a b <= b)%Q /\
    (n = None -> clamp n a b = a) /\
    (forall q, n = Some q -> (q <= a)%Q -> (clamp n a b == a)%Q) /\
    (forall q, n = Some q -> (b <= q)%Q -> (clamp n a b == b)%Q) /\
    (forall q, n = Some q -> (a <= q)%Q -> (q <= b)%Q -> (clamp n a b == q)%Q).
Proof.
  intros n a b H.
  split; [apply (clamp_range n a b H)|]. split; [apply (clamp_range n a b H)|].
  split; [intros ->; reflexivity|]. split; [|split].
  - intros q -> Hq. simpl. apply Q.max_l.
    apply (Qle_trans _ q); [apply Q.le_min_r|exact Hq].
  - intros q -> Hq. simpl. rewrite (Q.min_l b q Hq). now apply Q.max_r.
  - intros q -> Ha Hb. simpl. rewrite (Q.min_r b q Hb). now apply Q.max_r.
Qed.

Lemma Subseq_refl s : Subseq s s.
Proof. induction s; constructor; assumption. Qed.

Lemma Subseq_trans a b c : Subseq a b -> Subseq b c -> Subseq a c.
Proof.
  intros H1 H2. revert a H1.
  induction H2 as [s|ch b c H2 IH|ch b c H2 IH]; intros a H1.
  - inversion H1; subst. constructor.
  - inversion H1; subst.
    + constructor.
    + apply Subseq_keep. now apply IH.
    + apply Subseq_drop. now apply IH.
  - apply Subseq_drop. now apply IH.
Qed.

Lemma Subseq_length a b : Subseq a b -> String.length a <= String.length b.
Proof. induction 1; simpl; lia. Qed.

(** [replace(/tok/gi, "")] only deletes. *)
Lemma removeAll_ci_from_Subseq tok k s : Subseq (Js.removeAll_ci_from tok k s) s.
Proof.
  revert k. induction s as [|c s IH]; intros k; simpl; [constructor|].
  destruct k as [|k]; [|apply Subseq_drop, IH].
  destruct (_ && _); [apply Subseq_drop, IH|apply Subseq_keep, IH].
Qed.

Lemma slice0_Subseq n s : Subseq (Js.slice0 n s) s.
Proof.
  revert n. induction s as [|c s IH]; intros [|n]; simpl; try constructor. apply IH.
Qed.

(** Without a match there is nothing to replace. *)
Lemma removeAll_ci_clean tok s : includes_ci tok s = false -> Js.removeAll_ci tok s = s.
Proof.
  unfold Js.removeAll_ci. induction s as [|c s IH]; simpl; [reflexivity|].
  intros H. apply orb_false_iff in H as [H1 H2].
  rewrite H1, andb_false_r. now rewrite IH.
Qed.

(** X2.  [sanitizeCss] only deletes: its result is the style sheet with
    some code units removed, never longer than 6000 code units nor than the
    input; and a style sheet in which none of [</style], [<script] and
    [@import] occurs (in any letter case) is returned as it is, cut to 6000
    code units. *)
Theorem sanitizeCss_only_deletes :
  forall css,
    Subseq (sanitizeCss css) css /\
    String.length (sanitizeCss css) <= N.to_nat 6000 /\
    String.length (sanitizeCss css) <= String.length css /\
    (includes_ci "</style" css = false ->
     includes_ci "<script" css = false ->
     includes_ci "@import" css = false ->
     sanitizeCss css = Js.slice0 (N.to_nat 6000) css /\
     (String.length css <= N.to_nat 6000 -> sanitizeCss css = css)).
Proof.
  intros css.
  assert (S : Subseq (sanitizeCss css) css).
  { unfold sanitizeCss, Js.removeAll_ci.
    eapply Subseq_trans; [apply slice0_Subseq|].
    eapply Subseq_trans; [apply removeAll_ci_from_Subseq|].
    eapply Subseq_trans; [apply removeAll_ci_from_Subseq|].
    apply removeAll_ci_from_Subseq. }
  split; [exact S|]. split; [|split; [exact (Subseq_length _ _ S)|]].
  - unfold sanitizeCss. rewrite length_slice0. apply Nat.le_min_l.
  - intros H1 H2 H3.
    assert (E : sanitizeCss css = Js.slice0 (N.to_nat 6000) css).
    { unfold sanitizeCss.
      now rewrite (removeAll_ci_clean _ _ H1), (removeAll_ci_clean _ _ H2),
        (removeAll_ci_clean _ _ H3). }
    split; [exact E|]. intros L. rewrite E. now apply slice0_all.
Qed.

(** X3.  The three deletions of [sanitizeCss] are made one after the other,
    each in a single pass over the text, so a token that only comes together
    when another occurrence is deleted stays in the result.  This can happen
    to each of the three tokens: whatever follows, a style sheet that starts
    with [</sty<scriptle], [<scr@importipt] or [@imp@importort] is returned
    starting with [</style], [<script] or [@import]. *)
Theorem sanitizeCss_keeps_reassembled_token :
  forall rest,
    (exists out,
        sanitizeCss ("</sty<scriptle" ++ rest)%string = ("</style" ++ out)%string) /\
    (exists out,
        sanitizeCss ("<scr@importipt" ++ rest)%string = ("<script" ++ out)%string) /\
    (exists out,
        sanitizeCss ("@imp@importort" ++ rest)%string = ("@import" ++ out)%string).
Proof.
  intros rest. unfold sanitizeCss, Js.removeAll_ci.
  change (N.to_nat 6000) with (7 + N.to_nat 5993).
  repeat split; eexists; cbn; reflexivity.
Qed.

Lemma normalizeSlug_fixed_chars s :
  Js.sforall Js.isSlugChar s = true -> String.length s <= 32 -> normalizeSlug s = s.
Proof.
  intros Hc H32. unfold normalizeSlug, Js.trim, Js.toLowerCase.
  rewrite (smap_id_on _ _ _ slugChar_lower Hc).
  rewrite (trimStart_id _ Hc), (trimEnd_id _ Hc), (sfilter_id _ _ Hc).
  now apply slice0_all.
Qed.

(** X4.  [normalizeSlug] yields a canonical form: its result consists of
    at most 32 code units, all in [[a-z0-9_-]]; normalizing a second time
    changes nothing; and the strings it leaves as they are are exactly those
    of that form. *)
Theorem normalizeSlug_is_canonical :
  forall s,
    Js.sforall Js.isSlugChar (normalizeSlug s) = true /\
    String.length (normalizeSlug s) <= 32 /\
    normalizeSlug (normalizeSlug s) = normalizeSlug s /\
    (normalizeSlug s = s <->
     Js.sforall Js.isSlugChar s = true /\ String.length s <= 32).
Proof.
  intros s. split; [apply normalizeSlug_chars|]. split; [apply normalizeSlug_length|].
  split.
  - apply normalizeSlug_fixed_chars; [apply normalizeSlug_chars|apply normalizeSlug_length].
  - split.
    + intros E. rewrite <- E. split; [apply normalizeSlug_chars|apply normalizeSlug_length].
    + intros [Hc Hl]. now apply normalizeSlug_fixed_chars.
Qed.

(** ** [ORDER BY] and [LIMIT] *)

Lemma insert_by_perm {A} (le : A -> A -> bool) x l :
  Permutation (x :: l) (Sql.insert_by le x l).
Proof.
  induction l as [|y l IH]; simpl; [reflexivity|].
  destruct (le x y); [reflexivity|].
  etransitivity; [apply perm_swap|]. now apply perm_skip.
Qed.

Lemma order_by_perm {A} (le : A -> A -> bool) l : Permutation l (Sql.order_by le l).
Proof.
  induction l as [|x l IH]; simpl; [constructor|].
  etransitivity; [apply perm_skip, IH|apply insert_by_perm].
Qed.

Section Sorting.

Context {A : Type} (le : A -> A -> bool).
Hypothesis le_total : forall a b, le a b = false -> le b a = true.
Hypothesis le_trans : forall a b c, le a b = true -> le b c = true -> le a c = true.

Lemma insert_by_sorted x l :
  StronglySorted (fun a b => le a b = true) l ->
  StronglySorted (fun a b => le a b = true) (Sql.insert_by le x l).
Proof.
  induction 1 as [|y l S IH F]; simpl.
  - constructor; constructor.
  - destruct (le x y) eqn:E.
    + constructor; [now constructor|]. constructor; [exact E|].
      eapply Forall_impl; [|exact F]. intros z. now apply le_trans.
    + constructor; [exact IH|].
      eapply Permutation_Forall; [apply insert_by_perm|].
      constructor; [now apply le_total|exact F].
Qed.

Lemma order_by_sorted l : StronglySorted (fun a b => le a b = true) (Sql.order_by le l).
Proof.
  induction l as [|x l IH]; simpl; [constructor|]. now apply insert_by_sorted.
Qed.

End Sorting.

Lemma In_firstn {A} n (l : list A) x : In x (firstn n l) -> In x l.
Proof. intros H. rewrite <- (firstn_skipn n l). apply in_or_app. now left. Qed.

Lemma StronglySorted_impl {A} (R R' : A -> A -> Prop) l :
  (forall a b, R a b -> R' a b) -> StronglySorted R l -> StronglySorted R' l.
Proof.
  intros H. induction 1 as [|a l S IH F]; constructor; [exact IH|].
  eapply Forall_impl; [|exact F]. intros b. apply H.
Qed.

Lemma StronglySorted_firstn {A} (R : A -> A -> Prop) n l :
  StronglySorted R l -> StronglySorted R (firstn n l).
Proof.
  intros S. revert n. induction S as [|a l S IH F]; intros [|n]; simpl; try constructor.
  - apply IH.
  - rewrite Forall_forall in *. intros x Hx. apply F. revert Hx. apply In_firstn.
Qed.

Lemma StronglySorted_map {A B} (R : B -> B -> Prop) (f : A -> B) l :
  StronglySorted (fun a b => R (f a) (f b)) l -> StronglySorted R (map f l).
Proof.
  induction 1 as [|a l S IH F]; simpl; constructor; [exact IH|].
  rewrite Forall_forall in *. intros y Hy. apply in_map_iff in Hy as [x [<- Hx]]. now apply F.
Qed.

(** In a sorted list, what comes first is in relation with what comes
    after. *)
Lemma StronglySorted_app {A} (R : A -> A -> Prop) l1 l2 :
  StronglySorted R (l1 ++ l2) -> forall a b, In a l1 -> In b l2 -> R a b.
Proof.
  induction l1 as [|x l1 IH]; simpl; intros S a b Ha Hb; [contradiction|].
  apply StronglySorted_inv in S as [S F]. destruct Ha as [->|Ha].
  - rewrite Forall_forall in F. apply F, in_or_app. now right.
  - now apply IH.
Qed.

Lemma ltb_lt a b : String.ltb a b = true <-> String_as_OT.lt a b.
Proof.
  unfold String.ltb. rewrite <- String_as_OT.cmp_lt. unfold String_as_OT.cmp.
  destruct (String.compare a b); split; congruence.
Qed.

Lemma ltb_asym a b : String.ltb a b = true -> String.ltb b a = false.
Proof.
  unfold String.ltb. rewrite (String.compare_antisym b a).
  destruct (String.compare a b); simpl; congruence.
Qed.

Lemma not_ltb_trans a b c :
  String.ltb a b = false -> String.ltb b c = false -> String.ltb a c = false.
Proof.
  intros Hab Hbc. destruct (String.ltb a c) eqn:Hac; [|reflexivity].
  destruct (String.compare a b) eqn:C.
  - apply String.compare_eq_iff in C. subst. congruence.
  - unfold String.ltb in Hab. rewrite C in Hab. discriminate.
  - assert (Hba : String.ltb b a = true).
    { unfold String.ltb. rewrite String.compare_antisym, C. reflexivity. }
    apply ltb_lt in Hba, Hac.
    pose proof (String_as_OT.lt_trans _ _ _ Hba Hac) as T.
    apply ltb_lt in T. congruence.
Qed.

(** With a unique column selected by [k], the rows selected are the one
    row that [LIMIT 1] returns. *)
Lemma filter_unique_nat {A} (key : A -> nat) l k p :
  NoDup (map key l) ->
  find (fun y => key y =? k) l = Some p ->
  filter (fun y => key y =? k) l = [p].
Proof.
  induction l as [|a l IH]; simpl; [discriminate|].
  intros Hnd F. inversion Hnd as [|? ? Hnotin Hnd']; subst.
  destruct (Nat.eqb_spec (key a) k) as [E|E].
  - injection F as <-. f_equal.
    destruct (filter _ l) as [|y r] eqn:Fl; [reflexivity|].
    assert (Hy : In y (filter (fun y => key y =? k) l)) by (rewrite Fl; now left).
    apply filter_In in Hy as [Hy Ey]. apply Nat.eqb_eq in Ey.
    exfalso. apply Hnotin. rewrite E, <- Ey. now apply in_map.
  - now apply IH.
Qed.

Section Properties.

Variable nanoid_src : nat -> nat -> string.
Variable clock : nat -> string.
Variable bcrypt_hash : nat -> string -> string.
Variable bcrypt_compare : string -> string -> bool.
Variable toNumber : string -> option Q.

Local Abbreviation handle := (handle nanoid_src clock bcrypt_hash bcrypt_compare toNumber).
Local Abbreviation signup := (signup nanoid_src clock bcrypt_hash).
Local Abbreviation login := (login nanoid_src clock bcrypt_compare).
Local Abbreviation ensurePageForUser := (ensurePageForUser nanoid_src clock).
Local Abbreviation uniqueSlugEnsure := (uniqueSlugEnsure nanoid_src).
Local Abbreviation uniqueSlugEnsure_loop := (uniqueSlugEnsure_loop nanoid_src).
Local Abbreviation savePageForUser := (savePageForUser clock toNumber).
Local Abbreviation savedRow := (savedRow toNumber).
Local Abbreviation afterImpersonate := (afterImpersonate clock).
Local Abbreviation afterReturn := (afterReturn clock).
Local Abbreviation afterClaim := (afterClaim clock bcrypt_hash).
Local Abbreviation withFreshPage := (withFreshPage clock).
Local Abbreviation withSession := (withSession clock).
Local Abbreviation step := (step nanoid_src clock bcrypt_hash bcrypt_compare toNumber).
Local Abbreviation later := (later nanoid_src clock bcrypt_hash bcrypt_compare toNumber).
Local Abbreviation randCandidate := (randCandidate nanoid_src).
Local Abbreviation afterSave := (afterSave clock toNumber).
Local Abbreviation impersonate := (impersonate nanoid_src clock).
Local Abbreviation adminReturn := (adminReturn nanoid_src clock).
Local Abbreviation serve := (Runs.serve nanoid_src clock bcrypt_hash bcrypt_compare toNumber).

(** ** The public profile route *)

Lemma handle_profile fuel c b segment w :
  handle fuel (mkRequest (GetSlug segment) c b) w = profile segment w.
Proof. reflexivity. Qed.

(** C9.  [GET /:slug] looks the page up under the normalized path segment
    (lower-cased, stripped to [[a-z0-9_-]], truncated to 32 code units): a
    request whose segment normalizes to the slug of a stored page renders
    that page, and a request whose segment normalizes to no stored slug is
    answered 404 "Not found".  The store is left as it was.  (This is about
    the requests that reach this route, the last one registered.) *)
Theorem profile_lookup_is_normalized :
  forall fuel c b segment w,
    normalizeSlug segment
      = Js.slice0 32 (Js.sfilter Js.isSlugChar (Js.toLowerCase segment)) /\
    (forall p,
        NoDup (map p_slug (pages w)) ->
        In p (pages w) ->
        normalizeSlug segment = p_slug p ->
        handle fuel (mkRequest (GetSlug segment) c b) w
          = Ok (mkResponse CookieKeep (Render (ProfileView p (p_links_json p)))) w) /\
    ((forall p, In p (pages w) -> p_slug p <> normalizeSlug segment) ->
        handle fuel (mkRequest (GetSlug segment) c b) w
          = Ok (mkResponse CookieKeep (Send 404 "Not found")) w).
Proof.
  intros fuel c b segment w. split; [apply normalizeSlug_no_trim|]. split.
  - intros p Hnd Hin Hs. rewrite handle_profile.
    unfold profile, bind, gets, Sql.page_by_slug. rewrite Hs.
    now rewrite (find_unique p_slug _ _ Hnd Hin).
  - intros Hnone. rewrite handle_profile.
    unfold profile, bind, gets, Sql.page_by_slug.
    destruct (find _ (pages w)) as [p|] eqn:F; [|reflexivity].
    apply find_some in F as [Hin E]. apply String.eqb_eq in E.
    exfalso. exact (Hnone p Hin E).
Qed.

Lemma slice0_nonempty n s : Js.isEmpty s = false -> Js.isEmpty (Js.slice0 (S n) s) = false.
Proof. destruct s; [discriminate|reflexivity]. Qed.

Lemma validateUrl_kept b i :
  validateUrl (field b ("url_" ++ Js.decimal (N.of_nat i))%string)
  = if keptIndex b i then Js.slice0 400 (urlOf b i) else "".
Proof.
  unfold validateUrl, keptIndex. fold (urlOf b i).
  destruct (Js.isEmpty (urlOf b i)); simpl; [reflexivity|].
  destruct (matchHttp (urlOf b i)); reflexivity.
Qed.

Lemma linkAt_spec b i :
  linkAt b i = if keptIndex b i then Some (savedEntry b i) else None.
Proof.
  unfold linkAt. rewrite validateUrl_kept. fold (labelOf b i).
  destruct (keptIndex b i) eqn:K.
  - unfold keptIndex in K. apply andb_true_iff in K as [K1 K2].
    apply negb_true_iff in K1.
    change 400 with (S 399). rewrite (slice0_nonempty 399 _ K1).
    rewrite andb_false_r. reflexivity.
  - simpl. now rewrite andb_true_r, Tauto.if_same.
Qed.

Lemma fold_left_push {A B} (g : A -> option B) l acc :
  fold_left (fun acc i => match g i with Some x => acc ++ [x] | None => acc end) l acc
  = acc ++ flat_map (fun i => match g i with Some x => [x] | None => [] end) l.
Proof.
  revert acc. induction l as [|a l IH]; intros acc; simpl.
  - now rewrite app_nil_r.
  - rewrite IH. destruct (g a); simpl; [now rewrite <- app_assoc|reflexivity].
Qed.

Lemma flat_map_filter_map {A B} (k : A -> bool) (e : A -> B) l :
  flat_map (fun i => match (if k i then Some (e i) else None) with
                     | Some x => [x] | None => [] end) l
  = map e (filter k l).
Proof.
  induction l as [|a l IH]; simpl; auto.
  destruct (k a); simpl; now rewrite IH.
Qed.

(** The loop computes the filter of the specification. *)
Lemma collectLinks_spec b : collectLinks b = keptLinks b.
Proof.
  unfold collectLinks, keptLinks. rewrite fold_left_push, app_nil_l.
  rewrite <- flat_map_filter_map.
  apply flat_map_ext. intros i. now rewrite linkAt_spec.
Qed.

Lemma page_by_user_afterSave uid b slug w page :
  Sql.page_by_user uid w = Some page ->
  Sql.page_by_user uid (afterSave uid b slug w)
  = Some (savedRow b slug (clock (tick w)) page).
Proof.
  intros H. unfold Sql.page_by_user, afterSave. simpl.
  rewrite (find_map_update (fun p => p_user_id p =? uid)
             (savedRow b slug (clock (tick w)))).
  - unfold Sql.page_by_user in H. now rewrite H.
  - intros x E. now rewrite E.
  - intros x E. now rewrite E.
  - reflexivity.
Qed.

(** What [savePageForUser] does, case by case. *)
Lemma savePageForUser_cases uid b w :
  match Sql.page_by_user uid w with
  | None => savePageForUser uid b w = Ok (NotSaved "No page") w
  | Some page =>
      match validateSlug (Js.orElse (field b "slug") (p_slug page)) with
      | None => savePageForUser uid b w = Ok (NotSaved "Slug must be 2-32: a-z 0-9 _ -") w
      | Some slug =>
          savePageForUser uid b w = Ok (NotSaved "That slug is taken") w
          \/ savePageForUser uid b w
             = Throw (Sql.unique_failed "pages.slug") (bump w)
          \/ savePageForUser uid b w = Ok Saved (afterSave uid b slug w)
      end
  end.
Proof.
  unfold savePageForUser, bind, gets.
  destruct (Sql.page_by_user uid w) as [page|]; [|reflexivity].
  destruct (validateSlug _) as [slug|]; [|reflexivity].
  destruct (Sql.page_by_slug slug w) as [o|].
  - destruct (negb (p_user_id o =? uid)); [now left|].
    right. unfold now, Sql.update_page, ret. cbn [pages bump].
    destruct (_ && _); [now left|now right].
  - right. unfold now, Sql.update_page, ret. cbn [pages bump].
    destruct (_ && _); [now left|now right].
Qed.

Lemma savePageForUser_saved uid b w w' :
  savePageForUser uid b w = Ok Saved w' ->
  exists page slug,
    Sql.page_by_user uid w = Some page /\
    validateSlug (Js.orElse (field b "slug") (p_slug page)) = Some slug /\
    w' = afterSave uid b slug w.
Proof.
  intros H. pose proof (savePageForUser_cases uid b w) as C.
  destruct (Sql.page_by_user uid w) as [page|]; [|congruence].
  destruct (validateSlug _) as [slug|] eqn:V; [|congruence].
  exists page, slug. repeat split; auto.
  destruct C as [C|[C|C]]; congruence.
Qed.

Lemma savePageForUser_ok uid b w page slug :
  Sql.page_by_user uid w = Some page ->
  validateSlug (Js.orElse (field b "slug") (p_slug page)) = Some slug ->
  (forall q, In q (pages w) -> p_slug q = slug -> p_user_id q = uid) ->
  savePageForUser uid b w = Ok Saved (afterSave uid b slug w).
Proof.
  intros Hp Hv Hfree. unfold savePageForUser, bind, gets. rewrite Hp, Hv.
  assert (Hex : existsb (fun q => String.eqb (p_slug q) slug && negb (p_user_id q =? uid))
                  (pages w) = false).
  { apply not_true_is_false. intros E. apply existsb_exists in E as [q [Hin E]].
    apply andb_true_iff in E as [E1 E2]. apply String.eqb_eq in E1.
    rewrite (Hfree q Hin E1), Nat.eqb_refl in E2. discriminate. }
  assert (Hown : match Sql.page_by_slug slug w with
                 | Some o => negb (p_user_id o =? uid)
                 | None => false
                 end = false).
  { destruct (Sql.page_by_slug slug w) as [o|] eqn:F; [|reflexivity].
    apply find_some in F as [Hin E]. apply String.eqb_eq in E.
    now rewrite (Hfree o Hin E), Nat.eqb_refl. }
  destruct (Sql.page_by_slug slug w); [rewrite Hown|];
    unfold now, Sql.update_page, ret; cbn [pages bump]; rewrite Hex, andb_false_r;
    reflexivity.
Qed.

(** C7.  Whenever [savePageForUser] saves, the stored link list consists,
    in the order of the indices 0..13, of exactly the entries whose URL
    (trimmed, as every field is) is non-empty and starts with [http://] or
    [https://] in any letter case; a kept entry carries its URL (at most 400
    code units) and its label (at most 32), or "Link" when the label is
    empty; all other entries are dropped, labelled or not.  For the
    submission of the specification's example the stored list is exactly
    [{Blog, https://b.example}; {Link, https://c.example}]. *)
Theorem saved_links_are_the_http_entries :
  forall uid b w w',
    savePageForUser uid b w = Ok Saved w' ->
    exists page',
      Sql.page_by_user uid w' = Some page' /\
      p_links_json page' = map (savedEntry b) (filter (keptIndex b) (seq 0 14)) /\
      (b = exampleLinksBody ->
       p_links_json page'
       = [mkLink "Blog" "https://b.example"; mkLink "Link" "https://c.example"]).
Proof.
  intros uid b w w' H.
  apply savePageForUser_saved in H as (page & slug & Hp & _ & ->).
  eexists. split; [apply (page_by_user_afterSave _ _ _ _ _ Hp)|].
  cbn [p_links_json Server.savedRow]. split.
  - apply collectLinks_spec.
  - intros ->. reflexivity.
Qed.

(** ** Slug validation *)

Lemma unique_column {A} (key : A -> string) l x y :
  NoDup (map key l) -> In x l -> In y l -> key x = key y -> x = y.
Proof.
  induction l as [|a l IH]; simpl; [tauto|].
  intros Hnd Hx Hy E. inversion Hnd as [|? ? Hnotin Hnd']; subst.
  destruct Hx as [->|Hx], Hy as [->|Hy]; auto.
  - exfalso. apply Hnotin. rewrite E. now apply in_map.
  - exfalso. apply Hnotin. rewrite <- E. now apply in_map.
Qed.

Lemma unique_column_nat {A} (key : A -> nat) l x y :
  NoDup (map key l) -> In x l -> In y l -> key x = key y -> x = y.
Proof.
  induction l as [|a l IH]; simpl; [tauto|].
  intros Hnd Hx Hy E. inversion Hnd as [|? ? Hnotin Hnd']; subst.
  destruct Hx as [->|Hx], Hy as [->|Hy]; auto.
  - exfalso. apply Hnotin. rewrite E. now apply in_map.
  - exfalso. apply Hnotin. rewrite <- E. now apply in_map.
Qed.

(** C10.  [savePageForUser] normalizes the submitted slug before matching
    it: with [s] the submitted slug (or the current one when the field is
    empty) lower-cased, stripped to [[a-z0-9_-]] and truncated to 32, the
    edit fails with the slug-format error exactly when [s] is shorter than
    2; otherwise, unless another user's page already has [s], the page is
    saved under [s]; and with an empty field the page keeps its current
    (well-formed) slug. *)
Theorem slug_is_normalized_before_matching :
  forall uid b w page,
    Sql.page_by_user uid w = Some page ->
    let s := normalizeSlug (Js.orElse (field b "slug") (p_slug page)) in
    s = Js.slice0 32 (Js.sfilter Js.isSlugChar
          (Js.toLowerCase (Js.orElse (field b "slug") (p_slug page)))) /\
    (savePageForUser uid b w = Ok (NotSaved "Slug must be 2-32: a-z 0-9 _ -") w
     <-> String.length s < 2) /\
    (2 <= String.length s ->
     (forall q, In q (pages w) -> p_slug q = s -> p_user_id q = uid) ->
     exists w' page',
       savePageForUser uid b w = Ok Saved w' /\
       Sql.page_by_user uid w' = Some page' /\ p_slug page' = s) /\
    (field b "slug" = "" ->
     matchSlug (p_slug page) = true ->
     NoDup (map p_slug (pages w)) ->
     exists w' page',
       savePageForUser uid b w = Ok Saved w' /\
       Sql.page_by_user uid w' = Some page' /\ p_slug page' = p_slug page).
Proof.
  intros uid b w page Hp s.
  assert (Hsave : 2 <= String.length s ->
     (forall q, In q (pages w) -> p_slug q = s -> p_user_id q = uid) ->
     exists w' page',
       savePageForUser uid b w = Ok Saved w' /\
       Sql.page_by_user uid w' = Some page' /\ p_slug page' = s).
  { intros Hlen Hfree.
    assert (Hv : validateSlug (Js.orElse (field b "slug") (p_slug page)) = Some s).
    { rewrite validateSlug_spec. fold s. apply Nat.leb_le in Hlen. now rewrite Hlen. }
    eexists. eexists. split; [apply (savePageForUser_ok _ _ _ _ _ Hp Hv Hfree)|].
    split; [apply (page_by_user_afterSave _ _ _ _ _ Hp)|reflexivity]. }
  split; [apply normalizeSlug_no_trim|]. split; [|split; [exact Hsave|]].
  - pose proof (savePageForUser_cases uid b w) as C. rewrite Hp in C.
    rewrite validateSlug_spec in C. fold s in C.
    destruct (2 <=? String.length s) eqn:L.
    + apply Nat.leb_le in L. split; [|lia].
      intros E. destruct C as [C|[C|C]]; rewrite C in E; discriminate.
    + apply Nat.leb_gt in L. tauto.
  - intros Hempty Hwf Hnd.
    assert (Es : s = p_slug page).
    { unfold s. rewrite Hempty. simpl. now apply normalizeSlug_fixed. }
    rewrite <- Es. apply Hsave.
    + rewrite Es. unfold matchSlug in Hwf.
      apply andb_true_iff in Hwf as [Hwf _]. apply andb_true_iff in Hwf as [_ Hwf].
      now apply Nat.leb_le.
    + intros q Hq Eq. apply find_some in Hp as [Hin Hu].
      rewrite Es in Eq. rewrite (unique_column p_slug _ _ _ Hnd Hq Hin Eq).
      now apply Nat.eqb_eq.
Qed.

(** ** The slug loop *)

Lemma advance_bump n w : advance n (bump w) = advance (S n) w.
Proof. unfold advance. now rewrite <- Nat.iter_succ_r. Qed.

Lemma advance_frame n w :
  users (advance n w) = users w /\ pages (advance n w) = pages w /\
  invite_keys (advance n w) = invite_keys w /\ sessions (advance n w) = sessions w /\
  impersonations (advance n w) = impersonations w /\ tick (advance n w) = n + tick w.
Proof.
  induction n as [|n IH]; simpl; [tauto|].
  destruct IH as (?&?&?&?&?&?). repeat split; simpl; congruence.
Qed.

Lemma slugTaken_advance n w slug : slugTaken (advance n w) slug = slugTaken w slug.
Proof.
  unfold slugTaken, Sql.page_by_slug.
  destruct (advance_frame n w) as (_ & -> & _). reflexivity.
Qed.

Lemma slugTaken_bump w slug : slugTaken (bump w) slug = slugTaken w slug.
Proof. reflexivity. Qed.

Lemma loop_free fuel base slug i w :
  slugTaken w slug = false -> uniqueSlugEnsure_loop fuel base slug i w = Ok slug w.
Proof.
  unfold slugTaken. destruct fuel; simpl; destruct (Sql.page_by_slug slug w);
    intros; congruence.
Qed.

Lemma loop_out_of_fuel base slug i w :
  slugTaken w slug = true -> uniqueSlugEnsure_loop 0 base slug i w = Diverge.
Proof.
  unfold slugTaken. simpl. destruct (Sql.page_by_slug slug w); intros; congruence.
Qed.

Lemma loop_step_seq fuel base slug i w :
  slugTaken w slug = true -> (i + 1 <= 9999)%N ->
  uniqueSlugEnsure_loop (S fuel) base slug i w
  = uniqueSlugEnsure_loop fuel base (base ++ Js.decimal i)%string (i + 1)%N w.
Proof.
  unfold slugTaken. intros T Hi. simpl.
  destruct (Sql.page_by_slug slug w); [|discriminate].
  apply N.ltb_ge in Hi. now rewrite Hi.
Qed.

Lemma loop_step_rand fuel base slug i w :
  slugTaken w slug = true -> (9999 < i + 1)%N ->
  uniqueSlugEnsure_loop (S fuel) base slug i w
  = uniqueSlugEnsure_loop fuel base (randCandidate base (tick w)) (i + 1)%N (bump w).
Proof.
  unfold slugTaken. intros T Hi. simpl.
  destruct (Sql.page_by_slug slug w); [|discriminate].
  apply N.ltb_lt in Hi. now rewrite Hi.
Qed.

Lemma seqCandidate_succ base k :
  (1 <= k)%N -> (base ++ Js.decimal (k + 1))%string = seqCandidate base (k + 1).
Proof.
  intros H. unfold seqCandidate.
  destruct (N.eqb_spec (k + 1) 1); [lia|reflexivity].
Qed.

(** Sequential phase: the first free candidate among the first 9998 is
    returned, and nothing is drawn. *)
Lemma loop_sequential base w n :
  forall k fuel,
    (1 <= k)%N -> (k + N.of_nat n <= 9998)%N ->
    (forall j, (k <= j < k + N.of_nat n)%N -> slugTaken w (seqCandidate base j) = true) ->
    slugTaken w (seqCandidate base (k + N.of_nat n)) = false ->
    n <= fuel ->
    uniqueSlugEnsure_loop fuel base (seqCandidate base k) (k + 1)%N w
    = Ok (seqCandidate base (k + N.of_nat n)) w.
Proof.
  induction n as [|n IH]; intros k fuel Hk Hn Htaken Hfree Hfuel.
  - rewrite N.add_0_r in Hfree |- *. now apply loop_free.
  - destruct fuel as [|fuel]; [lia|].
    rewrite loop_step_seq; [|apply Htaken; lia|lia].
    rewrite (seqCandidate_succ _ _ Hk).
    replace (k + N.of_nat (S n))%N with (k + 1 + N.of_nat n)%N in * by lia.
    apply IH; auto; try lia.
    intros j Hj. apply Htaken. lia.
Qed.

(** When the first 9998 sequential candidates are all taken, the loop
    makes its first draw after 9998 look-ups. *)
Lemma loop_sequential_exhausted base w n :
  forall k fuel,
    (1 <= k)%N -> (k + N.of_nat n = 9998)%N ->
    (forall j, (k <= j <= 9998)%N -> slugTaken w (seqCandidate base j) = true) ->
    uniqueSlugEnsure_loop (n + S fuel) base (seqCandidate base k) (k + 1)%N w
    = uniqueSlugEnsure_loop fuel base (randCandidate base (tick w)) (k + N.of_nat n + 2)%N
        (bump w).
Proof.
  induction n as [|n IH]; intros k fuel Hk Hn Htaken.
  - cbn [Nat.add]. rewrite loop_step_rand; [|apply Htaken; lia|lia].
    f_equal. lia.
  - cbn [Nat.add]. rewrite loop_step_seq; [|apply Htaken; lia|lia].
    rewrite (seqCandidate_succ _ _ Hk).
    rewrite IH; [|lia|lia|intros j Hj; apply Htaken; lia].
    f_equal. lia.
Qed.

(** Random phase: the first draw that gives a free slug is returned. *)
Lemma loop_random base n :
  forall w t i fuel,
    tick w = S t -> (9999 <= i)%N ->
    (forall j, j < n -> slugTaken w (randCandidate base (t + j)) = true) ->
    slugTaken w (randCandidate base (t + n)) = false ->
    n <= fuel ->
    uniqueSlugEnsure_loop fuel base (randCandidate base t) i w
    = Ok (randCandidate base (t + n)) (advance n w).
Proof.
  induction n as [|n IH]; intros w t i fuel Ht Hi Htaken Hfree Hfuel.
  - rewrite Nat.add_0_r in Hfree |- *. now apply loop_free.
  - destruct fuel as [|fuel]; [lia|].
    rewrite loop_step_rand; [|rewrite <- (Nat.add_0_r t); apply Htaken; lia|lia].
    rewrite Ht. replace (t + S n) with (S t + n) in * by lia.
    rewrite <- advance_bump. apply IH; auto; try lia.
    + simpl. now rewrite Ht.
    + intros j Hj. rewrite slugTaken_bump.
      replace (S t + j) with (t + S j) by lia. apply Htaken. lia.
Qed.

(** Random phase with a source that never gives a free slug: the loop is
    still running whatever the fuel. *)
Lemma loop_random_diverges base :
  forall fuel w t i,
    tick w = S t -> (9999 <= i)%N ->
    (forall j, slugTaken w (randCandidate base (t + j)) = true) ->
    uniqueSlugEnsure_loop fuel base (randCandidate base t) i w = Diverge.
Proof.
  induction fuel as [|fuel IH]; intros w t i Ht Hi Htaken.
  - apply loop_out_of_fuel. rewrite <- (Nat.add_0_r t). apply Htaken.
  - rewrite loop_step_rand; [|rewrite <- (Nat.add_0_r t); apply Htaken|lia].
    rewrite Ht. apply IH; [simpl; now rewrite Ht|lia|].
    intros j. rewrite slugTaken_bump.
    replace (S t + j) with (t + S j) by lia. apply Htaken.
Qed.

(** Whatever the loop returns is free, and the loop only consumes draws:
    it never throws and never writes. *)
Lemma loop_result base :
  forall fuel slug i w,
    match uniqueSlugEnsure_loop fuel base slug i w with
    | Ok s w' => slugTaken w s = false /\ exists n, w' = advance n w
    | Throw _ _ => False
    | Diverge => True
    end.
Proof.
  induction fuel as [|fuel IH]; intros slug i w.
  - simpl. destruct (Sql.page_by_slug slug w) eqn:F; [exact I|].
    split; [unfold slugTaken; now rewrite F|now exists 0].
  - destruct (slugTaken w slug) eqn:T.
    + destruct (N.ltb_spec 9999 (i + 1)) as [Hi|Hi].
      * rewrite loop_step_rand by assumption.
        specialize (IH (randCandidate base (tick w)) (i + 1)%N (bump w)).
        destruct (uniqueSlugEnsure_loop fuel _ _ _ _); auto.
        destruct IH as [Hf [n ->]]. split; [exact Hf|].
        exists (S n). apply advance_bump.
      * rewrite loop_step_seq by assumption. apply IH.
    + rewrite loop_free by assumption. split; [exact T|now exists 0].
Qed.

Lemma loop_more_fuel base :
  forall fuel slug i w s w',
    uniqueSlugEnsure_loop fuel base slug i w = Ok s w' ->
    uniqueSlugEnsure_loop (S fuel) base slug i w = Ok s w'.
Proof.
  induction fuel as [|fuel IH]; intros slug i w s w' H.
  - destruct (slugTaken w slug) eqn:T.
    + rewrite loop_out_of_fuel in H by assumption. discriminate.
    + rewrite loop_free in * by assumption. exact H.
  - destruct (slugTaken w slug) eqn:T.
    + destruct (N.ltb_spec 9999 (i + 1)) as [Hi|Hi].
      * rewrite loop_step_rand in * by assumption. now apply IH.
      * rewrite loop_step_seq in * by assumption. now apply IH.
    + rewrite loop_free in * by assumption. exact H.
Qed.

Lemma loop_any_more_fuel base m :
  forall fuel slug i w s w',
    uniqueSlugEnsure_loop fuel base slug i w = Ok s w' ->
    uniqueSlugEnsure_loop (m + fuel) base slug i w = Ok s w'.
Proof.
  induction m as [|m IH]; intros fuel slug i w s w' H; [exact H|].
  cbn [Nat.add]. apply loop_more_fuel. now apply IH.
Qed.

Lemma slugTaken_in w slug :
  In slug (map p_slug (pages w)) -> slugTaken w slug = true.
Proof.
  intros H. apply in_map_iff in H as [p [E Hin]].
  unfold slugTaken, Sql.page_by_slug.
  destruct (find_exists (fun q => String.eqb (p_slug q) slug) _ p Hin) as [y ->];
    [now apply String.eqb_eq|reflexivity].
Qed.

Lemma uniqueSlugEnsure_returns_free fuel username w slug w' :
  uniqueSlugEnsure fuel username w = Ok slug w' ->
  slugTaken w' slug = false /\ pages w' = pages w.
Proof.
  intros H. unfold Server.uniqueSlugEnsure in H.
  pose proof (loop_result (uniqueSlug username) fuel (uniqueSlug username) 2%N w) as R.
  rewrite H in R. destruct R as [Hf [n ->]]. rewrite slugTaken_advance.
  split; [exact Hf|apply advance_frame].
Qed.

(** *** The sequential phase suffices while the table is small *)

Lemma to_uint_nonnil n : N.to_uint n <> Decimal.Nil.
Proof.
  intros E. pose proof (DecimalN.Unsigned.of_to n) as H. rewrite E in H.
  cbn in H. subst n. discriminate E.
Qed.

Lemma decimal_parse n :
  NilZero.uint_of_string (Js.decimal n) = Some (N.to_uint n).
Proof. unfold Js.decimal. apply NilZero.usu, to_uint_nonnil. Qed.

Lemma decimal_inj a b : Js.decimal a = Js.decimal b -> a = b.
Proof.
  intros E. apply DecimalN.Unsigned.to_uint_inj.
  pose proof (decimal_parse a) as Ha. rewrite E, decimal_parse in Ha. congruence.
Qed.

Lemma decimal_nonempty n : Js.decimal n <> "".
Proof.
  intros E. pose proof (decimal_parse n) as H. rewrite E in H. discriminate H.
Qed.

Lemma append_inj_r (a b c : string) : (a ++ b = a ++ c)%string -> b = c.
Proof. induction a as [|x a IH]; simpl; [auto|]. intros [= E]. auto. Qed.

Lemma append_self_r (a b : string) : (a ++ b)%string = a -> b = "".
Proof. induction a as [|x a IH]; simpl; [auto|]. intros [= E]. auto. Qed.

Lemma seqCandidate_inj base j k :
  seqCandidate base j = seqCandidate base k -> j = k.
Proof.
  unfold seqCandidate.
  destruct (N.eqb_spec j 1) as [->|Hj], (N.eqb_spec k 1) as [->|Hk]; auto; intros E.
  - symmetry in E. apply append_self_r in E. now apply decimal_nonempty in E.
  - apply append_self_r in E. now apply decimal_nonempty in E.
  - now apply append_inj_r, decimal_inj in E.
Qed.

Lemma slugTaken_true_in w slug :
  slugTaken w slug = true -> In slug (map p_slug (pages w)).
Proof.
  unfold slugTaken, Sql.page_by_slug.
  destruct (find _ (pages w)) as [p|] eqn:F; [intros _|discriminate].
  apply find_some in F as [Hin E]. apply String.eqb_eq in E. subst slug.
  now apply in_map.
Qed.

(** Either the first [m] values of [f] are all [true], or there is a
    least index below [m] at which [f] is [false]. *)
Lemma least_false (f : nat -> bool) m :
  (forall j, j < m -> f j = true) \/
  (exists k, k < m /\ f k = false /\ forall j, j < k -> f j = true).
Proof.
  induction m as [|m [IH|(k & Hk & Hf & Hl)]].
  - left. intros j Hj. lia.
  - destruct (f m) eqn:E.
    + left. intros j Hj. destruct (Nat.eq_dec j m) as [->|]; [exact E|apply IH; lia].
    + right. exists m. repeat split; auto.
  - right. exists k. repeat split; auto.
Qed.

Lemma NoDup_map_inj {A B} (f : A -> B) l :
  (forall a b, f a = f b -> a = b) -> NoDup l -> NoDup (map f l).
Proof.
  intros Hf. induction 1 as [|x l Hx Hnd IH]; simpl; constructor; auto.
  intros Hin. apply in_map_iff in Hin as [y [E Hy]]. apply Hf in E. now subst.
Qed.

(** Pigeonhole: a table of [n] pages cannot hold [n + 1] distinct
    candidates, so one of the first [n + 1] sequential candidates is
    free. *)
Lemma first_free_candidate base w :
  exists k,
    k <= length (pages w) /\
    slugTaken w (seqCandidate base (N.of_nat (S k))) = false /\
    forall j, j < k -> slugTaken w (seqCandidate base (N.of_nat (S j))) = true.
Proof.
  set (n := length (pages w)).
  destruct (least_false (fun j => slugTaken w (seqCandidate base (N.of_nat (S j)))) (S n))
    as [All|(k & Hk & Hf & Hl)].
  - exfalso.
    set (L := map (fun j => seqCandidate base (N.of_nat (S j))) (seq 0 (S n))).
    assert (Hnd : NoDup L).
    { apply NoDup_map_inj; [|apply seq_NoDup].
      intros a b E. apply seqCandidate_inj in E. lia. }
    assert (Hincl : incl L (map p_slug (pages w))).
    { intros s Hs. apply in_map_iff in Hs as [j [<- Hj]]. apply in_seq in Hj.
      apply slugTaken_true_in, All. lia. }
    pose proof (NoDup_incl_length Hnd Hincl) as Hlen.
    unfold L in Hlen. rewrite !length_map, length_seq in Hlen. fold n in Hlen. lia.
  - exists k. repeat split; auto. lia.
Qed.

(** With fewer than 9998 pages the loop returns within as many look-ups
    as there are pages, and draws nothing. *)
Lemma uniqueSlugEnsure_total fuel username w :
  length (pages w) < N.to_nat 9998 ->
  length (pages w) <= fuel ->
  exists slug, uniqueSlugEnsure fuel username w = Ok slug w.
Proof.
  intros Hsmall Hfuel.
  destruct (first_free_candidate (uniqueSlug username) w) as (k & Hk & Hf & Hl).
  exists (seqCandidate (uniqueSlug username) (N.of_nat (S k))).
  unfold Server.uniqueSlugEnsure.
  change (uniqueSlug username) with (seqCandidate (uniqueSlug username) 1) at 2.
  change 2%N with (1 + 1)%N.
  replace (N.of_nat (S k)) with (1 + N.of_nat k)%N in Hf |- * by lia.
  apply loop_sequential; auto; try lia.
  intros j Hj.
  replace j with (N.of_nat (S (N.to_nat j - 1))) by lia. apply Hl. lia.
Qed.

(** C6 (as amended).  Slug resolution starts from the normalized username
    ("user" when that is empty).  It looks candidates up in the order
    [base], [base2], [base3], ... and returns the first one that is free,
    without drawing anything, as long as that happens among the first 9998;
    it does so whenever the table holds fewer than 9998 pages.  When the
    sequential candidates up to suffix 9999 are all taken, the candidates
    are [base-r] for successive draws [r] of the random source
    (lower-cased), and the first free one is returned.  Whatever is
    returned is absent from the pages table, which the loop does not
    touch.  Termination of the random phase is conditional on a draw that
    gives a free slug. *)
Theorem uniqueSlugEnsure_resolution :
  forall username w,
    let base := uniqueSlug username in
    base = Js.orElse (normalizeSlug username) "user" /\
    (forall k fuel,
        (1 <= k <= 9998)%N ->
        (forall j, (1 <= j < k)%N -> slugTaken w (seqCandidate base j) = true) ->
        slugTaken w (seqCandidate base k) = false ->
        N.to_nat k - 1 <= fuel ->
        uniqueSlugEnsure fuel username w = Ok (seqCandidate base k) w) /\
    (forall fuel,
        length (pages w) < N.to_nat 9998 ->
        length (pages w) <= fuel ->
        exists slug, uniqueSlugEnsure fuel username w = Ok slug w) /\
    (forall n fuel,
        (forall j, (1 <= j <= 9999)%N -> slugTaken w (seqCandidate base j) = true) ->
        (forall m, m < n -> slugTaken w (randCandidate base (tick w + m)) = true) ->
        slugTaken w (randCandidate base (tick w + n)) = false ->
        N.to_nat 9998 + n <= fuel ->
        uniqueSlugEnsure fuel username w
        = Ok (randCandidate base (tick w + n)) (advance (S n) w)) /\
    (forall fuel slug w',
        uniqueSlugEnsure fuel username w = Ok slug w' ->
        slugTaken w' slug = false /\ pages w' = pages w).
Proof.
  intros username w base. split; [reflexivity|]. split; [|split; [|split]].
  - intros k fuel Hk Htaken Hfree Hfuel.
    unfold Server.uniqueSlugEnsure. fold base.
    change base with (seqCandidate base 1) at 2. change 2%N with (1 + 1)%N.
    replace k with (1 + N.of_nat (N.to_nat k - 1))%N in Hfree |- * by lia.
    apply loop_sequential; auto; try lia.
    intros j Hj. apply Htaken. lia.
  - intros fuel Hsmall Hfuel. now apply uniqueSlugEnsure_total.
  - intros n fuel Hseq Hrand Hfree Hfuel.
    unfold Server.uniqueSlugEnsure. fold base.
    change base with (seqCandidate base 1) at 2. change 2%N with (1 + 1)%N.
    replace fuel with (N.to_nat 9997 + S (fuel - N.to_nat 9998)) by lia.
    rewrite loop_sequential_exhausted; [|lia|lia|intros j Hj; apply Hseq; lia].
    rewrite <- advance_bump. apply loop_random; auto; try lia.
  - intros fuel slug w' H. now apply (uniqueSlugEnsure_returns_free fuel username w).
Qed.

(** The suffix 9999 is assigned but never looked up: with the first 9998
    candidates taken, the loop goes on to a random candidate whether or not
    [base9999] is free. *)
Lemma suffix_9999_is_skipped username w fuel :
  let base := uniqueSlug username in
  (forall j, (1 <= j <= 9998)%N -> slugTaken w (seqCandidate base j) = true) ->
  slugTaken w (randCandidate base (tick w)) = false ->
  N.to_nat 9998 <= fuel ->
  uniqueSlugEnsure fuel username w = Ok (randCandidate base (tick w)) (bump w).
Proof.
  intros base Hseq Hfree Hfuel.
  unfold uniqueSlugEnsure. fold base.
  change base with (seqCandidate base 1) at 2. change 2%N with (1 + 1)%N.
  replace fuel with (N.to_nat 9997 + S (fuel - N.to_nat 9998)) by lia.
  rewrite loop_sequential_exhausted; [|lia|lia|intros j Hj; apply Hseq; lia].
  now apply loop_free.
Qed.

(** When every candidate the loop can reach is taken, the sequential ones
    and whatever the random source draws, the loop is still running
    whatever the fuel. *)
Lemma uniqueSlugEnsure_stuck fuel username w :
  (forall j, (1 <= j <= 9999)%N ->
             slugTaken w (seqCandidate (uniqueSlug username) j) = true) ->
  (forall t, slugTaken w (randCandidate (uniqueSlug username) t) = true) ->
  uniqueSlugEnsure fuel username w = Diverge.
Proof.
  intros Hseq Hrand.
  pose proof (loop_result (uniqueSlug username) fuel (uniqueSlug username) 2%N w) as R.
  unfold Server.uniqueSlugEnsure.
  destruct (uniqueSlugEnsure_loop fuel _ _ _ w) as [slug w'| |] eqn:H;
    [exfalso|contradiction|reflexivity].
  apply (loop_any_more_fuel (uniqueSlug username) (N.to_nat 9998)) in H.
  replace (N.to_nat 9998 + fuel) with (N.to_nat 9997 + S fuel) in H by lia.
  change (uniqueSlug username) with (seqCandidate (uniqueSlug username) 1) in H at 2.
  change 2%N with (1 + 1)%N in H.
  rewrite loop_sequential_exhausted in H;
    [|lia|lia|intros j Hj; apply Hseq; lia].
  rewrite loop_random_diverges in H; [discriminate|reflexivity|lia|].
  intros j. rewrite slugTaken_bump. apply Hrand.
Qed.

(** ** [ensurePageForUser] *)

(** What [ensurePageForUser] does: nothing when the user has a page;
    otherwise one row is appended under the slug the loop resolved.  The
    [INSERT] cannot fail on the key or on the slug; it fails on the foreign
    key when [users] has no row with the id. *)
Lemma ensurePageForUser_cases fuel uid username w :
  ensurePageForUser fuel uid username w =
  match Sql.page_by_user uid w with
  | Some _ => Ok tt w
  | None =>
      match uniqueSlugEnsure fuel username w with
      | Ok slug w1 =>
          if hasUser uid w then Ok tt (withFreshPage uid slug username w1)
          else Throw Sql.foreign_key_failed (bump w1)
      | Throw msg w1 => Throw msg w1
      | Diverge => Diverge
      end
  end.
Proof.
  unfold Server.ensurePageForUser, bind, gets.
  destruct (Sql.page_by_user uid w) eqn:P; [reflexivity|].
  unfold Server.uniqueSlugEnsure.
  pose proof (loop_result (uniqueSlug username) fuel (uniqueSlug username) 2%N w) as R.
  destruct (uniqueSlugEnsure_loop fuel _ _ _ w) as [slug w1| |]; auto.
  destruct R as [Hfree [n ->]].
  unfold now, Sql.insert_page, hasUser.
  cbn [pages users bump p_user_id p_slug freshPage].
  destruct (advance_frame n w) as (-> & -> & _).
  unfold Sql.page_by_user in P. apply find_none_existsb in P. rewrite P.
  unfold slugTaken, Sql.page_by_slug in Hfree.
  destruct (find _ (pages w)) eqn:F; [discriminate|].
  apply find_none_existsb in F. rewrite F.
  now destruct (existsb _ (users w)).
Qed.

(** For a user of the table the [INSERT] cannot fail. *)
Lemma ensurePageForUser_cases_user fuel uid username w :
  hasUser uid w = true ->
  ensurePageForUser fuel uid username w =
  match Sql.page_by_user uid w with
  | Some _ => Ok tt w
  | None =>
      match uniqueSlugEnsure fuel username w with
      | Ok slug w1 => Ok tt (withFreshPage uid slug username w1)
      | Throw msg w1 => Throw msg w1
      | Diverge => Diverge
      end
  end.
Proof. intros H. now rewrite ensurePageForUser_cases, H. Qed.

(** A user without a page, in a table where the loop finds no free slug:
    the call never returns. *)
Lemma ensurePageForUser_stuck fuel uid username w :
  Sql.page_by_user uid w = None ->
  (forall j, (1 <= j <= 9999)%N ->
             slugTaken w (seqCandidate (uniqueSlug username) j) = true) ->
  (forall t, slugTaken w (randCandidate (uniqueSlug username) t) = true) ->
  ensurePageForUser fuel uid username w = Diverge.
Proof.
  intros Hp Hseq Hrand.
  rewrite ensurePageForUser_cases, Hp.
  now rewrite (uniqueSlugEnsure_stuck fuel username w Hseq Hrand).
Qed.

(** For an id that no user has, the [INSERT] is refused on the foreign
    key and no page is written. *)
Lemma ensurePageForUser_without_user fuel uid username w :
  hasUser uid w = false ->
  match ensurePageForUser fuel uid username w with
  | Ok _ _ => Sql.page_by_user uid w <> None
  | Throw msg w' => msg = Sql.foreign_key_failed /\ pages w' = pages w
  | Diverge => True
  end.
Proof.
  intros Hu. rewrite ensurePageForUser_cases, Hu.
  destruct (Sql.page_by_user uid w); [discriminate|].
  pose proof (uniqueSlugEnsure_returns_free fuel username w) as F.
  destruct (uniqueSlugEnsure fuel username w) as [slug w1|msg w1|] eqn:U; auto.
  - split; [reflexivity|]. exact (proj2 (F slug w1 eq_refl)).
  - pose proof (loop_result (uniqueSlug username) fuel (uniqueSlug username) 2%N w) as R.
    unfold Server.uniqueSlugEnsure in U. now rewrite U in R.
Qed.

Lemma count_unique_nat {A} (key : A -> nat) l x :
  NoDup (map key l) -> In x l ->
  length (filter (fun y => key y =? key x) l) = 1.
Proof.
  induction l as [|a l IH]; simpl; [tauto|].
  intros Hnd Hin. inversion Hnd as [|? ? Hnotin Hnd']; subst.
  destruct Hin as [->|Hin].
  - rewrite Nat.eqb_refl. simpl. f_equal.
    rewrite (proj2 (length_zero_iff_nil _)); [reflexivity|].
    destruct (filter _ l) as [|y r] eqn:F; [reflexivity|].
    assert (Hy : In y (filter (fun y => key y =? key x) l)) by (rewrite F; now left).
    apply filter_In in Hy as [Hy E]. apply Nat.eqb_eq in E.
    exfalso. apply Hnotin. rewrite <- E. now apply in_map.
  - destruct (Nat.eqb_spec (key a) (key x)) as [E|_]; [|auto].
    exfalso. apply Hnotin. rewrite E. now apply in_map.
Qed.

Lemma filter_find_none {A} (f : A -> bool) l : find f l = None -> filter f l = [].
Proof.
  induction l as [|a l IH]; simpl; auto.
  destruct (f a); [discriminate|auto].
Qed.

(** C5.  [ensurePageForUser] is idempotent: once a first call has
    returned, the user has exactly one row in [pages] (the table's primary
    key is [user_id]), and a second call returns without changing the
    store at all, whatever its fuel.  The first call does return, for the
    id of a user, when the table holds fewer than 9998 pages. *)
Theorem ensurePageForUser_idempotent :
  forall fuel fuel' uid username w,
    NoDup (map p_user_id (pages w)) ->
    (hasUser uid w = true ->
     length (pages w) < N.to_nat 9998 -> length (pages w) <= fuel ->
     exists w1, ensurePageForUser fuel uid username w = Ok tt w1) /\
    (forall w1,
        ensurePageForUser fuel uid username w = Ok tt w1 ->
        ensurePageForUser fuel' uid username w1 = Ok tt w1 /\
        length (filter (fun p => p_user_id p =? uid) (pages w1)) = 1 /\
        NoDup (map p_user_id (pages w1))).
Proof.
  intros fuel fuel' uid username w Hnd. split.
  { intros Hu Hsmall Hfuel. rewrite (ensurePageForUser_cases_user _ _ _ _ Hu).
    destruct (Sql.page_by_user uid w); [now eexists|].
    destruct (uniqueSlugEnsure_total fuel username w Hsmall Hfuel) as [slug ->].
    now eexists. }
  intros w1 H.
  rewrite ensurePageForUser_cases in H.
  destruct (Sql.page_by_user uid w) as [p|] eqn:P.
  - injection H as <-. rewrite ensurePageForUser_cases, P.
    split; [reflexivity|]. split; [|exact Hnd].
    apply find_some in P as [Hin E]. apply Nat.eqb_eq in E. subst uid.
    now apply count_unique_nat.
  - destruct (uniqueSlugEnsure fuel username w) as [slug w2| |] eqn:U; try discriminate.
    destruct (hasUser uid w); [|discriminate].
    destruct (uniqueSlugEnsure_returns_free _ _ _ _ _ U) as [_ Hpages].
    injection H as <-. rewrite ensurePageForUser_cases.
    unfold Sql.page_by_user in *. unfold Server.withFreshPage.
    cbn [pages set_pages bump]. rewrite Hpages.
    rewrite (find_app_none _ _ _ P). cbn. rewrite Nat.eqb_refl.
    split; [reflexivity|]. split.
    + rewrite filter_app, (filter_find_none _ _ P). cbn. now rewrite Nat.eqb_refl.
    + rewrite map_app. cbn. apply NoDup_app; [exact Hnd|repeat constructor; auto|].
      intros a Ha [<-|[]]. apply in_map_iff in Ha as [q [E Hq]].
      apply (find_none _ _ P) in Hq. cbn in Hq. rewrite E, Nat.eqb_refl in Hq. discriminate.
Qed.

Lemma ensurePageForUser_frame fuel uid username w w1 :
  ensurePageForUser fuel uid username w = Ok tt w1 ->
  users w1 = users w /\ invite_keys w1 = invite_keys w /\
  sessions w1 = sessions w /\ impersonations w1 = impersonations w.
Proof.
  rewrite ensurePageForUser_cases.
  destruct (Sql.page_by_user uid w); [intros [= <-]; tauto|].
  unfold Server.uniqueSlugEnsure.
  pose proof (loop_result (uniqueSlug username) fuel (uniqueSlug username) 2%N w) as R.
  destruct (uniqueSlugEnsure_loop fuel _ _ _ w) as [slug w2| |]; try discriminate.
  destruct (hasUser uid w); [|discriminate].
  destruct R as [_ [n ->]]. intros [= <-]. cbn.
  destruct (advance_frame n w) as (?&?&?&?&?&?). tauto.
Qed.

(** ** Login *)

Lemma getUserFromCookie_some token w sess u :
  token <> "" ->
  Sql.session_by_token token w = Some sess ->
  Sql.user_by_id (s_user_id sess) w = Some u ->
  getUserFromCookie (Some token) w = Some (authOf u).
Proof.
  intros Ht Hs Hu. unfold getUserFromCookie, truthyToken.
  destruct token; [congruence|]. simpl. now rewrite Hs, Hu.
Qed.

Lemma getUserFromCookie_inv c w a :
  getUserFromCookie c w = Some a ->
  exists token sess u,
    c = Some token /\ token <> "" /\
    Sql.session_by_token token w = Some sess /\
    Sql.user_by_id (s_user_id sess) w = Some u /\ a = authOf u.
Proof.
  unfold getUserFromCookie, truthyToken.
  destruct c as [token|]; [|discriminate].
  destruct token as [|ch token]; [discriminate|]. simpl.
  destruct (Sql.session_by_token _ w) as [sess|] eqn:Hs; [|discriminate].
  destruct (Sql.user_by_id _ w) as [u|] eqn:Hu; [|discriminate].
  intros [= <-]. exists (String ch token), sess, u. repeat split; auto. discriminate.
Qed.

Lemma find_hasUser (f : User -> bool) w u :
  find f (users w) = Some u -> hasUser (u_id u) w = true.
Proof.
  intros F. apply find_some in F as [Hin _]. unfold hasUser.
  apply existsb_exists. exists u. split; [exact Hin|apply Nat.eqb_refl].
Qed.

Lemma getUserFromCookie_hasUser c w a :
  getUserFromCookie c w = Some a -> hasUser (au_id a) w = true.
Proof.
  intros H. destruct (getUserFromCookie_inv _ _ _ H) as (t & sess & u & _ & _ & _ & Hu & ->).
  exact (find_hasUser _ _ _ Hu).
Qed.

(** C3 (as amended).  A login whose password does not verify is answered
    with the one message "Invalid login" whether the (lower-cased, trimmed)
    username is unknown or belongs to an account that is not banned; a
    banned account is answered "Banned" before the password is looked at.
    For a login with the right password on an account that is not banned,
    the page is ensured first: that returns at once, changing nothing, when
    the account has a page, and it returns whenever the pages table holds
    fewer than 9998 rows.  Once it has returned, and given a session token
    that is not in use, a session is stored for the id of the user with the
    submitted username and its token is sent as the cookie. *)
Theorem login_outcomes :
  forall fuel b w,
    let username := Js.trim (Js.toLowerCase (field b "username")) in
    let password := field b "password" in
    (match Sql.user_by_username username w with
     | None => True
     | Some u => u_banned u = false /\ bcrypt_compare password (u_password_hash u) = false
     end ->
     login fuel b w
     = Ok (mkResponse CookieKeep (Render (LoginForm (Some "Invalid login")))) w) /\
    (forall u,
        Sql.user_by_username username w = Some u ->
        u_banned u = true ->
        login fuel b w
        = Ok (mkResponse CookieKeep (Render (LoginForm (Some "Banned")))) w) /\
    (forall u,
        Sql.user_by_username username w = Some u ->
        u_banned u = false ->
        bcrypt_compare password (u_password_hash u) = true ->
        Sql.page_by_user (u_id u) w <> None \/
        (length (pages w) < N.to_nat 9998 /\ length (pages w) <= fuel) ->
        exists w1,
          ensurePageForUser fuel (u_id u) (u_username u) w = Ok tt w1 /\
          (Sql.page_by_user (u_id u) w <> None -> w1 = w) /\
          let token := nanoid_src (tick w1) 32 in
          (Sql.session_by_token token w = None ->
           exists w',
             login fuel b w
             = Ok (mkResponse (CookieSet token) (Redirect "/dashboard")) w' /\
             Sql.session_by_token token w'
             = Some (mkSession token (u_id u) (clock (S (tick w1)))))) /\
    (forall u w1,
        Sql.user_by_username username w = Some u ->
        u_banned u = false ->
        bcrypt_compare password (u_password_hash u) = true ->
        ensurePageForUser fuel (u_id u) (u_username u) w = Ok tt w1 ->
        let token := nanoid_src (tick w1) 32 in
        Sql.session_by_token token w = None ->
        exists w',
          login fuel b w
          = Ok (mkResponse (CookieSet token) (Redirect "/dashboard")) w' /\
          u_username u = username /\
          sessions w' = sessions w ++ [mkSession token (u_id u) (clock (S (tick w1)))] /\
          Sql.session_by_token token w'
          = Some (mkSession token (u_id u) (clock (S (tick w1)))) /\
          users w' = users w).
Proof.
  intros fuel b w username password.
  assert (Hsession :
            forall u w1,
              Sql.user_by_username username w = Some u ->
              u_banned u = false ->
              bcrypt_compare password (u_password_hash u) = true ->
              ensurePageForUser fuel (u_id u) (u_username u) w = Ok tt w1 ->
              let token := nanoid_src (tick w1) 32 in
              Sql.session_by_token token w = None ->
              exists w',
                login fuel b w
                = Ok (mkResponse (CookieSet token) (Redirect "/dashboard")) w' /\
                u_username u = username /\
                sessions w' = sessions w ++ [mkSession token (u_id u) (clock (S (tick w1)))] /\
                Sql.session_by_token token w'
                = Some (mkSession token (u_id u) (clock (S (tick w1)))) /\
                users w' = users w);
    [|split; [|split; [|split; [|exact Hsession]]]].
  2: { intros H. unfold Server.login, bind, gets. fold username password.
       destruct (Sql.user_by_username username w) as [u|]; [|reflexivity].
       destruct H as [-> ->]. reflexivity. }
  2: { intros u Hu Hb. unfold Server.login, bind, gets. fold username password.
       now rewrite Hu, Hb. }
  2: { intros u Hu Hb Hc Hroom.
       assert (He : exists w1,
                  ensurePageForUser fuel (u_id u) (u_username u) w = Ok tt w1 /\
                  (Sql.page_by_user (u_id u) w <> None -> w1 = w)).
       { rewrite (ensurePageForUser_cases_user _ _ _ _ (find_hasUser _ _ _ Hu)).
         destruct (Sql.page_by_user (u_id u) w) as [p|]; [exists w; now split|].
         destruct Hroom as [Hp|[Hsmall Hfuel]]; [congruence|].
         destruct (uniqueSlugEnsure_total fuel (u_username u) w Hsmall Hfuel) as [slug ->].
         eexists. split; [reflexivity|congruence]. }
       destruct He as (w1 & He & Hsame). exists w1.
       split; [exact He|]. split; [exact Hsame|]. intros token Hfresh.
       destruct (Hsession u w1 Hu Hb Hc He Hfresh) as (w' & H & _ & _ & Hs & _).
       exists w'. now split. }
  - intros u w1 Hu Hb Hc He token Hfresh.
    destruct (ensurePageForUser_frame _ _ _ _ _ He) as (Hus & _ & Hss & _).
    assert (Hex : existsb (fun s => String.eqb (s_token s) token) (sessions w1) = false).
    { rewrite Hss. now apply find_none_existsb. }
    eexists. split; [|split; [|split; [|split]]].
    + unfold Server.login, bind, gets. fold username password.
      rewrite Hu, Hb, Hc. cbn [negb]. rewrite He.
      unfold nanoid, now, Sql.insert_session, ret. cbn [sessions bump tick].
      fold token. rewrite Hex. reflexivity.
    + apply find_some in Hu as [_ E]. now apply String.eqb_eq in E.
    + cbn. now rewrite Hss.
    + unfold Sql.session_by_token in *. cbn. rewrite Hss.
      rewrite (find_app_none _ _ _ Hfresh). cbn. now rewrite String.eqb_refl.
    + cbn. exact Hus.
Qed.

(** A login with the right password for an account without a page, in a
    table where the slug loop finds no free slug: the handler never gets to
    the session. *)
Lemma login_stuck fuel b w u :
  Sql.user_by_username (Js.trim (Js.toLowerCase (field b "username"))) w = Some u ->
  u_banned u = false ->
  bcrypt_compare (field b "password") (u_password_hash u) = true ->
  Sql.page_by_user (u_id u) w = None ->
  (forall j, (1 <= j <= 9999)%N ->
             slugTaken w (seqCandidate (uniqueSlug (u_username u)) j) = true) ->
  (forall t, slugTaken w (randCandidate (uniqueSlug (u_username u)) t) = true) ->
  login fuel b w = Diverge.
Proof.
  intros Hu Hb Hc Hp Hseq Hrand.
  unfold Server.login, bind, gets. rewrite Hu, Hb, Hc. cbn [negb].
  now rewrite (ensurePageForUser_stuck fuel (u_id u) (u_username u) w Hp Hseq Hrand).
Qed.

(** ** Ban and unban *)

Lemma find_map_keep {A} (sel : A -> bool) (g : A -> A) l :
  (forall x, sel (g x) = sel x) ->
  find sel (map g l) = option_map g (find sel l).
Proof.
  intros Hg. induction l as [|a l IH]; simpl; auto.
  rewrite Hg. destruct (sel a); auto.
Qed.

Lemma set_ban_id flag reason X u : u_id (Sql.set_ban flag reason X u) = u_id u.
Proof. unfold Sql.set_ban. now destruct (u_id u =? X). Qed.

Lemma getUserFromCookie_ban flag reason X c w :
  getUserFromCookie c (set_users (map (Sql.set_ban flag reason X)) w)
  = option_map (authBan flag reason X) (getUserFromCookie c w).
Proof.
  unfold getUserFromCookie. destruct (truthyToken c) as [token|]; [|reflexivity].
  unfold Sql.session_by_token, Sql.user_by_id. cbn [sessions users set_users].
  destruct (find _ (sessions w)) as [sess|]; [|reflexivity].
  rewrite find_map_keep by (intros x; now rewrite set_ban_id).
  destruct (find _ (users w)) as [u|]; [|reflexivity].
  cbn. unfold authBan, Sql.set_ban, authOf. cbn.
  now destruct (u_id u =? X).
Qed.

Lemma handle_banned fuel r c b w a :
  getUserFromCookie c w = Some a -> au_banned a = true ->
  behindRequireAuth r = true \/ r = GetRoot ->
  handle fuel (mkRequest r c b) w = Ok (mkResponse CookieKeep (Send 403 "Banned")) w.
Proof.
  intros Ha Hb Hr. unfold Server.handle, bind, gets. cbn [q_route q_session q_body].
  rewrite Ha.
  destruct r; try (destruct Hr; discriminate);
    unfold withAdmin, withAuth, requireAuth, root; rewrite Hb; reflexivity.
Qed.

Lemma handle_as_admin fuel r c b w a :
  getUserFromCookie c w = Some a -> au_id a = 1 -> au_banned a = false ->
  handle fuel (mkRequest r c b) w =
  match r with
  | PostBan id => ban id b w
  | PostUnban id => unban id w
  | PostImpersonate id => impersonate a id w
  | PostReturn => adminReturn c w
  | _ => handle fuel (mkRequest r c b) w
  end.
Proof.
  intros Ha Hid Hb. destruct r; try reflexivity;
    unfold Server.handle, bind, gets; cbn [q_route q_session q_body]; rewrite Ha;
    unfold withAdmin, withAuth, requireAuth, requireAdmin; rewrite Hb, ?Hid; reflexivity.
Qed.

Lemma Forall2_map_self {A} (R : A -> A -> Prop) (g : A -> A) l :
  (forall x, R x (g x)) -> Forall2 R l (map g l).
Proof. intros H. induction l; simpl; constructor; auto. Qed.

(** C4.  A ban of user [X] (not 0, not 1) issued by the administrator
    rewrites nothing but the [banned] flag and [ban_reason] of [X]'s row:
    the sessions table and every other table are unchanged.  From then on
    a request carrying one of [X]'s sessions is answered 403 "Banned" on
    every route behind [requireAuth] (and on [/]), the store staying as it
    is, as is any request whose session resolves to a banned user in any
    store; and once the administrator has unbanned [X], the same session
    passes [requireAuth] again. *)
Theorem ban_gates_without_revoking :
  forall fuel c b w admin X,
    getUserFromCookie c w = Some admin -> au_id admin = 1 -> au_banned admin = false ->
    X <> 0 -> X <> 1 ->
    let w1 := set_users (map (Sql.set_ban true (Js.slice0 120 (field b "reason")) X)) w in
    let w2 := set_users (map (Sql.set_ban false "" X)) w1 in
    handle fuel (mkRequest (PostBan X) c b) w
    = Ok (mkResponse CookieKeep (Redirect "/admin/users")) w1 /\
    sessions w1 = sessions w /\ pages w1 = pages w /\
    invite_keys w1 = invite_keys w /\ impersonations w1 = impersonations w /\
    Forall2 (fun u u' =>
               u_id u' = u_id u /\ u_username u' = u_username u /\
               u_password_hash u' = u_password_hash u /\
               u_created_at u' = u_created_at u /\
               (u_id u <> X -> u' = u))
      (users w) (users w1) /\
    (forall t x,
        getUserFromCookie (Some t) w = Some x -> au_id x = X ->
        (forall fuel' r b',
            behindRequireAuth r = true \/ r = GetRoot ->
            handle fuel' (mkRequest r (Some t) b') w1
            = Ok (mkResponse CookieKeep (Send 403 "Banned")) w1) /\
        handle fuel (mkRequest (PostUnban X) c b) w1
        = Ok (mkResponse CookieKeep (Redirect "/admin/users")) w2 /\
        sessions w2 = sessions w /\
        requireAuth (getUserFromCookie (Some t) w2)
        = inr (mkAuthUser X (au_username x) false "")) /\
    (forall w' fuel' r c' b' x,
        getUserFromCookie c' w' = Some x -> au_banned x = true ->
        behindRequireAuth r = true \/ r = GetRoot ->
        handle fuel' (mkRequest r c' b') w'
        = Ok (mkResponse CookieKeep (Send 403 "Banned")) w').
Proof.
  intros fuel c b w admin X Ha Hid Hnb HX0 HX1 w1 w2.
  assert (Hbad : badTarget X = false).
  { unfold badTarget. apply Nat.eqb_neq in HX0, HX1. now rewrite HX0, HX1. }
  assert (Ha1 : getUserFromCookie c w1 = Some admin).
  { unfold w1. rewrite getUserFromCookie_ban, Ha. cbn. unfold authBan.
    rewrite Hid. apply Nat.neq_sym, Nat.eqb_neq in HX1. now rewrite HX1. }
  split; [|repeat (split; [reflexivity|]); split; [|split]].
  - rewrite (handle_as_admin _ _ _ _ _ _ Ha Hid Hnb).
    unfold ban. now rewrite Hbad.
  - apply Forall2_map_self. intros u. unfold Sql.set_ban.
    destruct (Nat.eqb_spec (u_id u) X); cbn; tauto.
  - intros t x Hx HxX.
    assert (Hx1 : getUserFromCookie (Some t) w1
                  = Some (mkAuthUser X (au_username x) true (Js.slice0 120 (field b "reason")))).
    { unfold w1. rewrite getUserFromCookie_ban, Hx. cbn. unfold authBan.
      now rewrite HxX, Nat.eqb_refl. }
    split; [|split; [|split]].
    + intros fuel' r b' Hr. now apply (handle_banned _ _ _ _ _ _ Hx1).
    + rewrite (handle_as_admin _ _ _ _ _ _ Ha1 Hid Hnb).
      unfold unban. now rewrite Hbad.
    + reflexivity.
    + unfold w2. rewrite getUserFromCookie_ban, Hx1. cbn. unfold authBan. cbn.
      now rewrite Nat.eqb_refl.  - intros w' fuel' r c' b' x Hx Hb Hr. now apply (handle_banned _ _ _ _ _ _ Hx Hb).
Qed.

(** ** Reasoning about handlers *)

Lemma preserves_ret {A} I (a : A) : preserves I (ret a).
Proof. intros w H. exact H. Qed.

Lemma preserves_throw {A} I msg : preserves I (@throw A msg).
Proof. intros w H. exact H. Qed.

Lemma preserves_gets {A} I (f : Store -> A) : preserves I (gets f).
Proof. intros w H. exact H. Qed.

Lemma preserves_reply I r : preserves I (reply r).
Proof. intros w H. exact H. Qed.

Lemma triple_bind {A B} P R Q E (m : M A) (k : A -> M B) :
  triple P m R E -> (forall a, triple (R a) (k a) Q E) -> triple P (bind m k) Q E.
Proof.
  intros Hm Hk w HP. unfold bind. specialize (Hm w HP).
  destruct (m w) as [a w'| |]; auto. now apply Hk.
Qed.

Lemma preserves_bind {A B} I (m : M A) (k : A -> M B) :
  preserves I m -> (forall a, preserves I (k a)) -> preserves I (bind m k).
Proof. intros Hm Hk. eapply triple_bind; [exact Hm|exact Hk]. Qed.

Lemma preserves_bind_post {A B} I (R : A -> Prop) (m : M A) (k : A -> M B) :
  triple I m (fun a w => I w /\ R a) I ->
  (forall a, R a -> preserves I (k a)) ->
  preserves I (bind m k).
Proof.
  intros Hm Hk. eapply triple_bind; [exact Hm|].
  intros a w [HI HR]. now apply Hk.
Qed.

Lemma preserves_tryCatch {A} I (m : M A) h :
  preserves I m -> (forall msg, preserves I (h msg)) -> preserves I (tryCatch m h).
Proof.
  intros Hm Hh w HI. unfold tryCatch. specialize (Hm w HI).
  destruct (m w) as [a w'|msg w'|]; auto. now apply Hh.
Qed.

(** One step of a composition proof, chosen by the shape of the handler. *)
Ltac pres_step :=
  lazymatch goal with
  | |- preserves _ (ret _) => apply preserves_ret
  | |- preserves _ (reply _) => apply preserves_reply
  | |- preserves _ (gets _) => apply preserves_gets
  | |- preserves _ (throw _) => apply preserves_throw
  | |- preserves _ (bind _ _) => apply preserves_bind; [|intros ?]
  | |- preserves _ (tryCatch _ _) => apply preserves_tryCatch; [|intros ?]
  | |- preserves _ (match ?x with _ => _ end) => destruct x
  end.

Section Invariant.

(** An invariant that each statement maintains on its own. *)
Variable I : Store -> Prop.
Hypothesis I_bump : forall w, I w -> I (bump w).
Hypothesis I_insert_user :
  forall n h c, triple I (Sql.insert_user n h c) (fun id w => I w /\ id <> 0) I.
Hypothesis I_update_ban : forall f r id, preserves I (Sql.update_user_ban f r id).
Hypothesis I_insert_page : forall p, preserves I (Sql.insert_page p).
Hypothesis I_update_page : forall uid slug f, preserves I (Sql.update_page uid slug f).
Hypothesis I_insert_invite : forall k u c, preserves I (Sql.insert_invite_key k u c).
Hypothesis I_update_invite :
  forall uid t k, uid <> 0 -> preserves I (Sql.update_invite_used uid t k).
Hypothesis I_insert_session : forall t u c, preserves I (Sql.insert_session t u c).

(** The three handlers that delete sessions or write impersonations. *)
Hypothesis I_logout : forall c, preserves I (logout c).
Hypothesis I_impersonate : forall u id, preserves I (impersonate u id).
Hypothesis I_adminReturn : forall c, preserves I (adminReturn c).

Lemma I_nanoid n : preserves I (nanoid nanoid_src n).
Proof. intros w H. now apply I_bump. Qed.

Lemma I_now : preserves I (now clock).
Proof. intros w H. now apply I_bump. Qed.

Lemma I_hashPassword p : preserves I (hashPassword bcrypt_hash p).
Proof. intros w H. now apply I_bump. Qed.

Lemma I_advance n w : I w -> I (advance n w).
Proof. intros H. induction n; simpl; auto. Qed.

Lemma I_uniqueSlugEnsure fuel name : preserves I (uniqueSlugEnsure fuel name).
Proof.
  intros w H. unfold Server.uniqueSlugEnsure.
  pose proof (loop_result (uniqueSlug name) fuel (uniqueSlug name) 2%N w) as R.
  destruct (uniqueSlugEnsure_loop fuel _ _ _ w); auto; [|contradiction].
  destruct R as [_ [n ->]]. now apply I_advance.
Qed.

Ltac prim_step :=
  lazymatch goal with
  | |- preserves _ (Server.nanoid _ _) => apply I_nanoid
  | |- preserves _ (Server.now _) => apply I_now
  | |- preserves _ (Server.hashPassword _ _) => apply I_hashPassword
  | |- preserves _ (Server.uniqueSlugEnsure _ _ _) => apply I_uniqueSlugEnsure
  | |- preserves _ (Sql.insert_page _) => apply I_insert_page
  | |- preserves _ (Sql.update_page _ _ _) => apply I_update_page
  | |- preserves _ (Sql.insert_session _ _ _) => apply I_insert_session
  | |- preserves _ (Sql.insert_invite_key _ _ _) => apply I_insert_invite
  | |- preserves _ (Sql.update_user_ban _ _ _) => apply I_update_ban
  | |- preserves _ (Sql.update_invite_used _ _ _) => apply I_update_invite; assumption
  | |- preserves _ (bind (Sql.insert_user _ _ _) _) =>
      apply (preserves_bind_post I (fun id => id <> 0)); [apply I_insert_user|intros ? ?]
  | |- _ => pres_step
  end.

Lemma I_ensurePageForUser fuel uid name : preserves I (ensurePageForUser fuel uid name).
Proof. unfold Server.ensurePageForUser. repeat prim_step. Qed.

Lemma I_signup fuel b : preserves I (signup fuel b).
Proof.
  unfold Server.signup, signupError.
  repeat first [apply I_ensurePageForUser | prim_step].
Qed.

Lemma I_login fuel b : preserves I (login fuel b).
Proof.
  unfold Server.login, loginError.
  repeat first [apply I_ensurePageForUser | prim_step].
Qed.

Lemma I_renderDashboard c u e o : preserves I (renderDashboard c u e o).
Proof. unfold renderDashboard, nullPage. repeat pres_step. Qed.

Lemma I_savePageForUser uid b : preserves I (savePageForUser uid b).
Proof. unfold Server.savePageForUser. repeat prim_step. Qed.

Lemma I_withAuth user h :
  (forall u, preserves I (h u)) -> preserves I (withAuth user h).
Proof. intros H. unfold withAuth. destruct (requireAuth user); [apply preserves_reply|apply H]. Qed.

Lemma I_withAdmin user h :
  (forall u, preserves I (h u)) -> preserves I (withAdmin user h).
Proof.
  intros H. unfold withAdmin. apply I_withAuth. intros u.
  destruct (requireAdmin (Some u)); [apply preserves_reply|apply H].
Qed.

(** Every request maintains the invariant. *)
Lemma handle_preserves fuel q : preserves I (handle fuel q).
Proof.
  unfold Server.handle. apply preserves_bind; [apply preserves_gets|intros user].
  destruct (q_route q).
  - unfold root. repeat pres_step.
  - apply preserves_reply.
  - apply I_signup.
  - apply preserves_reply.
  - apply I_login.
  - apply I_logout.
  - apply I_withAuth. intros u. unfold dashboard.
    apply preserves_bind; [apply I_ensurePageForUser|intros _; apply I_renderDashboard].
  - apply I_withAuth. intros u. unfold dashboardPost.
    apply preserves_bind; [apply I_savePageForUser|intros []; apply I_renderDashboard].
  - apply I_withAdmin. intros u. apply preserves_reply.
  - apply I_withAdmin. intros u. repeat pres_step.
  - apply I_withAdmin. intros u. unfold adminMintKey.
    repeat prim_step.
  - apply I_withAdmin. intros u. repeat pres_step.
  - apply I_withAdmin. intros u. unfold ban.
    repeat prim_step.
  - apply I_withAdmin. intros u. unfold unban.
    repeat prim_step.
  - apply I_withAdmin. intros u. apply I_impersonate.
  - apply I_withAuth. intros u. apply I_adminReturn.
  - unfold profile. repeat pres_step.
Qed.

End Invariant.

Lemma later_preserves (I : Store -> Prop) :
  (forall fuel q, preserves I (handle fuel q)) ->
  forall w w', I w -> later w w' -> I w'.
Proof.
  intros H w w' HI L. induction L as [|w1 w2 L IH S]; [exact HI|].
  destruct S as [fuel q r E|fuel q msg E];
    pose proof (H fuel q w1 IH) as P; now rewrite E in P.
Qed.

(** ** Sessions and impersonations *)

Lemma paired_spec w :
  paired w = true <->
  forall i, In i (impersonations w) ->
            exists s, In s (sessions w) /\ s_token s = i_token i.
Proof.
  unfold paired. rewrite forallb_forall. split; intros H i Hi.
  - apply H in Hi. apply existsb_exists in Hi as [s [Hs E]].
    apply String.eqb_eq in E. eauto.
  - destruct (H i Hi) as [s [Hs E]]. apply existsb_exists.
    exists s. split; [exact Hs|now apply String.eqb_eq].
Qed.

Local Abbreviation Paired := (fun w : Store => paired w = true).

Lemma truthyToken_some c tok : truthyToken c = Some tok -> c = Some tok.
Proof.
  unfold truthyToken. destruct c as [t|]; [|discriminate].
  destruct (Js.isEmpty t); congruence.
Qed.

Lemma paired_no_session_no_impersonation t w :
  paired w = true -> Sql.session_by_token t w = None ->
  Sql.impersonation_by_token t w = None.
Proof.
  intros Hp Hs. unfold Sql.impersonation_by_token.
  destruct (find _ (impersonations w)) as [i|] eqn:F; [|reflexivity].
  apply find_some in F as [Hi E]. apply String.eqb_eq in E.
  destruct (proj1 (paired_spec w) Hp i Hi) as [s [Hin Es]].
  apply (find_none _ _ Hs) in Hin. cbn in Hin.
  rewrite Es, E, String.eqb_refl in Hin. discriminate.
Qed.

Lemma paired_insert_session t u c : preserves Paired (Sql.insert_session t u c).
Proof.
  intros w H. unfold Sql.insert_session.
  destruct (existsb _ (sessions w)); [exact H|].
  apply paired_spec. intros i Hi. cbn in Hi.
  destruct (proj1 (paired_spec w) H i Hi) as [s [Hs E]].
  exists s. split; [cbn; apply in_or_app; now left|exact E].
Qed.

(** Deleting a session together with the impersonation on its token. *)
Lemma paired_delete_both t w :
  paired w = true ->
  paired (set_impersonations (filter (fun i => negb (String.eqb (i_token i) t)))
            (set_sessions (filter (fun s => negb (String.eqb (s_token s) t))) w))
  = true.
Proof.
  intros H. apply paired_spec. intros i Hi. cbn in Hi |- *.
  apply filter_In in Hi as [Hi Ht].
  destruct (proj1 (paired_spec w) H i Hi) as [s [Hs E]].
  exists s. split; [|exact E]. apply filter_In. split; [exact Hs|now rewrite E].
Qed.

(** Adding an impersonation on the token of a session that exists. *)
Lemma paired_insert_impersonation t a c w :
  paired w = true ->
  (exists s, In s (sessions w) /\ s_token s = t) ->
  match Sql.insert_impersonation t a c w with
  | Ok _ w' | Throw _ w' => paired w' = true
  | Diverge => True
  end.
Proof.
  intros H [s0 [Hs0 E0]]. unfold Sql.insert_impersonation.
  destruct (existsb _ (impersonations w)); [exact H|].
  apply paired_spec. intros i Hi. cbn in Hi |- *.
  apply in_app_or in Hi as [Hi|[<-|[]]].
  - exact (proj1 (paired_spec w) H i Hi).
  - exists s0. now split.
Qed.

Lemma paired_logout c : preserves Paired (logout c).
Proof.
  intros w H. unfold logout, bind, ret.
  destruct (truthyToken c) as [t|]; [|exact H].
  cbn. now apply paired_delete_both.
Qed.

Lemma paired_impersonate u id : preserves Paired (impersonate u id).
Proof.
  intros w H. unfold Server.impersonate.
  destruct (id =? 0); [exact H|].
  unfold bind at 1. unfold gets.
  destruct (Sql.user_by_id id w); [|exact H].
  unfold bind, nanoid, now. cbn [tick bump].
  set (t := nanoid_src (tick w) 32).
  unfold Sql.insert_session at 1. cbn [sessions bump].
  destruct (existsb _ (sessions w)) eqn:Ex; [exact H|].
  set (w1 := set_sessions _ _).
  assert (H1 : paired (bump w1) = true).
  { apply paired_spec. intros i Hi. cbn in Hi |- *.
    destruct (proj1 (paired_spec w) H i Hi) as [s [Hs E]].
    exists s. split; [apply in_or_app; now left|exact E]. }
  pose proof (paired_insert_impersonation t (au_id u) (clock (tick w1)) (bump w1) H1) as P.
  destruct (Sql.insert_impersonation _ _ _ _); auto; apply P;
    (eexists; split; [cbn; apply in_or_app; right; now left|reflexivity]).
Qed.

Lemma paired_adminReturn c : preserves Paired (adminReturn c).
Proof.
  intros w H. unfold Server.adminReturn.
  destruct (truthyToken c) as [t|]; [|exact H].
  unfold bind at 1. unfold gets.
  destruct (Sql.impersonation_by_token t w) as [row|]; [|exact H].
  unfold bind, Sql.delete_session, Sql.delete_impersonation, modify, nanoid, now.
  pose proof (paired_delete_both t w H) as H1.
  set (w1 := set_impersonations _ _) in *.
  pose proof (paired_insert_session (nanoid_src (tick w1) 32) (i_admin_user_id row)
                (clock (tick (bump w1))) (bump (bump w1)) H1) as P.
  destruct (Sql.insert_session _ _ _ _); auto.
Qed.

(** ** Impersonation round trip *)

Lemma find_filter_same {A} (key : A -> string) t l :
  find (fun x => String.eqb (key x) t)
    (filter (fun x => negb (String.eqb (key x) t)) l) = None.
Proof.
  induction l as [|a l IH]; simpl; auto.
  destruct (String.eqb (key a) t) eqn:E; simpl; auto. now rewrite E.
Qed.

Lemma find_filter_other {A} (key : A -> string) t t' l :
  t' <> t ->
  find (fun x => String.eqb (key x) t')
    (filter (fun x => negb (String.eqb (key x) t)) l)
  = find (fun x => String.eqb (key x) t') l.
Proof.
  intros Hne. induction l as [|a l IH]; simpl; auto.
  destruct (String.eqb_spec (key a) t) as [E|E]; simpl.
  - destruct (String.eqb_spec (key a) t') as [E'|_]; [congruence|exact IH].
  - destruct (String.eqb (key a) t'); auto.
Qed.

Lemma handle_return fuel c b w a :
  getUserFromCookie c w = Some a -> au_banned a = false ->
  handle fuel (mkRequest PostReturn c b) w = adminReturn c w.
Proof.
  intros Ha Hb. unfold Server.handle, bind, gets. cbn [q_route q_session q_body].
  rewrite Ha. unfold withAuth, requireAuth. now rewrite Hb.
Qed.

Lemma impersonate_ok a U w target :
  U <> 0 -> Sql.user_by_id U w = Some target ->
  Sql.session_by_token (nanoid_src (tick w) 32) w = None ->
  Sql.impersonation_by_token (nanoid_src (tick w) 32) w = None ->
  impersonate a U w
  = Ok (mkResponse (CookieSet (nanoid_src (tick w) 32)) (Redirect "/dashboard"))
      (afterImpersonate (nanoid_src (tick w) 32) U (au_id a) w).
Proof.
  intros HU Ht Hs Hi. unfold Server.impersonate.
  apply Nat.eqb_neq in HU. rewrite HU.
  unfold bind, gets. rewrite Ht.
  unfold nanoid, now, Sql.insert_session, Sql.insert_impersonation, ret.
  cbn [sessions impersonations tick bump set_sessions].
  apply find_none_existsb in Hs, Hi. rewrite Hs.
  cbn [sessions impersonations tick bump set_sessions]. rewrite Hi. reflexivity.
Qed.

Lemma adminReturn_ok t w row :
  t <> "" ->
  Sql.impersonation_by_token t w = Some row ->
  (nanoid_src (tick w) 32 = t \/ Sql.session_by_token (nanoid_src (tick w) 32) w = None) ->
  adminReturn (Some t) w
  = Ok (mkResponse (CookieSet (nanoid_src (tick w) 32)) (Redirect "/admin/users"))
      (afterReturn t (nanoid_src (tick w) 32) (i_admin_user_id row) w).
Proof.
  intros Ht Hrow Hfresh. unfold Server.adminReturn, truthyToken.
  destruct t as [|ch t0]; [congruence|]. cbn [Js.isEmpty].
  set (t := String ch t0) in *.
  unfold bind, gets. rewrite Hrow.
  unfold Sql.delete_session, Sql.delete_impersonation, modify, nanoid, now,
    Sql.insert_session, ret.
  cbn [sessions tick bump set_sessions set_impersonations].
  set (t' := nanoid_src (tick w) 32) in *.
  assert (Hex : existsb (fun s => String.eqb (s_token s) t')
                  (filter (fun s => negb (String.eqb (s_token s) t)) (sessions w)) = false).
  { apply find_none_existsb. destruct Hfresh as [->|Hn].
    - apply find_filter_same.
    - destruct (String.eqb_spec t' t) as [->|Hne]; [apply find_filter_same|].
      rewrite find_filter_other by assumption. exact Hn. }
  rewrite Hex. reflexivity.
Qed.

(** C8.  Every impersonation record is on the token of an existing session
    row: this holds when there is no impersonation, and every request
    maintains it, whether its handler returns or throws, so it holds in
    every later store.  The rows of a token are written and deleted
    together.  An impersonation by the administrator appends the session
    and the impersonation record on the token it drew, both or (when the
    token is that of a stored session) neither.  Logout deletes the session
    and the impersonation record on the token of the cookie.  Return, when
    the cookie carries an impersonation record, deletes the session and the
    record on its token, whether or not the new session for the
    administrator can then be stored. *)
Theorem impersonations_stay_paired :
  (forall w, impersonations w = [] -> paired w = true) /\
  (forall fuel q w,
      paired w = true ->
      match handle fuel q w with
      | Ok _ w' => paired w' = true
      | Throw _ w' => paired w' = true
      | Diverge => True
      end) /\
  (forall w w', paired w = true -> later w w' -> paired w' = true) /\
  (forall fuel c b w admin U,
      getUserFromCookie c w = Some admin -> au_id admin = 1 -> au_banned admin = false ->
      paired w = true ->
      U <> 0 -> Sql.user_by_id U w <> None ->
      let t := nanoid_src (tick w) 32 in
      match handle fuel (mkRequest (PostImpersonate U) c b) w with
      | Ok r w' =>
          Sql.session_by_token t w = None /\
          r = mkResponse (CookieSet t) (Redirect "/dashboard") /\
          sessions w' = sessions w ++ [mkSession t U (clock (S (tick w)))] /\
          impersonations w'
          = impersonations w ++ [mkImpersonation t 1 (clock (S (S (tick w))))]
      | Throw _ w' =>
          Sql.session_by_token t w <> None /\
          sessions w' = sessions w /\ impersonations w' = impersonations w
      | Diverge => False
      end) /\
  (forall fuel c b w,
      exists w',
        handle fuel (mkRequest PostLogout c b) w
        = Ok (mkResponse CookieClear (Redirect "/login")) w' /\
        match truthyToken c with
        | Some t =>
            sessions w'
            = filter (fun s => negb (String.eqb (s_token s) t)) (sessions w) /\
            impersonations w'
            = filter (fun i => negb (String.eqb (i_token i) t)) (impersonations w) /\
            Sql.session_by_token t w' = None /\
            Sql.impersonation_by_token t w' = None
        | None => w' = w
        end) /\
  (forall fuel c b w u t row,
      getUserFromCookie c w = Some u -> au_banned u = false ->
      truthyToken c = Some t ->
      Sql.impersonation_by_token t w = Some row ->
      let t' := nanoid_src (tick w) 32 in
      match handle fuel (mkRequest PostReturn c b) w with
      | Ok r w' =>
          r = mkResponse (CookieSet t') (Redirect "/admin/users") /\
          sessions w'
          = filter (fun s => negb (String.eqb (s_token s) t)) (sessions w)
            ++ [mkSession t' (i_admin_user_id row) (clock (S (tick w)))] /\
          impersonations w'
          = filter (fun i => negb (String.eqb (i_token i) t)) (impersonations w) /\
          Sql.impersonation_by_token t w' = None
      | Throw _ w' =>
          sessions w'
          = filter (fun s => negb (String.eqb (s_token s) t)) (sessions w) /\
          impersonations w'
          = filter (fun i => negb (String.eqb (i_token i) t)) (impersonations w) /\
          Sql.session_by_token t w' = None /\
          Sql.impersonation_by_token t w' = None
      | Diverge => False
      end).
Proof.
  assert (Hstep : forall fuel q, preserves Paired (handle fuel q)).
  { intros fuel q. apply handle_preserves.
    - intros w H. exact H.
    - intros n h c w H. unfold Sql.insert_user.
      destruct (existsb _ (users w)); [exact H|]. split; [exact H|discriminate].
    - intros f r id w H. exact H.
    - intros p w H. unfold Sql.insert_page.
      repeat (match goal with |- context [if ?b then _ else _] => destruct b end); exact H.
    - intros uid slug f w H. unfold Sql.update_page.
      repeat (match goal with |- context [if ?b then _ else _] => destruct b end); exact H.
    - intros k u c w H. unfold Sql.insert_invite_key.
      repeat (match goal with |- context [if ?b then _ else _] => destruct b end); exact H.
    - intros uid t k _ w H. exact H.
    - apply paired_insert_session.
    - apply paired_logout.
    - apply paired_impersonate.
    - apply paired_adminReturn. }
  split; [|split; [|split; [|split; [|split]]]].
  - intros w E. unfold paired. now rewrite E.
  - intros fuel q w H. exact (Hstep fuel q w H).
  - intros w w' H L. exact (later_preserves Paired Hstep w w' H L).
  - intros fuel c b w admin U Ha Hid Hb Hp HU Hu t.
    rewrite (handle_as_admin _ _ _ _ _ _ Ha Hid Hb).
    destruct (Sql.user_by_id U w) as [target|] eqn:T; [|congruence].
    destruct (Sql.session_by_token t w) as [s|] eqn:S.
    + unfold Server.impersonate, bind, gets. apply Nat.eqb_neq in HU. rewrite HU, T.
      unfold nanoid, now, Sql.insert_session. cbn [sessions bump tick]. fold t.
      rewrite (find_some_existsb _ _ _ S). repeat split. discriminate.
    + rewrite (impersonate_ok admin U w target HU T S
                 (paired_no_session_no_impersonation _ _ Hp S)).
      fold t. rewrite Hid. repeat split.
  - intros fuel c b w.
    change (handle fuel (mkRequest PostLogout c b) w) with (logout c w). unfold logout.
    destruct (truthyToken c) as [t|].
    + eexists. split; [reflexivity|]. cbn. repeat split.
      * apply (find_filter_same s_token).
      * apply (find_filter_same i_token).
    + exists w. now split.
  - intros fuel c b w u t row Hu Hb Ht Hrow t'.
    rewrite (handle_return _ _ _ _ _ Hu Hb). unfold Server.adminReturn.
    rewrite Ht. unfold bind, gets. rewrite Hrow.
    unfold Sql.delete_session, Sql.delete_impersonation, modify, nanoid, now,
      Sql.insert_session, ret.
    cbn [sessions tick bump set_sessions set_impersonations]. fold t'.
    destruct (existsb _ _).
    + cbn. repeat split.
      * apply (find_filter_same s_token).
      * apply (find_filter_same i_token).
    + cbn. repeat split. apply (find_filter_same i_token).
Qed.

(** C2 (as amended).  The administrator [A] (user 1) impersonates an
    existing user [U]: a new session for [U] is stored together with an
    impersonation record naming [A] on the same token, and [A]'s own
    session still resolves to [A].  If [U] is not banned, [/admin/return]
    presented with the borrowed token deletes that session and that record
    and stores a brand-new session for [A], whose token becomes the cookie
    and differs from [A]'s pre-impersonation token, which stays valid.
    (Tokens drawn are assumed non-empty and not yet in use.) *)
Theorem impersonation_round_trip :
  forall fuel c b b' U w admin target,
    getUserFromCookie c w = Some admin -> au_id admin = 1 -> au_banned admin = false ->
    U <> 0 ->
    Sql.user_by_id U w = Some target ->
    let t := nanoid_src (tick w) 32 in
    let w1 := afterImpersonate t U 1 w in
    let t' := nanoid_src (tick w1) 32 in
    let w2 := afterReturn t t' 1 w1 in
    t <> "" ->
    Sql.session_by_token t w = None ->
    Sql.impersonation_by_token t w = None ->
    handle fuel (mkRequest (PostImpersonate U) c b) w
    = Ok (mkResponse (CookieSet t) (Redirect "/dashboard")) w1 /\
    Sql.session_by_token t w1 = Some (mkSession t U (clock (S (tick w)))) /\
    Sql.impersonation_by_token t w1
    = Some (mkImpersonation t 1 (clock (S (S (tick w))))) /\
    getUserFromCookie c w1 = Some admin /\
    getUserFromCookie (Some t) w1 = Some (authOf target) /\
    (u_banned target = false ->
     t' <> "" ->
     Sql.session_by_token t' w1 = None ->
     handle fuel (mkRequest PostReturn (Some t) b') w1
     = Ok (mkResponse (CookieSet t') (Redirect "/admin/users")) w2 /\
     Sql.session_by_token t w2 = None /\
     Sql.impersonation_by_token t w2 = None /\
     Sql.session_by_token t' w2 = Some (mkSession t' 1 (clock (S (tick w1)))) /\
     getUserFromCookie (Some t') w2 = Some admin /\
     c <> Some t' /\
     getUserFromCookie c w2 = Some admin).
Proof.
  intros fuel c b b' U w admin target Ha Hid Hnb HU Htarget t w1 t' w2 Ht Hs Hi.
  destruct (getUserFromCookie_inv _ _ _ Ha) as (tA & sA & uA & -> & HtA & HsA & HuA & ->).
  cbn in Hid.
  assert (HsA1 : s_user_id sA = 1).
  { apply find_some in HuA as [_ E]. apply Nat.eqb_eq in E. congruence. }
  assert (HtAt : tA <> t).
  { intros ->. congruence. }
  assert (Hs1 : Sql.session_by_token t w1 = Some (mkSession t U (clock (S (tick w))))).
  { unfold Sql.session_by_token in *. cbn. rewrite (find_app_none _ _ _ Hs).
    cbn. now rewrite String.eqb_refl. }
  assert (Hi1 : Sql.impersonation_by_token t w1
                = Some (mkImpersonation t 1 (clock (S (S (tick w)))))).
  { unfold Sql.impersonation_by_token in *. cbn. rewrite (find_app_none _ _ _ Hi).
    cbn. now rewrite String.eqb_refl. }
  assert (HsA1' : Sql.session_by_token tA w1 = Some sA).
  { unfold Sql.session_by_token in *. cbn. now apply find_app_some. }
  assert (Hadmin1 : getUserFromCookie (Some tA) w1 = Some (authOf uA)).
  { now apply (getUserFromCookie_some tA w1 sA uA). }
  assert (Htarget1 : getUserFromCookie (Some t) w1 = Some (authOf target)).
  { now apply (getUserFromCookie_some t w1 _ target Ht Hs1). }
  split; [|split; [exact Hs1|split; [exact Hi1|split; [exact Hadmin1|split; [exact Htarget1|]]]]].
  - rewrite (handle_as_admin _ _ _ _ _ _ Ha Hid Hnb).
    rewrite (impersonate_ok _ _ _ _ HU Htarget Hs Hi). cbn [au_id authOf]. now rewrite Hid.
  - intros Hub Ht' Hs'.
    assert (Ht't : t' <> t) by (intros E; rewrite E in Hs'; congruence).
    assert (HtAt' : tA <> t') by (intros E; rewrite <- E in Hs'; congruence).
    assert (Hs2 : Sql.session_by_token t' w2 = Some (mkSession t' 1 (clock (S (tick w1))))).
    { unfold Sql.session_by_token in *. cbn - [w1].
      rewrite find_app_none; [cbn; now rewrite String.eqb_refl|].
      rewrite find_filter_other by assumption. exact Hs'. }
    assert (HsA2 : Sql.session_by_token tA w2 = Some sA).
    { unfold Sql.session_by_token in *. cbn - [w1]. apply find_app_some.
      rewrite find_filter_other by assumption. exact HsA1'. }
    split; [|split; [|split; [|split; [exact Hs2|split; [|split]]]]].
    + rewrite (handle_return _ _ _ _ _ Htarget1 Hub).
      rewrite (adminReturn_ok t w1 _ Ht Hi1 (or_intror Hs')). reflexivity.
    + unfold Sql.session_by_token. cbn - [w1].
      rewrite find_app_none by apply find_filter_same.
      cbn. apply String.eqb_neq in Ht't. now rewrite Ht't.
    + unfold Sql.impersonation_by_token. cbn - [w1]. apply find_filter_same.
    + apply (getUserFromCookie_some t' w2 _ uA Ht' Hs2). cbn [s_user_id].
      now rewrite <- HsA1.
    + congruence.
    + now apply (getUserFromCookie_some tA w2 sA uA).
Qed.

(** ** Signup *)

Lemma next_user_id_fresh w u : In u (users w) -> u_id u < Sql.next_user_id w.
Proof.
  intros H. unfold Sql.next_user_id.
  assert (L : list_max (map u_id (users w)) <= list_max (map u_id (users w))) by lia.
  rewrite list_max_le in L. rewrite Forall_forall in L.
  specialize (L (u_id u) (in_map u_id _ _ H)). lia.
Qed.

Lemma new_user_has_no_page w :
  pagesHaveOwners w = true -> Sql.page_by_user (Sql.next_user_id w) w = None.
Proof.
  intros H. unfold Sql.page_by_user.
  destruct (find _ (pages w)) as [p|] eqn:F; [|reflexivity].
  apply find_some in F as [Hin E]. apply Nat.eqb_eq in E.
  unfold pagesHaveOwners in H. rewrite forallb_forall in H.
  specialize (H p Hin). apply existsb_exists in H as [u [Hu Eu]].
  apply Nat.eqb_eq in Eu. pose proof (next_user_id_fresh w u Hu). lia.
Qed.

Lemma uniqueSlugEnsure_advance fuel name w slug w' :
  uniqueSlugEnsure fuel name w = Ok slug w' -> exists n, w' = advance n w.
Proof.
  intros H. unfold Server.uniqueSlugEnsure in H.
  pose proof (loop_result (uniqueSlug name) fuel (uniqueSlug name) 2%N w) as R.
  rewrite H in R. tauto.
Qed.

Lemma hasUser_afterClaim username password invite w :
  hasUser (Sql.next_user_id w) (afterClaim username password invite w) = true.
Proof.
  unfold hasUser, Server.afterClaim. cbn [users set_invite_keys bump set_users].
  rewrite existsb_app. cbn. now rewrite Nat.eqb_refl, orb_true_r.
Qed.

Lemma signup_ok fuel b w username row slug w2 :
  let password := field b "password" in
  let invite := Js.trim (field b "invite") in
  let uid := Sql.next_user_id w in
  validateUsername (field b "username") = Some username ->
  6 <= String.length password ->
  Sql.invite_by_key invite w = Some row -> used row = false ->
  pagesHaveOwners w = true ->
  Sql.user_by_username username w = None ->
  uniqueSlugEnsure fuel username (afterClaim username password invite w) = Ok slug w2 ->
  Sql.session_by_token (nanoid_src (S (tick w2)) 32) w = None ->
  signup fuel b w
  = Ok (mkResponse (CookieSet (nanoid_src (S (tick w2)) 32)) (Redirect "/dashboard"))
      (withSession (nanoid_src (S (tick w2)) 32) uid
         (withFreshPage uid slug username w2)).
Proof.
  intros password invite uid Hv Hp Hrow Hunused Hfk Hname Hslug Htok.
  unfold Server.signup. fold password invite. rewrite Hv.
  apply Nat.ltb_ge in Hp. rewrite Hp.
  unfold bind at 1. unfold gets. rewrite Hrow, Hunused.
  unfold bind at 1. unfold hashPassword, tryCatch.
  unfold bind at 1. unfold now at 1.
  unfold bind at 1. unfold Sql.insert_user.
  cbn [users bump tick].
  apply find_none_existsb in Hname. rewrite Hname.
  unfold bind at 1. unfold now at 1. cbn [tick bump set_users].
  unfold bind at 1. unfold Sql.update_invite_used, modify.
  change (Sql.next_user_id (bump (bump w))) with uid.
  match goal with
  | |- context [bind (ensurePageForUser _ _ _) _ ?w0] =>
      change w0 with (afterClaim username password invite w)
  end.
  unfold bind at 1.
  rewrite (ensurePageForUser_cases_user _ _ _ _ (hasUser_afterClaim username password invite w)).
  change (Sql.next_user_id w) with uid.
  assert (Hnp : Sql.page_by_user uid (afterClaim username password invite w) = None).
  { exact (new_user_has_no_page w Hfk). }
  rewrite Hnp, Hslug.
  destruct (uniqueSlugEnsure_advance _ _ _ _ _ Hslug) as [n Hw2].
  unfold bind, nanoid, now, Sql.insert_session, ret, Server.withFreshPage.
  cbn [sessions tick bump set_pages].
  assert (Hss : sessions w2 = sessions w).
  { rewrite Hw2. destruct (advance_frame n (afterClaim username password invite w))
      as (_&_&_&->&_). reflexivity. }
  rewrite Hss. apply find_none_existsb in Htok. rewrite Htok. reflexivity.
Qed.

(** A signup that passes every check and whose user row is written, in a
    table where the slug loop finds no free slug: the handler never gets
    to the page, nor to the session. *)
Lemma signup_stuck fuel b w username row :
  let password := field b "password" in
  let invite := Js.trim (field b "invite") in
  validateUsername (field b "username") = Some username ->
  6 <= String.length password ->
  Sql.invite_by_key invite w = Some row -> used row = false ->
  pagesHaveOwners w = true ->
  Sql.user_by_username username w = None ->
  (forall j, (1 <= j <= 9999)%N ->
             slugTaken w (seqCandidate (uniqueSlug username) j) = true) ->
  (forall t, slugTaken w (randCandidate (uniqueSlug username) t) = true) ->
  signup fuel b w = Diverge.
Proof.
  intros password invite Hv Hp Hrow Hunused Hfk Hname Hseq Hrand.
  unfold Server.signup. fold password invite. rewrite Hv.
  apply Nat.ltb_ge in Hp. rewrite Hp.
  unfold bind at 1. unfold gets. rewrite Hrow, Hunused.
  unfold bind at 1. unfold hashPassword, tryCatch.
  unfold bind at 1. unfold now at 1.
  unfold bind at 1. unfold Sql.insert_user.
  cbn [users bump tick].
  apply find_none_existsb in Hname. rewrite Hname.
  unfold bind at 1. unfold now at 1. cbn [tick bump set_users].
  unfold bind at 1. unfold Sql.update_invite_used, modify.
  change (Sql.next_user_id (bump (bump w))) with (Sql.next_user_id w).
  match goal with
  | |- context [bind (ensurePageForUser _ _ _) _ ?w0] =>
      change w0 with (afterClaim username password invite w)
  end.
  unfold bind at 1.
  rewrite (ensurePageForUser_stuck fuel (Sql.next_user_id w) username
             (afterClaim username password invite w)); [reflexivity| | |].
  - exact (new_user_has_no_page w Hfk).
  - exact Hseq.
  - exact Hrand.
Qed.

Lemma set_used_key uid t k row : k_key (Sql.set_used uid t k row) = k_key row.
Proof. unfold Sql.set_used. now destruct (String.eqb (k_key row) k). Qed.

Lemma invite_by_key_set_used uid t k key w :
  Sql.invite_by_key key (set_invite_keys (map (Sql.set_used uid t k)) w)
  = option_map (Sql.set_used uid t k) (Sql.invite_by_key key w).
Proof.
  unfold Sql.invite_by_key. cbn.
  apply find_map_keep. intros x. now rewrite set_used_key.
Qed.

(** A signup that presents a consumed key is turned away before anything
    is written. *)
Lemma signup_rejects_consumed fuel b w :
  consumed (Js.trim (field b "invite")) w = true ->
  exists e,
    signup fuel b w = Ok (mkResponse CookieKeep (Render (SignupForm (Some e)))) w /\
    (validateUsername (field b "username") <> None ->
     6 <= String.length (field b "password") ->
     e = "Invalid invite key").
Proof.
  intros H. unfold Server.signup, signupError, reply, ret.
  destruct (validateUsername (field b "username")) as [u|].
  - destruct (Nat.ltb_spec (String.length (field b "password")) 6) as [L|L].
    + eexists. split; [reflexivity|]. intros _ L'. lia.
    + unfold bind, gets. unfold consumed in H.
      destruct (Sql.invite_by_key _ w) as [row|]; [|discriminate].
      rewrite H. eexists. split; reflexivity.
  - eexists. split; [reflexivity|]. intros N. congruence.
Qed.

Ltac split_ifs :=
  repeat match goal with
         | |- context [if ?b then _ else _] => destruct b
         | |- context [match ?x with Some _ => _ | None => _ end] => destruct x
         end.

(** A consumed key stays consumed, whatever is requested afterwards. *)
Lemma consumed_forever key fuel q :
  preserves (fun w => consumed key w = true) (handle fuel q).
Proof.
  apply handle_preserves.
  - intros w H. exact H.
  - intros n h c w H. unfold Sql.insert_user.
    destruct (existsb _ (users w)); [exact H|]. split; [exact H|discriminate].
  - intros f r id w H. exact H.
  - intros p w H. unfold Sql.insert_page. split_ifs; exact H.
  - intros uid slug f w H. unfold Sql.update_page. split_ifs; exact H.
  - intros k u c w H. unfold Sql.insert_invite_key.
    destruct (existsb _ (invite_keys w)); [exact H|].
    unfold consumed, Sql.invite_by_key in *. cbn.
    destruct (find _ (invite_keys w)) as [row|] eqn:F; [|discriminate].
    now rewrite (find_app_some _ _ _ _ F).
  - intros uid t k Huid w H. unfold Sql.update_invite_used, modify.
    unfold consumed in *. rewrite invite_by_key_set_used.
    destruct (Sql.invite_by_key key w) as [row|]; [|discriminate].
    cbn. unfold Sql.set_used. destruct (String.eqb (k_key row) k); [|exact H].
    unfold used. cbn. apply Nat.eqb_neq in Huid. now rewrite Huid.
  - intros t u c w H. unfold Sql.insert_session. split_ifs; exact H.
  - intros c w H. unfold logout, bind, ret.
    destruct (truthyToken c); exact H.
  - intros u id w H. unfold Server.impersonate, bind, gets, nanoid, now,
      Sql.insert_session, Sql.insert_impersonation, reply, ret.
    split_ifs; exact H.
  - intros c w H. unfold Server.adminReturn, bind, gets, nanoid, now,
      Sql.delete_session, Sql.delete_impersonation, modify,
      Sql.insert_session, reply, ret.
    split_ifs; exact H.
Qed.

(** C1 (as amended).  A signup with a valid username, a password of at
    least 6 code units and an invite key that exists and is unused, whose
    username is not taken.  The slug loop of its page creation returns
    whenever the pages table holds fewer than 9998 rows, and draws nothing
    then, so that the request is answered with the session cookie once its
    token is not in use.  Whenever the loop returns and the session token
    drawn is not in use, so that no write fails, the request appends
    exactly one row to [users], one to [pages] and one to [sessions], all
    three for the new user id, and sets [used_by] of the invite key to that
    id.  After that, and after any further requests, a signup presenting
    the same key is turned away with a form error and writes nothing; the
    error is "Invalid invite key" whenever its username and password pass
    validation.
    (The store respects the foreign key of [pages].) *)
Theorem signup_consumes_invite :
  forall fuel c b w username row,
    let password := field b "password" in
    let invite := Js.trim (field b "invite") in
    let uid := Sql.next_user_id w in
    let claimed := afterClaim username password invite w in
    validateUsername (field b "username") = Some username ->
    6 <= String.length password ->
    Sql.invite_by_key invite w = Some row -> used row = false ->
    pagesHaveOwners w = true ->
    Sql.user_by_username username w = None ->
    (length (pages w) < N.to_nat 9998 -> length (pages w) <= fuel ->
     exists slug,
       uniqueSlugEnsure fuel username claimed = Ok slug claimed /\
       let token := nanoid_src (S (tick claimed)) 32 in
       (Sql.session_by_token token w = None ->
        handle fuel (mkRequest PostSignup c b) w
        = Ok (mkResponse (CookieSet token) (Redirect "/dashboard"))
            (withSession token uid (withFreshPage uid slug username claimed)))) /\
    (forall slug w2,
        uniqueSlugEnsure fuel username claimed = Ok slug w2 ->
        let token := nanoid_src (S (tick w2)) 32 in
        let w' := withSession token uid (withFreshPage uid slug username w2) in
        Sql.session_by_token token w = None ->
        handle fuel (mkRequest PostSignup c b) w
        = Ok (mkResponse (CookieSet token) (Redirect "/dashboard")) w' /\
        users w'
        = users w ++ [mkUser uid username (bcrypt_hash (tick w) password)
                        (clock (S (tick w))) false ""] /\
        pages w' = pages w ++ [freshPage uid slug username (clock (tick w2))] /\
        sessions w' = sessions w ++ [mkSession token uid (clock (S (S (tick w2))))] /\
        impersonations w' = impersonations w /\
        invite_keys w'
        = map (Sql.set_used uid (clock (S (S (tick w)))) invite) (invite_keys w) /\
        (exists row', Sql.invite_by_key invite w' = Some row' /\ k_used_by row' = Some uid) /\
        (forall w'' fuel' c' b',
            later w' w'' ->
            Js.trim (field b' "invite") = invite ->
            exists e,
              handle fuel' (mkRequest PostSignup c' b') w''
              = Ok (mkResponse CookieKeep (Render (SignupForm (Some e)))) w'' /\
              (validateUsername (field b' "username") <> None ->
               6 <= String.length (field b' "password") ->
               e = "Invalid invite key"))).
Proof.
  intros fuel c b w username row password invite uid claimed
    Hv Hp Hrow Hunused Hfk Hname.
  split.
  { intros Hsmall Hfuel.
    destruct (uniqueSlugEnsure_total fuel username claimed Hsmall Hfuel) as [slug Hslug].
    exists slug. split; [exact Hslug|]. intros token Htok.
    change (handle fuel (mkRequest PostSignup c b) w) with (signup fuel b w).
    exact (signup_ok fuel b w username row slug claimed
             Hv Hp Hrow Hunused Hfk Hname Hslug Htok). }
  intros slug w2 Hslug token w' Htok. unfold claimed in Hslug.
  split.
  { change (handle fuel (mkRequest PostSignup c b) w) with (signup fuel b w).
    exact (signup_ok fuel b w username row slug w2 Hv Hp Hrow Hunused Hfk Hname Hslug Htok). }
  destruct (uniqueSlugEnsure_advance _ _ _ _ _ Hslug) as [n Hw2].
  destruct (advance_frame n (afterClaim username password invite w))
    as (Hu & Hpg & Hk & Hs & Hi & _).
  rewrite <- Hw2 in Hu, Hpg, Hk, Hs, Hi.
  assert (Hrow' : Sql.invite_by_key invite w2
                  = Some (Sql.set_used uid (clock (S (S (tick w)))) invite row)).
  { unfold Sql.invite_by_key. rewrite Hk.
    change (find (fun k => String.eqb (k_key k) invite)
              (invite_keys (afterClaim username password invite w)))
      with (Sql.invite_by_key invite
              (set_invite_keys (map (Sql.set_used uid (clock (S (S (tick w)))) invite)) w)).
    rewrite invite_by_key_set_used. now rewrite Hrow. }
  assert (Hkey : String.eqb (k_key row) invite = true).
  { now apply find_some in Hrow as [_ E]. }
  unfold w'.
  cbn [users pages sessions impersonations invite_keys Server.withSession
         Server.withFreshPage set_sessions set_pages bump].
  rewrite Hu, Hpg, Hs, Hi, Hk.
  repeat (split; [reflexivity|]). split.
  - eexists. split; [exact Hrow'|]. unfold Sql.set_used. now rewrite Hkey.
  - intros w'' fuel' c' b' L Hb'.
    change (handle fuel' (mkRequest PostSignup c' b') w'') with (signup fuel' b' w'').
    apply signup_rejects_consumed. rewrite Hb'.
    refine (later_preserves _ (consumed_forever invite) _ _ _ L).
    unfold consumed.
    change (Sql.invite_by_key invite (withSession token uid (withFreshPage uid slug username w2)))
      with (Sql.invite_by_key invite w2).
    rewrite Hrow'. unfold Sql.set_used, used. rewrite Hkey. reflexivity.
Qed.

(** ** The store stays well formed *)

Lemma sforall_append p a b :
  Js.sforall p (a ++ b)%string = Js.sforall p a && Js.sforall p b.
Proof. induction a as [|c a IH]; simpl; [reflexivity|]. now rewrite IH, andb_assoc. Qed.

Lemma length_append a b :
  String.length (a ++ b)%string = String.length a + String.length b.
Proof. induction a as [|c a IH]; simpl; [reflexivity|]. now rewrite IH. Qed.

Lemma length_smap f s : String.length (Js.smap f s) = String.length s.
Proof. induction s as [|c s IH]; simpl; [reflexivity|]. now rewrite IH. Qed.

Lemma sforall_smap (p q : ascii -> bool) f s :
  (forall c, p c = true -> q (f c) = true) ->
  Js.sforall p s = true -> Js.sforall q (Js.smap f s) = true.
Proof.
  intros Hf. induction s as [|c s IH]; simpl; auto.
  intros H. apply andb_true_iff in H as [H1 H2]. now rewrite (Hf _ H1), IH.
Qed.

Lemma sforall_impl (p q : ascii -> bool) s :
  (forall c, p c = true -> q c = true) ->
  Js.sforall p s = true -> Js.sforall q s = true.
Proof.
  intros Hpq. induction s as [|c s IH]; simpl; auto.
  intros H. apply andb_true_iff in H as [H1 H2]. now rewrite (Hpq _ H1), IH.
Qed.

Lemma urlSafe_lower c : Js.isUrlSafe c = true -> Js.isSlugChar (Js.lowerChar c) = true.
Proof. by_ascii_cases c. Qed.

Lemma userChar_slugChar c : Js.isUserChar c = true -> Js.isSlugChar c = true.
Proof. unfold Js.isSlugChar. now intros ->. Qed.

Lemma matchSlug_intro s :
  Js.sforall Js.isSlugChar s = true -> 2 <= String.length s <= 32 -> matchSlug s = true.
Proof.
  intros Hc [H2 H32]. unfold matchSlug. rewrite Hc.
  apply Nat.leb_le in H2, H32. now rewrite H2, H32.
Qed.

Lemma matchUsername_inv name :
  matchUsername name = true ->
  Js.sforall Js.isSlugChar name = true /\ 3 <= String.length name <= 20.
Proof.
  unfold matchUsername. intros H.
  apply andb_true_iff in H as [H H20]. apply andb_true_iff in H as [Hc H3].
  apply Nat.leb_le in H3, H20. split; [|lia].
  exact (sforall_impl _ _ _ userChar_slugChar Hc).
Qed.

(** A valid username is its own base slug. *)
Lemma uniqueSlug_username name : matchUsername name = true -> uniqueSlug name = name.
Proof.
  intros H. destruct (matchUsername_inv _ H) as [Hc Hl].
  unfold uniqueSlug. rewrite normalizeSlug_fixed by (apply matchSlug_intro; [exact Hc|lia]).
  destruct name; [simpl in Hl; lia|reflexivity].
Qed.

Lemma digits_are_slugChars d :
  Js.sforall Js.isSlugChar (NilEmpty.string_of_uint d) = true.
Proof. induction d; simpl; auto. Qed.

Lemma decimal_chars j : Js.sforall Js.isSlugChar (Js.decimal j) = true.
Proof.
  unfold Js.decimal, NilZero.string_of_uint.
  destruct (N.to_uint j); try apply digits_are_slugChars. reflexivity.
Qed.

Lemma allFrom_spec f n :
  forall s, allFrom f n s = true ->
            forall j, (s <= j < s + N.of_nat n)%N -> f j = true.
Proof.
  induction n as [|n IH]; intros s H j Hj; [lia|].
  simpl in H. apply andb_true_iff in H as [H1 H2].
  destruct (N.eq_dec j s) as [->|Hne]; [exact H1|].
  apply (IH (N.succ s) H2). lia.
Qed.

Lemma decimal_length_table :
  allFrom (fun j => String.length (Js.decimal j) <=? 4) (N.to_nat 10000) 0 = true.
Proof. vm_compute. reflexivity. Qed.

Lemma decimal_length j : (j <= 9999)%N -> String.length (Js.decimal j) <= 4.
Proof.
  intros H. apply Nat.leb_le.
  apply (allFrom_spec _ _ _ decimal_length_table j). lia.
Qed.

(** What the loop can return: the slug it was given, a sequential
    candidate, or a random candidate. *)
Lemma loop_shape base :
  forall fuel slug i w s w',
    uniqueSlugEnsure_loop fuel base slug i w = Ok s w' ->
    s = slug
    \/ (exists j, (j <= 9998)%N /\ s = (base ++ Js.decimal j)%string)
    \/ (exists t, s = randCandidate base t).
Proof.
  induction fuel as [|fuel IH]; intros slug i w s w' H.
  - destruct (slugTaken w slug) eqn:T.
    + rewrite loop_out_of_fuel in H by assumption. discriminate.
    + rewrite loop_free in H by assumption. left. congruence.
  - destruct (slugTaken w slug) eqn:T.
    + destruct (N.ltb_spec 9999 (i + 1)) as [Hi|Hi].
      * rewrite loop_step_rand in H by assumption.
        apply IH in H as [->|[H|H]]; eauto.
      * rewrite loop_step_seq in H by assumption.
        apply IH in H as [->|[H|H]]; eauto.
        right. left. exists i. split; [lia|reflexivity].
    + rewrite loop_free in H by assumption. left. congruence.
Qed.

Section Soundness.

(** [nanoid(6)] draws 6 characters from its alphabet. *)
Hypothesis nanoid_alphabet : forall k, Js.sforall Js.isUrlSafe (nanoid_src k 6) = true.
Hypothesis nanoid_length : forall k, String.length (nanoid_src k 6) = 6.

(** For a valid username, the slug that is resolved has the slug
    format. *)
Lemma uniqueSlugEnsure_format fuel name w slug w' :
  matchUsername name = true ->
  uniqueSlugEnsure fuel name w = Ok slug w' ->
  matchSlug slug = true.
Proof.
  intros Hn H. unfold Server.uniqueSlugEnsure in H.
  rewrite (uniqueSlug_username _ Hn) in H.
  destruct (matchUsername_inv _ Hn) as [Hc Hl].
  apply loop_shape in H as [->|[(j & Hj & ->)|(t & ->)]].
  - apply matchSlug_intro; [exact Hc|lia].
  - apply matchSlug_intro.
    + now rewrite sforall_append, Hc, decimal_chars.
    + rewrite length_append. pose proof (decimal_length j ltac:(lia)). lia.
  - unfold Server.randCandidate. apply matchSlug_intro.
    + rewrite !sforall_append, Hc. cbn [Js.sforall andb].
      change (Js.isSlugChar "-") with true. cbn [andb].
      apply (sforall_smap Js.isUrlSafe); [exact urlSafe_lower|apply nanoid_alphabet].
    + rewrite !length_append. unfold Js.toLowerCase.
      rewrite length_smap, nanoid_length. simpl. lia.
Qed.

Lemma sound_same_tables w w' :
  users w' = users w -> pages w' = pages w -> sound w -> sound w'.
Proof.
  unfold sound, pagesHaveOwners, hasUser. now intros -> ->.
Qed.

Ltac same_tables :=
  first [ eassumption
        | eapply sound_same_tables; [reflexivity|reflexivity|eassumption] ].

Lemma hasUser_in w u : In u (users w) -> hasUser (u_id u) w = true.
Proof.
  intros H. apply existsb_exists. exists u. split; [exact H|apply Nat.eqb_refl].
Qed.

Lemma sound_set_users f w :
  (forall id, hasUser id w = true -> hasUser id (set_users f w) = true) ->
  (forall u, In u (f (users w)) -> matchUsername (u_username u) = true) ->
  sound w -> sound (set_users f w).
Proof.
  intros Hid Hname (H1 & H2 & H3 & H4 & H5).
  repeat split; auto.
  unfold pagesHaveOwners in *. rewrite forallb_forall in *.
  intros p Hp. apply Hid, H3, Hp.
Qed.

Lemma sound_insert_user id name hash created w :
  matchUsername name = true -> sound w ->
  sound (set_users (fun us => us ++ [mkUser id name hash created false ""]) w).
Proof.
  intros Hn Hs. apply sound_set_users; auto.
  - intros i Hi. unfold hasUser in *. cbn. rewrite existsb_app, Hi. reflexivity.
  - intros u Hu. apply in_app_or in Hu as [Hu|[<-|[]]]; [|exact Hn].
    now apply Hs.
Qed.

Lemma sound_set_ban flag reason X w :
  sound w -> sound (set_users (map (Sql.set_ban flag reason X)) w).
Proof.
  intros Hs. apply sound_set_users; auto.
  - intros i Hi. unfold hasUser in *. cbn.
    apply existsb_exists in Hi as [u [Hu E]]. apply existsb_exists.
    exists (Sql.set_ban flag reason X u). split; [now apply in_map|].
    now rewrite set_ban_id.
  - intros u Hu. apply in_map_iff in Hu as [u0 [<- Hu0]].
    unfold Sql.set_ban. destruct (u_id u0 =? X); cbn; now apply Hs.
Qed.

Lemma sound_insert_page p w :
  sound w -> hasUser (p_user_id p) w = true -> matchSlug (p_slug p) = true ->
  existsb (fun q => p_user_id q =? p_user_id p) (pages w) = false ->
  existsb (fun q => String.eqb (p_slug q) (p_slug p)) (pages w) = false ->
  sound (set_pages (fun ps => ps ++ [p]) w).
Proof.
  intros (H1 & H2 & H3 & H4 & H5) Hu Hm Hid Hslug.
  assert (Hnew : forall A (key : A -> bool) l, existsb key l = false ->
                   forall x, In x l -> key x = false).
  { intros A key l E x Hx. destruct (key x) eqn:K; auto.
    assert (existsb key l = true) by (apply existsb_exists; eauto). congruence. }
  repeat split; cbn.
  - rewrite map_app. cbn. apply NoDup_app; auto; [repeat constructor; auto|].
    intros a Ha [<-|[]]. apply in_map_iff in Ha as [q [E Hq]].
    apply (Hnew _ _ _ Hid) in Hq. rewrite E, Nat.eqb_refl in Hq. discriminate.
  - rewrite map_app. cbn. apply NoDup_app; auto; [repeat constructor; auto|].
    intros a Ha [<-|[]]. apply in_map_iff in Ha as [q [E Hq]].
    apply (Hnew _ _ _ Hslug) in Hq. rewrite E, String.eqb_refl in Hq. discriminate.
  - unfold pagesHaveOwners in *. rewrite forallb_forall in *.
    intros q Hq. apply in_app_or in Hq as [Hq|[<-|[]]]; [now apply H3|exact Hu].
  - exact H4.
  - intros q Hq. apply in_app_or in Hq as [Hq|[<-|[]]]; auto.
Qed.

Lemma NoDup_map_update {A} (key : A -> string) (sel : A -> bool) (f : A -> A) slug l :
  NoDup (map key l) ->
  (forall x y, In x l -> In y l -> sel x = true -> sel y = true -> x = y) ->
  (forall x, In x l -> sel x = false -> key x <> slug) ->
  (forall x, key (f x) = slug) ->
  NoDup (map key (map (fun x => if sel x then f x else x) l)).
Proof.
  intros Hnd Hone Hother Hf. induction l as [|a l IH]; simpl; [constructor|].
  inversion Hnd as [|? ? Hnotin Hnd']; subst. constructor.
  - intros Hin. apply in_map_iff in Hin as [y' [E Hy']].
    apply in_map_iff in Hy' as [y [<- Hy]].
    destruct (sel a) eqn:Sa, (sel y) eqn:Sy.
    + assert (a = y) by (apply Hone; simpl; auto). subst y.
      apply Hnotin. now apply in_map.
    + rewrite Hf in E. apply (Hother y); simpl; auto.
    + rewrite Hf in E. apply (Hother a); simpl; auto.
    + apply Hnotin. rewrite <- E. now apply in_map.
  - apply IH; auto.
    + intros x y Hx Hy. apply Hone; simpl; auto.
    + intros x Hx. apply Hother. simpl. auto.
Qed.

Lemma sound_update_page uid slug f w :
  sound w -> matchSlug slug = true ->
  (forall p, p_user_id (f p) = p_user_id p) ->
  (forall p, p_slug (f p) = slug) ->
  existsb (fun q => String.eqb (p_slug q) slug && negb (p_user_id q =? uid)) (pages w)
  = false ->
  sound (set_pages (map (fun p => if p_user_id p =? uid then f p else p)) w).
Proof.
  intros (H1 & H2 & H3 & H4 & H5) Hm Hid Hslug Hfree.
  assert (Hkeep : map p_user_id (map (fun p => if p_user_id p =? uid then f p else p) (pages w))
                  = map p_user_id (pages w)).
  { rewrite map_map. apply map_ext. intros p.
    destruct (p_user_id p =? uid); [apply Hid|reflexivity]. }
  repeat split; cbn.
  - now rewrite Hkeep.
  - apply (NoDup_map_update p_slug (fun p => p_user_id p =? uid) f slug); auto.
    + intros x y Hx Hy Ex Ey. apply Nat.eqb_eq in Ex, Ey.
      apply (unique_column_nat p_user_id (pages w)); auto. congruence.
    + intros x Hx Ex E.
      assert (T : existsb (fun q => String.eqb (p_slug q) slug && negb (p_user_id q =? uid))
                    (pages w) = true).
      { apply existsb_exists. exists x. split; [exact Hx|].
        rewrite Ex. now rewrite (proj2 (String.eqb_eq _ _) E). }
      congruence.
  - unfold pagesHaveOwners in *. cbn. rewrite forallb_forall in *.
    intros p' Hp'. apply in_map_iff in Hp' as [p [<- Hp]].
    destruct (p_user_id p =? uid); [rewrite Hid|]; now apply H3.
  - exact H4.
  - intros p' Hp'. apply in_map_iff in Hp' as [p [<- Hp]].
    destruct (p_user_id p =? uid); [now rewrite Hslug|now apply H5].
Qed.

Lemma keeps_ret {A} (a : A) : keeps (ret a).
Proof. intros w. now split. Qed.

Lemma keeps_throw {A} msg : keeps (@throw A msg).
Proof. intros w. now split. Qed.

Lemma keeps_gets {A} (f : Store -> A) : keeps (gets f).
Proof. intros w. now split. Qed.

Lemma keeps_reply r : keeps (reply r).
Proof. intros w. now split. Qed.

Lemma keeps_bind {A B} (m : M A) (k : A -> M B) :
  keeps m -> (forall a, keeps (k a)) -> keeps (bind m k).
Proof.
  intros Hm Hk w. unfold bind. specialize (Hm w).
  destruct (m w) as [a w1|msg w1|]; auto.
  specialize (Hk a w1). destruct Hm as [Hu Hp].
  destruct (k a w1); auto; now rewrite <- Hu, <- Hp.
Qed.

Lemma keeps_tryCatch {A} (m : M A) h :
  keeps m -> (forall msg, keeps (h msg)) -> keeps (tryCatch m h).
Proof.
  intros Hm Hh w. unfold tryCatch. specialize (Hm w).
  destruct (m w) as [a w1|msg w1|]; auto.
  specialize (Hh msg w1). destruct Hm as [Hu Hp].
  destruct (h msg w1); auto; now rewrite <- Hu, <- Hp.
Qed.

Lemma keeps_nanoid n : keeps (nanoid nanoid_src n).
Proof. intros w. now split. Qed.

Lemma keeps_now : keeps (now clock).
Proof. intros w. now split. Qed.

Lemma keeps_hashPassword p : keeps (hashPassword bcrypt_hash p).
Proof. intros w. now split. Qed.

Lemma keeps_insert_session t u c : keeps (Sql.insert_session t u c).
Proof. intros w. unfold Sql.insert_session. destruct (existsb _ _); now split. Qed.

Lemma keeps_delete_session t : keeps (Sql.delete_session t).
Proof. intros w. now split. Qed.

Lemma keeps_insert_impersonation t a c : keeps (Sql.insert_impersonation t a c).
Proof. intros w. unfold Sql.insert_impersonation. destruct (existsb _ _); now split. Qed.

Lemma keeps_delete_impersonation t : keeps (Sql.delete_impersonation t).
Proof. intros w. now split. Qed.

Lemma keeps_insert_invite_key k u c : keeps (Sql.insert_invite_key k u c).
Proof. intros w. unfold Sql.insert_invite_key. destruct (existsb _ _); now split. Qed.

Lemma keeps_update_invite_used u t k : keeps (Sql.update_invite_used u t k).
Proof. intros w. now split. Qed.

Ltac keeps_step :=
  lazymatch goal with
  | |- keeps (ret _) => apply keeps_ret
  | |- keeps (reply _) => apply keeps_reply
  | |- keeps (gets _) => apply keeps_gets
  | |- keeps (throw _) => apply keeps_throw
  | |- keeps (bind _ _) => apply keeps_bind; [|intros ?]
  | |- keeps (tryCatch _ _) => apply keeps_tryCatch; [|intros ?]
  | |- keeps (Server.nanoid _ _) => apply keeps_nanoid
  | |- keeps (Server.now _) => apply keeps_now
  | |- keeps (Server.hashPassword _ _) => apply keeps_hashPassword
  | |- keeps (Sql.insert_session _ _ _) => apply keeps_insert_session
  | |- keeps (Sql.delete_session _) => apply keeps_delete_session
  | |- keeps (Sql.insert_impersonation _ _ _) => apply keeps_insert_impersonation
  | |- keeps (Sql.delete_impersonation _) => apply keeps_delete_impersonation
  | |- keeps (Sql.insert_invite_key _ _ _) => apply keeps_insert_invite_key
  | |- keeps (Sql.update_invite_used _ _ _) => apply keeps_update_invite_used
  | |- keeps (match ?x with _ => _ end) => destruct x
  end.

(** An assertion that only looks at [users] and [pages] survives such a
    handler. *)
Lemma keeps_triple {A} (P : Store -> Prop) (m : M A) :
  keeps m ->
  (forall w w', users w' = users w -> pages w' = pages w -> P w -> P w') ->
  triple P m (fun _ => P) P.
Proof.
  intros Hm HP w Hw. specialize (Hm w).
  destruct (m w); auto; destruct Hm; eapply HP; eauto.
Qed.

Lemma keeps_sound {A} (m : M A) : keeps m -> preserves sound m.
Proof. intros H. apply keeps_triple; [exact H|]. intros w w'. apply sound_same_tables. Qed.

Lemma keeps_sound_user {A} id (m : M A) :
  keeps m ->
  triple (fun w => sound w /\ hasUser id w = true) m
    (fun _ w => sound w /\ hasUser id w = true) sound.
Proof.
  intros Hm w [Hs Hu]. specialize (Hm w).
  destruct (m w); auto; destruct Hm as [Eu Ep].
  - split; [now apply (sound_same_tables w)|]. unfold hasUser. now rewrite Eu.
  - now apply (sound_same_tables w).
Qed.

Lemma sound_ensurePageForUser fuel uid name :
  matchUsername name = true ->
  triple (fun w => sound w /\ hasUser uid w = true)
    (ensurePageForUser fuel uid name) (fun _ => sound) sound.
Proof.
  intros Hn w [Hs Hu]. rewrite (ensurePageForUser_cases_user _ _ _ _ Hu).
  destruct (Sql.page_by_user uid w) eqn:P; [exact Hs|].
  pose proof (loop_result (uniqueSlug name) fuel (uniqueSlug name) 2%N w) as R.
  fold (uniqueSlugEnsure fuel name w) in R.
  destruct (uniqueSlugEnsure fuel name w) as [slug w1| |] eqn:U; auto; [|contradiction].
  destruct R as [Hfree [n ->]].
  destruct (advance_frame n w) as (Eu & Ep & _).
  unfold Server.withFreshPage.
  apply sound_insert_page; cbn [p_user_id p_slug freshPage].
  - apply (sound_same_tables w); auto.
  - unfold hasUser. cbn. now rewrite Eu.
  - exact (uniqueSlugEnsure_format _ _ _ _ _ Hn U).
  - cbn. rewrite Ep. now apply find_none_existsb.
  - cbn. rewrite Ep. unfold slugTaken, Sql.page_by_slug in Hfree.
    destruct (find _ (pages w)) eqn:F; [discriminate|]. now apply find_none_existsb.
Qed.

Lemma validateUsername_format s name :
  validateUsername s = Some name -> matchUsername name = true.
Proof.
  unfold validateUsername.
  destruct (matchUsername (Js.trim (Js.toLowerCase s))) eqn:E; [|discriminate].
  now intros [= <-].
Qed.

Lemma sound_signup fuel b : preserves sound (signup fuel b).
Proof.
  unfold Server.signup, signupError.
  destruct (validateUsername (field b "username")) as [name|] eqn:V;
    [|apply preserves_reply].
  pose proof (validateUsername_format _ _ V) as Hn.
  destruct (_ <? 6); [apply preserves_reply|].
  apply preserves_bind; [apply preserves_gets|intros [row|]]; [|apply preserves_reply].
  destruct (used row); [apply preserves_reply|].
  apply preserves_bind; [apply keeps_sound, keeps_hashPassword|intros hash].
  apply preserves_tryCatch; [|intros msg; destruct (Js.includes _ _); apply preserves_reply].
  apply preserves_bind; [apply keeps_sound, keeps_now|intros t0].
  apply (triple_bind sound (fun id w => sound w /\ hasUser id w = true)).
  { intros w Hs. unfold Sql.insert_user.
    destruct (existsb _ (users w)); [exact Hs|]. split.
    - now apply sound_insert_user.
    - unfold hasUser. cbn. rewrite existsb_app. cbn.
      now rewrite Nat.eqb_refl, orb_true_r. }
  intros uid.
  eapply triple_bind; [apply keeps_sound_user, keeps_now|intros t1].
  eapply triple_bind; [apply keeps_sound_user, keeps_update_invite_used|intros ?].
  eapply triple_bind; [apply (sound_ensurePageForUser fuel uid name Hn)|intros ?].
  apply keeps_sound. repeat keeps_step.
Qed.

Lemma sound_login fuel b : preserves sound (login fuel b).
Proof.
  intros w Hs. unfold Server.login, loginError.
  unfold bind at 1. unfold gets.
  destruct (Sql.user_by_username _ w) as [u|] eqn:U; [|exact Hs].
  destruct (u_banned u); [exact Hs|].
  destruct (negb _); [exact Hs|].
  apply find_some in U as [Hin _].
  refine (triple_bind (fun w => sound w /\ hasUser (u_id u) w = true) (fun _ => sound)
            (fun _ => sound) sound _ _ _ _ w _).
  - apply sound_ensurePageForUser. now apply Hs.
  - intros _. apply keeps_sound. repeat keeps_step.
  - split; [exact Hs|now apply hasUser_in].
Qed.

Lemma sound_dashboard fuel c u w :
  sound w -> getUserFromCookie c w = Some u ->
  match dashboard nanoid_src clock fuel c u w with
  | Ok _ w' | Throw _ w' => sound w'
  | Diverge => True
  end.
Proof.
  intros Hs Hu.
  destruct (getUserFromCookie_inv _ _ _ Hu) as (t & sess & row & -> & _ & _ & Hrow & ->).
  apply find_some in Hrow as [Hin _].
  unfold dashboard.
  refine (triple_bind (fun w => sound w /\ hasUser (u_id row) w = true) (fun _ => sound)
            (fun _ => sound) sound _ _ _ _ w _).
  - apply sound_ensurePageForUser. now apply Hs.
  - intros _. apply keeps_sound. unfold renderDashboard, nullPage. repeat keeps_step.
  - split; [exact Hs|now apply hasUser_in].
Qed.

Lemma validateSlug_format s slug : validateSlug s = Some slug -> matchSlug slug = true.
Proof.
  unfold validateSlug. destruct (matchSlug (normalizeSlug s)) eqn:E; [|discriminate].
  now intros [= <-].
Qed.

Lemma sound_savePageForUser uid b : preserves sound (savePageForUser uid b).
Proof.
  intros w Hs. unfold Server.savePageForUser, bind, gets.
  destruct (Sql.page_by_user uid w) as [page|] eqn:P; [|exact Hs].
  destruct (validateSlug _) as [slug|] eqn:V; [|exact Hs].
  assert (Hexists : existsb (fun q => p_user_id q =? uid) (pages w) = true).
  { exact (find_some_existsb _ _ _ P). }
  assert (Hrest :
    match
      (t <- now clock ;;
       Sql.update_page uid slug
         (fun p => savedRow b slug t p) ;;;
       ret Saved) w
    with
    | Ok _ w' | Throw _ w' => sound w'
    | Diverge => True
    end).
  { unfold bind, now, Sql.update_page, ret. cbn [pages bump]. rewrite Hexists.
    cbn [andb].
    destruct (existsb (fun q => String.eqb (p_slug q) slug && negb (p_user_id q =? uid))
                (pages w)) eqn:Ex.
    - now apply (sound_same_tables w).
    - apply (sound_update_page uid slug (fun p => savedRow b slug (clock (tick w)) p) (bump w));
        try reflexivity; try assumption.
      exact (validateSlug_format _ _ V). }
  destruct (Sql.page_by_slug slug w) as [o|]; [destruct (negb _); [exact Hs|]|]; exact Hrest.
Qed.

Lemma sound_ban id b : preserves sound (ban id b).
Proof.
  unfold ban. destruct (badTarget id); [apply preserves_reply|].
  apply preserves_bind; [|intros ?; apply preserves_reply].
  intros w Hs. now apply sound_set_ban.
Qed.

Lemma sound_unban id : preserves sound (unban id).
Proof.
  unfold unban. destruct (badTarget id); [apply preserves_reply|].
  apply preserves_bind; [|intros ?; apply preserves_reply].
  intros w Hs. now apply sound_set_ban.
Qed.

(** Every request keeps the store well formed. *)
Lemma sound_handle fuel q : preserves sound (handle fuel q).
Proof.
  intros w Hs. unfold Server.handle. unfold bind at 1. unfold gets at 1.
  destruct (getUserFromCookie (q_session q) w) as [u|] eqn:U.
  - destruct (q_route q).
    + apply keeps_sound; [unfold root; cbv beta iota; repeat keeps_step|exact Hs].
    + exact Hs.
    + exact (sound_signup fuel _ w Hs).
    + exact Hs.
    + exact (sound_login fuel _ w Hs).
    + apply keeps_sound; [unfold logout; cbv beta iota; repeat keeps_step|exact Hs].
    + unfold withAuth, requireAuth. destruct (au_banned u); [exact Hs|].
      now apply sound_dashboard.
    + unfold withAuth, requireAuth. destruct (au_banned u); [exact Hs|].
      unfold dashboardPost.
      refine (preserves_bind sound _ _ (sound_savePageForUser _ _) _ w Hs).
      intros []; apply keeps_sound; unfold renderDashboard, nullPage; cbv beta iota; repeat keeps_step.
    + apply (I_withAdmin sound); [intros a; apply preserves_reply|exact Hs].
    + apply (I_withAdmin sound); [intros a|exact Hs].
      apply keeps_sound; cbv beta iota; repeat keeps_step.
    + apply (I_withAdmin sound); [intros a|exact Hs].
      apply keeps_sound; unfold adminMintKey; cbv beta iota; repeat keeps_step.
    + apply (I_withAdmin sound); [intros a|exact Hs].
      apply keeps_sound; cbv beta iota; repeat keeps_step.
    + apply (I_withAdmin sound); [intros a; apply sound_ban|exact Hs].
    + apply (I_withAdmin sound); [intros a; apply sound_unban|exact Hs].
    + apply (I_withAdmin sound); [intros a|exact Hs].
      apply keeps_sound; unfold Server.impersonate; cbv beta iota; repeat keeps_step.
    + apply (I_withAuth sound); [intros a|exact Hs].
      apply keeps_sound; unfold Server.adminReturn; cbv beta iota; repeat keeps_step.
    + apply keeps_sound; [unfold profile; cbv beta iota; repeat keeps_step|exact Hs].
  - destruct (q_route q);
      try exact Hs;
      try exact (sound_signup fuel _ w Hs);
      try exact (sound_login fuel _ w Hs).
    + apply keeps_sound; [unfold logout; cbv beta iota; repeat keeps_step|exact Hs].
    + apply keeps_sound; [unfold profile; cbv beta iota; repeat keeps_step|exact Hs].
Qed.

(** A well-formed store stays well formed under any number of requests;
    so the hypotheses on the store made by the theorems above (primary key
    and unique slug of [pages], its foreign key, well-formed slugs) hold
    in every state the application reaches from one. *)
Lemma sound_forever w w' : sound w -> later w w' -> sound w'.
Proof. apply later_preserves. intros fuel q. apply sound_handle. Qed.

End Soundness.

(** ** Signup: the branches that fail *)

Lemma unique_message column : Js.includes "UNIQUE" (Sql.unique_failed column) = true.
Proof. unfold Sql.unique_failed. cbn. reflexivity. Qed.

(** X5.  A signup that passes every check but asks for a username that is
    in use is answered "Username already taken" and writes to no table: no
    user, page or session is added and the invite key stays unused. *)
Theorem signup_taken_username_writes_nothing :
  forall fuel c b w username row u,
    validateUsername (field b "username") = Some username ->
    6 <= String.length (field b "password") ->
    Sql.invite_by_key (Js.trim (field b "invite")) w = Some row ->
    used row = false ->
    Sql.user_by_username username w = Some u ->
    exists w',
      handle fuel (mkRequest PostSignup c b) w
      = Ok (mkResponse CookieKeep (Render (SignupForm (Some "Username already taken")))) w' /\
      users w' = users w /\ pages w' = pages w /\ invite_keys w' = invite_keys w /\
      sessions w' = sessions w /\ impersonations w' = impersonations w /\
      Sql.invite_by_key (Js.trim (field b "invite")) w' = Some row.
Proof.
  intros fuel c b w username row u Hv Hp Hrow Hunused Hname.
  exists (bump (bump w)). split; [|repeat split; exact Hrow].
  change (handle fuel (mkRequest PostSignup c b) w) with (signup fuel b w).
  unfold Server.signup. rewrite Hv.
  apply Nat.ltb_ge in Hp. rewrite Hp.
  unfold bind at 1. unfold gets. rewrite Hrow, Hunused.
  unfold bind at 1. unfold hashPassword, tryCatch.
  unfold bind at 1. unfold now at 1.
  unfold bind at 1. unfold Sql.insert_user.
  cbn [users bump tick].
  rewrite (find_some_existsb _ _ _ Hname).
  rewrite unique_message. reflexivity.
Qed.

(** X6.  Signup is not atomic.  When every check passes and the user row,
    the claim on the invite key and the page have been written, but the
    session token drawn is already the token of a session, the [INSERT] of
    the session fails on its primary key; the handler answers "Username
    already taken", and the account, its page and the consumed invite key
    stay in the database. *)
Theorem signup_is_not_atomic :
  forall fuel c b w username row slug w2 s,
    let password := field b "password" in
    let invite := Js.trim (field b "invite") in
    let uid := Sql.next_user_id w in
    let token := nanoid_src (S (tick w2)) 32 in
    validateUsername (field b "username") = Some username ->
    6 <= String.length password ->
    Sql.invite_by_key invite w = Some row -> used row = false ->
    pagesHaveOwners w = true ->
    Sql.user_by_username username w = None ->
    uniqueSlugEnsure fuel username (afterClaim username password invite w) = Ok slug w2 ->
    Sql.session_by_token token w = Some s ->
    exists w',
      handle fuel (mkRequest PostSignup c b) w
      = Ok (mkResponse CookieKeep (Render (SignupForm (Some "Username already taken")))) w' /\
      users w'
      = users w ++ [mkUser uid username (bcrypt_hash (tick w) password)
                      (clock (S (tick w))) false ""] /\
      pages w' = pages w ++ [freshPage uid slug username (clock (tick w2))] /\
      sessions w' = sessions w /\
      invite_keys w'
      = map (Sql.set_used uid (clock (S (S (tick w)))) invite) (invite_keys w) /\
      consumed invite w' = true.
Proof.
  intros fuel c b w username row slug w2 s password invite uid token
    Hv Hp Hrow Hunused Hfk Hname Hslug Htok.
  exists (bump (bump (withFreshPage uid slug username w2))).
  destruct (uniqueSlugEnsure_advance _ _ _ _ _ Hslug) as [n Hw2].
  destruct (advance_frame n (afterClaim username password invite w))
    as (Hu & Hpg & Hk & Hs & Hi & _).
  rewrite <- Hw2 in Hu, Hpg, Hk, Hs, Hi.
  split.
  { change (handle fuel (mkRequest PostSignup c b) w) with (signup fuel b w).
    unfold Server.signup. fold password invite. rewrite Hv.
    apply Nat.ltb_ge in Hp. rewrite Hp.
    unfold bind at 1. unfold gets. rewrite Hrow, Hunused.
    unfold bind at 1. unfold hashPassword, tryCatch.
    unfold bind at 1. unfold now at 1.
    unfold bind at 1. unfold Sql.insert_user.
    cbn [users bump tick].
    apply find_none_existsb in Hname. rewrite Hname.
    unfold bind at 1. unfold now at 1. cbn [tick bump set_users].
    unfold bind at 1. unfold Sql.update_invite_used, modify.
    change (Sql.next_user_id (bump (bump w))) with uid.
    match goal with
    | |- context [bind (ensurePageForUser _ _ _) _ ?w0] =>
        change w0 with (afterClaim username password invite w)
    end.
    unfold bind at 1.
    rewrite (ensurePageForUser_cases_user _ _ _ _
               (hasUser_afterClaim username password invite w)).
    change (Sql.next_user_id w) with uid.
    assert (Hnp : Sql.page_by_user uid (afterClaim username password invite w) = None).
    { exact (new_user_has_no_page w Hfk). }
    rewrite Hnp, Hslug.
    unfold bind, nanoid, now, Sql.insert_session, ret, Server.withFreshPage.
    cbn [sessions tick bump set_pages].
    change (sessions (afterClaim username password invite w)) with (sessions w) in Hs.
    rewrite Hs. fold token. rewrite (find_some_existsb _ _ _ Htok).
    rewrite unique_message. reflexivity. }
  assert (Hkey : String.eqb (k_key row) invite = true).
  { now apply find_some in Hrow as [_ E]. }
  cbn [users pages sessions invite_keys Server.withFreshPage set_pages bump].
  rewrite Hu, Hpg, Hs, Hk.
  repeat (split; [reflexivity|]).
  unfold consumed, Sql.invite_by_key.
  cbn [invite_keys bump set_pages Server.withFreshPage]. rewrite Hk.
  change (find (fun k => String.eqb (k_key k) invite)
            (invite_keys (afterClaim username password invite w)))
    with (Sql.invite_by_key invite
            (set_invite_keys (map (Sql.set_used uid (clock (S (S (tick w)))) invite)) w)).
  rewrite invite_by_key_set_used, Hrow. cbn [option_map].
  unfold Sql.set_used, used. rewrite Hkey. cbn.
  unfold uid, Sql.next_user_id. reflexivity.
Qed.

(** ** Signing up, then logging in *)

Lemma login_ok fuel b w u w1 :
  Sql.user_by_username (Js.trim (Js.toLowerCase (field b "username"))) w = Some u ->
  u_banned u = false ->
  bcrypt_compare (field b "password") (u_password_hash u) = true ->
  ensurePageForUser fuel (u_id u) (u_username u) w = Ok tt w1 ->
  Sql.session_by_token (nanoid_src (tick w1) 32) w = None ->
  login fuel b w
  = Ok (mkResponse (CookieSet (nanoid_src (tick w1) 32)) (Redirect "/dashboard"))
      (withSession (nanoid_src (tick w1) 32) (u_id u) w1).
Proof.
  intros Hu Hb Hc He Hfresh.
  destruct (ensurePageForUser_frame _ _ _ _ _ He) as (_ & _ & Hss & _).
  unfold Server.login, bind, gets. rewrite Hu, Hb, Hc. cbn [negb]. rewrite He.
  unfold nanoid, now, Sql.insert_session, ret. cbn [sessions bump tick].
  rewrite Hss. apply find_none_existsb in Hfresh. rewrite Hfresh. reflexivity.
Qed.

Lemma find_app_new {A} (f : A -> bool) l x :
  find f l = None -> f x = true -> find f (l ++ [x]) = Some x.
Proof. intros H E. rewrite (find_app_none _ _ _ H). simpl. now rewrite E. Qed.

Lemma user_by_id_none_next w : Sql.user_by_id (Sql.next_user_id w) w = None.
Proof.
  unfold Sql.user_by_id. destruct (find _ (users w)) as [u|] eqn:F; [|reflexivity].
  apply find_some in F as [Hin E]. apply Nat.eqb_eq in E.
  pose proof (next_user_id_fresh w u Hin). lia.
Qed.

(** X7.  Signing up and logging in fit together.  After a successful signup
    the cookie it sets resolves to the new account; and, given that
    [bcrypt.compare] accepts a password against its own [bcrypt.hash], a
    login with the form fields of the signup succeeds on the store the
    signup left, adds no second page, and its cookie resolves to the same
    account.  (Tokens drawn are assumed non-empty and not in use.) *)
Theorem signup_then_login :
  forall fuel fuel' c c' b w username row slug w2,
    let password := field b "password" in
    let invite := Js.trim (field b "invite") in
    let uid := Sql.next_user_id w in
    let token := nanoid_src (S (tick w2)) 32 in
    let w' := withSession token uid (withFreshPage uid slug username w2) in
    let token' := nanoid_src (tick w') 32 in
    let w'' := withSession token' uid w' in
    (forall k p, bcrypt_compare p (bcrypt_hash k p) = true) ->
    validateUsername (field b "username") = Some username ->
    6 <= String.length password ->
    Sql.invite_by_key invite w = Some row -> used row = false ->
    pagesHaveOwners w = true ->
    Sql.user_by_username username w = None ->
    uniqueSlugEnsure fuel username (afterClaim username password invite w) = Ok slug w2 ->
    token <> "" -> Sql.session_by_token token w = None ->
    token' <> "" -> Sql.session_by_token token' w' = None ->
    handle fuel (mkRequest PostSignup c b) w
    = Ok (mkResponse (CookieSet token) (Redirect "/dashboard")) w' /\
    getUserFromCookie (Some token) w' = Some (mkAuthUser uid username false "") /\
    handle fuel' (mkRequest PostLogin c' b) w'
    = Ok (mkResponse (CookieSet token') (Redirect "/dashboard")) w'' /\
    getUserFromCookie (Some token') w'' = Some (mkAuthUser uid username false "") /\
    pages w'' = pages w' /\ users w'' = users w'.
Proof.
  intros fuel fuel' c c' b w username row slug w2 password invite uid token w' token' w''
    Hbc Hv Hp Hrow Hunused Hfk Hname Hslug Ht Htok Ht' Htok'.
  set (new := mkUser uid username (bcrypt_hash (tick w) password)
                (clock (S (tick w))) false "").
  destruct (uniqueSlugEnsure_advance _ _ _ _ _ Hslug) as [n Hw2].
  destruct (advance_frame n (afterClaim username password invite w))
    as (Hu & Hpg & _ & Hs & _ & _).
  rewrite <- Hw2 in Hu, Hpg, Hs.
  assert (Husers : users w' = users w ++ [new]).
  { unfold w'. cbn [users Server.withSession Server.withFreshPage set_sessions set_pages bump].
    now rewrite Hu. }
  assert (Hpages : pages w' = pages w ++ [freshPage uid slug username (clock (tick w2))]).
  { unfold w'. cbn [pages Server.withSession Server.withFreshPage set_sessions set_pages bump].
    now rewrite Hpg. }
  assert (Hsess : sessions w' = sessions w ++ [mkSession token uid (clock (S (S (tick w2))))]).
  { unfold w'. cbn [sessions Server.withSession Server.withFreshPage set_sessions set_pages
                      bump tick].
    now rewrite Hs. }
  assert (Hid : Sql.user_by_id uid w' = Some new).
  { unfold Sql.user_by_id. rewrite Husers. apply find_app_new.
    - exact (user_by_id_none_next w).
    - cbn. apply Nat.eqb_refl. }
  assert (Hbyname : Sql.user_by_username username w' = Some new).
  { unfold Sql.user_by_username. rewrite Husers. apply find_app_new.
    - exact Hname.
    - cbn. apply String.eqb_refl. }
  assert (Hpage : Sql.page_by_user uid w'
                  = Some (freshPage uid slug username (clock (tick w2)))).
  { unfold Sql.page_by_user. rewrite Hpages. apply find_app_new.
    - exact (new_user_has_no_page w Hfk).
    - cbn. apply Nat.eqb_refl. }
  assert (Hs1 : Sql.session_by_token token w'
                = Some (mkSession token uid (clock (S (S (tick w2)))))).
  { unfold Sql.session_by_token. rewrite Hsess. apply find_app_new.
    - exact Htok.
    - cbn. apply String.eqb_refl. }
  assert (Hensure : ensurePageForUser fuel' uid username w' = Ok tt w').
  { rewrite ensurePageForUser_cases. now rewrite Hpage. }
  assert (Htrim : Js.trim (Js.toLowerCase (field b "username")) = username).
  { unfold validateUsername in Hv. destruct (matchUsername _); congruence. }
  split; [|split; [|split; [|split]]].
  - change (handle fuel (mkRequest PostSignup c b) w) with (signup fuel b w).
    exact (signup_ok fuel b w username row slug w2 Hv Hp Hrow Hunused Hfk Hname Hslug Htok).
  - exact (getUserFromCookie_some token w' _ new Ht Hs1 Hid).
  - change (handle fuel' (mkRequest PostLogin c' b) w') with (login fuel' b w').
    apply (login_ok fuel' b w' new w').
    + now rewrite Htrim.
    + reflexivity.
    + apply Hbc.
    + exact Hensure.
    + exact Htok'.
  - apply (getUserFromCookie_some token' w'' (mkSession token' uid (clock (S (tick w')))) new Ht').
    + unfold Sql.session_by_token, w''.
      cbn [sessions Server.withSession set_sessions bump].
      apply find_app_new; [exact Htok'|]. cbn. apply String.eqb_refl.
    + exact Hid.
  - split; reflexivity.
Qed.

(** ** Logout *)

Lemma filter_idem {A} (f : A -> bool) l : filter f (filter f l) = filter f l.
Proof.
  induction l as [|a l IH]; simpl; [reflexivity|].
  destruct (f a) eqn:E; simpl; [now rewrite E, IH|exact IH].
Qed.

Lemma handle_signup fuel c b w :
  handle fuel (mkRequest PostSignup c b) w = signup fuel b w.
Proof. reflexivity. Qed.

Lemma handle_login fuel c b w :
  handle fuel (mkRequest PostLogin c b) w = login fuel b w.
Proof. reflexivity. Qed.

Lemma handle_logout fuel c b w :
  handle fuel (mkRequest PostLogout c b) w = logout c w.
Proof. reflexivity. Qed.

(** X8.  [POST /logout] revokes exactly the token it is presented with,
    whoever presents it.  The session and the impersonation record on that
    token are deleted, so the token no longer resolves to a user; any other
    token resolves as before; users, pages and invite keys are untouched;
    logging out a second time changes nothing; and a request without a
    cookie changes nothing at all.  The answer always clears the cookie and
    redirects to [/login]. *)
Theorem logout_revokes_the_presented_token :
  forall fuel b w,
    (forall t,
        t <> "" ->
        exists w',
          handle fuel (mkRequest PostLogout (Some t) b) w
          = Ok (mkResponse CookieClear (Redirect "/login")) w' /\
          Sql.session_by_token t w' = None /\
          Sql.impersonation_by_token t w' = None /\
          getUserFromCookie (Some t) w' = None /\
          (forall t',
              t' <> t ->
              Sql.session_by_token t' w' = Sql.session_by_token t' w /\
              Sql.impersonation_by_token t' w' = Sql.impersonation_by_token t' w /\
              getUserFromCookie (Some t') w' = getUserFromCookie (Some t') w) /\
          users w' = users w /\ pages w' = pages w /\ invite_keys w' = invite_keys w /\
          handle fuel (mkRequest PostLogout (Some t) b) w'
          = Ok (mkResponse CookieClear (Redirect "/login")) w') /\
    (forall c,
        truthyToken c = None ->
        handle fuel (mkRequest PostLogout c b) w
        = Ok (mkResponse CookieClear (Redirect "/login")) w).
Proof.
  intros fuel b w. split.
  - intros t Ht.
    exists (set_impersonations (filter (fun i => negb (String.eqb (i_token i) t)))
              (set_sessions (filter (fun s => negb (String.eqb (s_token s) t))) w)).
    assert (Htr : truthyToken (Some t) = Some t).
    { destruct t; [congruence|reflexivity]. }
    assert (Hs : forall t', t' <> t ->
              Sql.session_by_token t'
                (set_impersonations (filter (fun i => negb (String.eqb (i_token i) t)))
                   (set_sessions (filter (fun s => negb (String.eqb (s_token s) t))) w))
              = Sql.session_by_token t' w).
    { intros t' Hne. unfold Sql.session_by_token. cbn.
      now apply (find_filter_other s_token). }
    split; [|split; [|split; [|split; [|split; [|split; [|split; [|split]]]]]]];
      try reflexivity.
    + rewrite handle_logout. unfold logout. rewrite Htr. reflexivity.
    + unfold Sql.session_by_token. cbn. apply (find_filter_same s_token).
    + unfold Sql.impersonation_by_token. cbn. apply (find_filter_same i_token).
    + unfold getUserFromCookie. rewrite Htr.
      unfold Sql.session_by_token. cbn. now rewrite (find_filter_same s_token).
    + intros t' Hne. split; [now apply Hs|]. split.
      * unfold Sql.impersonation_by_token. cbn. now apply (find_filter_other i_token).
      * unfold getUserFromCookie. destruct (truthyToken (Some t')) as [tok|] eqn:T; [|reflexivity].
        assert (tok = t') by (simpl in T; destruct (Js.isEmpty t'); congruence). subst tok.
        rewrite (Hs t' Hne). reflexivity.
    + rewrite handle_logout. unfold logout. rewrite Htr.
      unfold bind, Sql.delete_session, Sql.delete_impersonation, modify, ret.
      unfold set_impersonations, set_sessions. cbn. now rewrite !filter_idem.
  - intros c Hc. rewrite handle_logout. unfold logout. now rewrite Hc.
Qed.

(** ** The guards in front of the handlers *)

(** X9.  The guards turn strangers away before anything is written.  On
    every route registered behind [requireAuth], a request whose cookie
    resolves to no user is redirected to [/login]; one whose user is banned
    is answered 403 "Banned"; and on every route registered behind
    [requireAdmin], a request of a user other than user 1 is answered 403
    "Forbidden".  In all three cases the store is left as it was. *)
Theorem guards_turn_strangers_away :
  forall fuel r c b w,
    (behindRequireAdmin r = true -> behindRequireAuth r = true) /\
    (behindRequireAuth r = true ->
     getUserFromCookie c w = None ->
     handle fuel (mkRequest r c b) w
     = Ok (mkResponse CookieKeep (Redirect "/login")) w) /\
    (behindRequireAuth r = true ->
     forall u,
       getUserFromCookie c w = Some u -> au_banned u = true ->
       handle fuel (mkRequest r c b) w
       = Ok (mkResponse CookieKeep (Send 403 "Banned")) w) /\
    (behindRequireAdmin r = true ->
     forall u,
       getUserFromCookie c w = Some u -> au_banned u = false -> au_id u <> 1 ->
       handle fuel (mkRequest r c b) w
       = Ok (mkResponse CookieKeep (Send 403 "Forbidden")) w).
Proof.
  intros fuel r c b w. split; [|split; [|split]].
  - destruct r; simpl; congruence.
  - intros Hr Hu. unfold Server.handle, bind, gets. cbn [q_route q_session q_body].
    rewrite Hu. destruct r; try discriminate; reflexivity.
  - intros Hr u Hu Hb. apply (handle_banned _ _ _ _ _ _ Hu Hb). now left.
  - intros Hr u Hu Hb Hid. unfold Server.handle, bind, gets.
    cbn [q_route q_session q_body]. rewrite Hu.
    apply Nat.eqb_neq in Hid.
    destruct r; try discriminate;
      unfold withAdmin, withAuth, requireAuth, requireAdmin; rewrite Hb, Hid; reflexivity.
Qed.

(** ** Pages: served, created on demand, edited *)

Lemma handle_root fuel c b w :
  handle fuel (mkRequest GetRoot c b) w = root (getUserFromCookie c w) w.
Proof. reflexivity. Qed.

(** X10.  In a well-formed store every page is served under its own slug:
    [GET /:slug] with the slug of a stored page renders that very page.  And
    [GET /] sends a logged-in user to [/] followed by the slug of the user's
    own page, or to [/dashboard] when the user has no page yet.  (This is
    about the requests that reach the route [/:slug], the last one
    registered: a path such as [/login] is answered by its own route.) *)
Theorem pages_are_served_under_their_slug :
  forall fuel c b w,
    sound w ->
    (forall p,
        In p (pages w) ->
        handle fuel (mkRequest (GetSlug (p_slug p)) c b) w
        = Ok (mkResponse CookieKeep (Render (ProfileView p (p_links_json p)))) w) /\
    (forall u,
        getUserFromCookie c w = Some u -> au_banned u = false ->
        match Sql.page_by_user (au_id u) w with
        | Some p =>
            In p (pages w) /\
            handle fuel (mkRequest GetRoot c b) w
            = Ok (mkResponse CookieKeep (Redirect ("/" ++ p_slug p))) w
        | None =>
            handle fuel (mkRequest GetRoot c b) w
            = Ok (mkResponse CookieKeep (Redirect "/dashboard")) w
        end).
Proof.
  intros fuel c b w (_ & Hslugs & _ & _ & Hfmt). split.
  - intros p Hin. rewrite handle_profile. unfold profile, bind, gets, Sql.page_by_slug.
    rewrite (normalizeSlug_fixed _ (Hfmt p Hin)).
    now rewrite (find_unique p_slug _ _ Hslugs Hin).
  - intros u Hu Hb. rewrite handle_root, Hu. unfold root. rewrite Hb.
    unfold bind, gets.
    destruct (Sql.page_by_user (au_id u) w) as [p|] eqn:P; [|reflexivity].
    split; [|reflexivity]. now apply find_some in P.
Qed.

Lemma handle_dashboard fuel c b w a :
  getUserFromCookie c w = Some a -> au_banned a = false ->
  handle fuel (mkRequest GetDashboard c b) w = dashboard nanoid_src clock fuel c a w.
Proof.
  intros Ha Hb. unfold Server.handle, bind, gets. cbn [q_route q_session q_body].
  rewrite Ha. unfold withAuth, requireAuth. now rewrite Hb.
Qed.

Lemma handle_dashboardPost fuel c b w a :
  getUserFromCookie c w = Some a -> au_banned a = false ->
  handle fuel (mkRequest PostDashboard c b) w = dashboardPost clock toNumber c a b w.
Proof.
  intros Ha Hb. unfold Server.handle, bind, gets. cbn [q_route q_session q_body].
  rewrite Ha. unfold withAuth, requireAuth. now rewrite Hb.
Qed.

(** X11.  [GET /dashboard] never fails for want of a page.  For a user who
    is logged in and not banned, while the table holds fewer than 9998
    pages, the dashboard is rendered with the user's page: the stored one,
    the store being left as it is, or, when there is none, a page created on
    the spot under a slug that was free. *)
Theorem dashboard_creates_the_missing_page :
  forall fuel c b w u,
    getUserFromCookie c w = Some u -> au_banned u = false ->
    length (pages w) < N.to_nat 9998 -> length (pages w) <= fuel ->
    exists w' page,
      handle fuel (mkRequest GetDashboard c b) w
      = Ok (mkResponse CookieKeep
              (Render (DashboardView u page (p_links_json page) None None
                         (au_id u =? 1) (isImpersonating c w)))) w' /\
      Sql.page_by_user (au_id u) w' = Some page /\
      match Sql.page_by_user (au_id u) w with
      | Some p => w' = w /\ page = p
      | None =>
          exists slug,
            Sql.page_by_slug slug w = None /\
            page = freshPage (au_id u) slug (au_username u) (clock (tick w)) /\
            w' = withFreshPage (au_id u) slug (au_username u) w
      end.
Proof.
  intros fuel c b w u Hu Hb Hsmall Hfuel.
  rewrite (handle_dashboard _ _ _ _ _ Hu Hb). unfold dashboard.
  unfold bind at 1.
  rewrite (ensurePageForUser_cases_user _ _ _ _ (getUserFromCookie_hasUser _ _ _ Hu)).
  destruct (Sql.page_by_user (au_id u) w) as [p|] eqn:P.
  - exists w, p. split; [|split; [exact P|now split]].
    unfold renderDashboard, bind, gets. now rewrite P.
  - destruct (uniqueSlugEnsure_total fuel (au_username u) w Hsmall Hfuel) as [slug U].
    rewrite U.
    destruct (uniqueSlugEnsure_returns_free _ _ _ _ _ U) as [Hfree _].
    assert (P' : Sql.page_by_user (au_id u) (withFreshPage (au_id u) slug (au_username u) w)
                 = Some (freshPage (au_id u) slug (au_username u) (clock (tick w)))).
    { unfold Sql.page_by_user, Server.withFreshPage. cbn [pages set_pages bump].
      apply find_app_new; [exact P|]. cbn. apply Nat.eqb_refl. }
    exists (withFreshPage (au_id u) slug (au_username u) w),
           (freshPage (au_id u) slug (au_username u) (clock (tick w))).
    split; [|split; [exact P'|]].
    + unfold renderDashboard, bind, gets. now rewrite P'.
    + exists slug. split; [|now split].
      unfold slugTaken in Hfree. now destruct (Sql.page_by_slug slug w).
Qed.

(** X12.  What [POST /dashboard] answers to a user who has a page, the
    slugs of the table being distinct.  If the submitted slug (or the
    current one, when none is submitted) does not validate, or validates to
    the slug of another user's page, the dashboard is rendered with the
    stored page and the error, and nothing is written; otherwise the row is
    rewritten and the dashboard is rendered with the rewritten row and
    "Saved". *)
Theorem dashboard_edit_outcomes :
  forall fuel c b w u page,
    getUserFromCookie c w = Some u -> au_banned u = false ->
    Sql.page_by_user (au_id u) w = Some page ->
    NoDup (map p_slug (pages w)) ->
    let view p error ok :=
      mkResponse CookieKeep
        (Render (DashboardView u p (p_links_json p) error ok
                   (au_id u =? 1) (isImpersonating c w))) in
    let rejected e :=
      handle fuel (mkRequest PostDashboard c b) w = Ok (view page (Some e) None) w in
    let saved slug :=
      handle fuel (mkRequest PostDashboard c b) w
      = Ok (view (savedRow b slug (clock (tick w)) page) None (Some "Saved"))
          (afterSave (au_id u) b slug w) in
    match validateSlug (Js.orElse (field b "slug") (p_slug page)) with
    | None => rejected "Slug must be 2-32: a-z 0-9 _ -"
    | Some slug =>
        match Sql.page_by_slug slug w with
        | Some o => if p_user_id o =? au_id u then saved slug else rejected "That slug is taken"
        | None => saved slug
        end
    end.
Proof.
  intros fuel c b w u page Hu Hb Hp Hnd view rejected saved.
  assert (Hrej : forall e, savePageForUser (au_id u) b w = Ok (NotSaved e) w -> rejected e).
  { intros e E. unfold rejected. rewrite (handle_dashboardPost _ _ _ _ _ Hu Hb).
    unfold dashboardPost. unfold bind at 1. rewrite E.
    unfold renderDashboard, bind, gets. now rewrite Hp. }
  assert (Hsav : forall slug,
             validateSlug (Js.orElse (field b "slug") (p_slug page)) = Some slug ->
             (forall q, In q (pages w) -> p_slug q = slug -> p_user_id q = au_id u) ->
             saved slug).
  { intros slug V Hfree. unfold saved. rewrite (handle_dashboardPost _ _ _ _ _ Hu Hb).
    unfold dashboardPost. unfold bind at 1.
    rewrite (savePageForUser_ok _ _ _ _ _ Hp V Hfree).
    unfold renderDashboard, bind, gets.
    now rewrite (page_by_user_afterSave _ _ _ _ _ Hp). }
  destruct (validateSlug _) as [slug|] eqn:V.
  - destruct (Sql.page_by_slug slug w) as [o|] eqn:O.
    + destruct (Nat.eqb_spec (p_user_id o) (au_id u)) as [E|E].
      * apply Hsav; [reflexivity|]. intros q Hq Eq.
        apply find_some in O as [Ho Eo]. apply String.eqb_eq in Eo.
        rewrite (unique_column p_slug _ q o Hnd Hq Ho); [exact E|congruence].
      * apply Hrej. unfold Server.savePageForUser, bind, gets. rewrite Hp, V, O.
        apply Nat.eqb_neq in E. now rewrite E.
    + apply Hsav; [reflexivity|]. intros q Hq Eq.
      apply (find_none _ _ O) in Hq. cbn in Hq.
      apply String.eqb_neq in Hq. contradiction.
  - apply Hrej. unfold Server.savePageForUser, bind, gets. now rewrite Hp, V.
Qed.

Lemma prefix_ci_slice0 tok n s :
  Js.prefix_ci tok s = true -> String.length tok <= n ->
  Js.prefix_ci tok (Js.slice0 n s) = true.
Proof.
  revert n s. induction tok as [|a tok IH]; intros n s; [reflexivity|].
  destruct s as [|c s]; [discriminate|]. destruct n as [|n]; simpl; [lia|].
  intros H L. apply andb_true_iff in H as [H1 H2]. rewrite H1. simpl.
  apply IH; [exact H2|lia].
Qed.

Lemma matchHttp_slice0 s : matchHttp s = true -> matchHttp (Js.slice0 400 s) = true.
Proof.
  unfold matchHttp. intros H. apply orb_true_iff in H as [H|H].
  - rewrite (prefix_ci_slice0 _ 400 _ H); [reflexivity|simpl; lia].
  - rewrite (prefix_ci_slice0 _ 400 _ H); [apply orb_true_r|simpl; lia].
Qed.

Lemma length_slice0_le n s : String.length (Js.slice0 n s) <= n.
Proof. rewrite length_slice0. apply Nat.le_min_l. Qed.

(** Every link that the loop of [savePageForUser] keeps is a web link. *)
Lemma collectLinks_safe b :
  Forall (fun l => matchHttp (l_url l) = true /\
                   String.length (l_url l) <= 400 /\
                   1 <= String.length (l_label l) <= 32)
    (collectLinks b).
Proof.
  rewrite collectLinks_spec. unfold keptLinks. apply Forall_forall.
  intros l Hl. apply in_map_iff in Hl as [i [<- Hi]].
  apply filter_In in Hi as [_ K]. unfold keptIndex in K.
  apply andb_true_iff in K as [_ K]. unfold savedEntry. cbn [l_url l_label].
  split; [now apply matchHttp_slice0|]. split; [apply length_slice0_le|].
  pose proof (length_slice0_le 32 (labelOf b i)) as L.
  destruct (Js.slice0 32 (labelOf b i)); simpl in *; lia.
Qed.

(** X13.  Whatever is submitted, a page that [savePageForUser] has saved
    respects the limits of the handler: it still belongs to the same user,
    its slug has the slug format, display name, bio, URLs, accent and style
    sheet are cut to 40, 240, 400, 16 and 6000 code units, the avatar URL is
    never empty, the song volume lies between 0 and 1, and there are at most
    14 links, each with an [http://] or [https://] URL of at most 400 code
    units and a label of 1 to 32 code units. *)
Theorem saved_page_respects_the_limits :
  forall uid b w w',
    savePageForUser uid b w = Ok Saved w' ->
    exists page',
      Sql.page_by_user uid w' = Some page' /\
      p_user_id page' = uid /\
      matchSlug (p_slug page') = true /\
      String.length (p_display_name page') <= 40 /\
      String.length (p_bio page') <= 240 /\
      1 <= String.length (p_avatar_url page') <= 400 /\
      String.length (p_bg_url page') <= 400 /\
      String.length (p_accent page') <= 16 /\
      String.length (p_song_url page') <= 400 /\
      (0 <= p_song_volume page')%Q /\ (p_song_volume page' <= 1)%Q /\
      String.length (p_custom_css page') <= N.to_nat 6000 /\
      length (p_links_json page') <= 14 /\
      Forall (fun l => matchHttp (l_url l) = true /\
                       String.length (l_url l) <= 400 /\
                       1 <= String.length (l_label l) <= 32)
        (p_links_json page').
Proof.
  intros uid b w w' H.
  apply savePageForUser_saved in H as (page & slug & Hp & V & ->).
  eexists. split; [apply (page_by_user_afterSave _ _ _ _ _ Hp)|].
  cbn [Server.savedRow p_user_id p_slug p_display_name p_bio p_avatar_url p_bg_url
         p_accent p_song_url p_song_volume p_custom_css p_links_json].
  split. { apply find_some in Hp as [_ E]. now apply Nat.eqb_eq in E. }
  split. { exact (validateSlug_format _ _ V). }
  split; [apply length_slice0_le|]. split; [apply length_slice0_le|].
  split.
  { pose proof (length_slice0_le 400 (Js.trim (field b "avatar_url"))) as L.
    destruct (Js.slice0 400 (Js.trim (field b "avatar_url"))); simpl in *; lia. }
  split; [apply length_slice0_le|]. split; [apply length_slice0_le|].
  split; [apply length_slice0_le|].
  split; [apply clamp_range; discriminate|]. split; [apply clamp_range; discriminate|].
  split; [unfold sanitizeCss; apply length_slice0_le|].
  split; [|apply collectLinks_safe].
  rewrite collectLinks_spec. unfold keptLinks. rewrite length_map.
  etransitivity; [apply filter_length_le|]. now rewrite length_seq.
Qed.

(** ** The administrator's writes *)

Lemma handle_mint fuel c b w a :
  getUserFromCookie c w = Some a -> au_id a = 1 -> au_banned a = false ->
  handle fuel (mkRequest PostAdminKeys c b) w = adminMintKey nanoid_src clock a w.
Proof.
  intros Ha Hid Hb. unfold Server.handle, bind, gets. cbn [q_route q_session q_body].
  rewrite Ha. unfold withAdmin, withAuth, requireAuth, requireAdmin. now rewrite Hb, Hid.
Qed.

Lemma find_app_other {A} (f : A -> bool) l x :
  f x = false -> find f (l ++ [x]) = find f l.
Proof.
  intros E. induction l as [|a l IH]; simpl; [now rewrite E|].
  destruct (f a); auto.
Qed.

(** X14.  [POST /admin/keys] by the administrator stores the upper-cased
    draw as a new invite key, created by user 1 and unused, and leaves every
    other key and every other table as they are.  It never overwrites a
    key: when the draw equals a stored key the [INSERT] fails on the primary
    key and nothing is written. *)
Theorem minted_key_is_new_and_unused :
  forall fuel c b w u,
    getUserFromCookie c w = Some u -> au_id u = 1 -> au_banned u = false ->
    let key := Js.toUpperCase (nanoid_src (tick w) 10) in
    let row := mkInviteKey key 1 None None (clock (S (tick w))) in
    match Sql.invite_by_key key w with
    | None =>
        exists w',
          handle fuel (mkRequest PostAdminKeys c b) w
          = Ok (mkResponse CookieKeep (Redirect "/admin/keys")) w' /\
          invite_keys w' = invite_keys w ++ [row] /\
          Sql.invite_by_key key w' = Some row /\
          used row = false /\
          (forall k, k <> key -> Sql.invite_by_key k w' = Sql.invite_by_key k w) /\
          users w' = users w /\ pages w' = pages w /\
          sessions w' = sessions w /\ impersonations w' = impersonations w
    | Some _ =>
        exists w',
          handle fuel (mkRequest PostAdminKeys c b) w
          = Throw (Sql.unique_failed "invite_keys.key") w' /\
          invite_keys w' = invite_keys w /\
          users w' = users w /\ pages w' = pages w /\
          sessions w' = sessions w /\ impersonations w' = impersonations w
    end.
Proof.
  intros fuel c b w u Hu Hid Hb key row.
  rewrite (handle_mint _ _ _ _ _ Hu Hid Hb).
  unfold adminMintKey, bind, nanoid, now, Sql.insert_invite_key, reply, ret.
  cbn [invite_keys bump tick]. fold key. rewrite Hid. fold row.
  destruct (Sql.invite_by_key key w) as [old|] eqn:K.
  - rewrite (find_some_existsb _ _ _ K). eexists. split; [reflexivity|].
    repeat split.
  - pose proof K as K'. apply find_none_existsb in K'. rewrite K'.
    eexists. split; [reflexivity|]. cbn [invite_keys set_invite_keys bump].
    split; [reflexivity|]. split; [|split; [reflexivity|split; [|repeat split]]].
    + unfold Sql.invite_by_key. cbn [invite_keys]. apply find_app_new; [exact K|].
      cbn. apply String.eqb_refl.
    + intros k Hk. unfold Sql.invite_by_key. cbn [invite_keys].
      apply find_app_other. cbn. apply String.eqb_neq. congruence.
Qed.

Lemma map_set_ban_absent flag reason X l :
  (forall u, In u l -> u_id u <> X) -> map (Sql.set_ban flag reason X) l = l.
Proof.
  intros H. induction l as [|a l IH]; simpl; [reflexivity|].
  rewrite IH by (intros u Hu; apply H; now right).
  unfold Sql.set_ban. specialize (H a (or_introl eq_refl)).
  apply Nat.eqb_neq in H. now rewrite H.
Qed.

Lemma map_set_ban_undo reason X l :
  (forall u, In u l -> u_id u = X -> u_banned u = false /\ u_ban_reason u = "") ->
  map (Sql.set_ban false "" X) (map (Sql.set_ban true reason X) l) = l.
Proof.
  intros H. induction l as [|a l IH]; simpl; [reflexivity|].
  rewrite IH by (intros u Hu; apply H; now right).
  f_equal. unfold Sql.set_ban.
  destruct (Nat.eqb_spec (u_id a) X) as [E|E].
  - cbn [u_id]. apply Nat.eqb_eq in E as E'. rewrite E'.
    destruct (H a (or_introl eq_refl) E) as [Hb Hr].
    destruct a; cbn in *. now subst.
  - apply Nat.eqb_neq in E. now rewrite E.
Qed.

Lemma set_users_same f w : f (users w) = users w -> set_users f w = w.
Proof. destruct w. unfold set_users. cbn. now intros ->. Qed.

(** X15.  The corners of ban and unban, for the administrator.  The ids 0
    and 1 are refused with 400 "no", so the administrator cannot be banned;
    a ban of an id that no user has is answered like any other ban and
    changes nothing; and banning a user who was not banned, then unbanning,
    gives back the store exactly as it was. *)
Theorem ban_corner_cases :
  forall fuel c b w admin,
    getUserFromCookie c w = Some admin -> au_id admin = 1 -> au_banned admin = false ->
    (forall id,
        id = 0 \/ id = 1 ->
        handle fuel (mkRequest (PostBan id) c b) w
        = Ok (mkResponse CookieKeep (Send 400 "no")) w /\
        handle fuel (mkRequest (PostUnban id) c b) w
        = Ok (mkResponse CookieKeep (Send 400 "no")) w) /\
    (forall id,
        id <> 0 -> id <> 1 ->
        (forall u, In u (users w) -> u_id u <> id) ->
        handle fuel (mkRequest (PostBan id) c b) w
        = Ok (mkResponse CookieKeep (Redirect "/admin/users")) w) /\
    (forall id,
        id <> 0 -> id <> 1 ->
        (forall u, In u (users w) -> u_id u = id ->
                   u_banned u = false /\ u_ban_reason u = "") ->
        exists w1,
          handle fuel (mkRequest (PostBan id) c b) w
          = Ok (mkResponse CookieKeep (Redirect "/admin/users")) w1 /\
          handle fuel (mkRequest (PostUnban id) c b) w1
          = Ok (mkResponse CookieKeep (Redirect "/admin/users")) w).
Proof.
  intros fuel c b w admin Ha Hid Hnb.
  assert (Hbad : forall id, id <> 0 -> id <> 1 -> badTarget id = false).
  { intros id H0 H1. unfold badTarget. apply Nat.eqb_neq in H0, H1. now rewrite H0, H1. }
  split; [|split].
  - intros id Hbadid.
    rewrite !(handle_as_admin _ _ _ _ _ _ Ha Hid Hnb).
    unfold ban, unban. now destruct Hbadid as [->| ->].
  - intros id H0 H1 Habsent.
    rewrite (handle_as_admin _ _ _ _ _ _ Ha Hid Hnb).
    unfold ban. rewrite (Hbad id H0 H1).
    unfold bind, Sql.update_user_ban, modify, reply, ret.
    rewrite set_users_same; [reflexivity|]. now apply map_set_ban_absent.
  - intros id H0 H1 Hfree.
    exists (set_users (map (Sql.set_ban true (Js.slice0 120 (field b "reason")) id)) w).
    split.
    + rewrite (handle_as_admin _ _ _ _ _ _ Ha Hid Hnb).
      unfold ban. now rewrite (Hbad id H0 H1).
    + assert (Ha1 : getUserFromCookie c
                      (set_users (map (Sql.set_ban true (Js.slice0 120 (field b "reason")) id)) w)
                    = Some admin).
      { rewrite getUserFromCookie_ban, Ha. cbn. unfold authBan.
        rewrite Hid. apply Nat.neq_sym, Nat.eqb_neq in H1. now rewrite H1. }
      rewrite (handle_as_admin _ _ _ _ _ _ Ha1 Hid Hnb).
      unfold unban. rewrite (Hbad id H0 H1).
      unfold bind, Sql.update_user_ban, modify, reply, ret.
      f_equal. destruct w. unfold set_users. cbn. f_equal.
      now apply map_set_ban_undo.
Qed.

(** ** Invariants that depend on who is asking *)

Lemma withAuth_is_user (I : Store -> Prop) user h :
  (forall u, user = Some u -> au_banned u = false -> preserves I (h u)) ->
  preserves I (withAuth user h).
Proof.
  intros H. unfold withAuth, requireAuth. destruct user as [u|]; [|apply preserves_reply].
  destruct (au_banned u) eqn:B; [apply preserves_reply|now apply H].
Qed.

Lemma withAdmin_is_user_1 (I : Store -> Prop) user h :
  (forall u, user = Some u -> au_banned u = false -> au_id u = 1 -> preserves I (h u)) ->
  preserves I (withAdmin user h).
Proof.
  intros H. unfold withAdmin. apply withAuth_is_user. intros u Hu Hb. unfold requireAdmin.
  destruct (Nat.eqb_spec (au_id u) 1) as [E|E]; [now apply H|apply preserves_reply].
Qed.

Section Guarded.

(** An invariant maintained by the statements that anyone can cause. *)
Variable I : Store -> Prop.
Hypothesis G_bump : forall w, I w -> I (bump w).
Hypothesis G_insert_user :
  forall n h c, triple I (Sql.insert_user n h c) (fun id w => I w /\ id <> 0) I.
Hypothesis G_insert_page : forall p, preserves I (Sql.insert_page p).
Hypothesis G_update_invite :
  forall uid t k, uid <> 0 -> preserves I (Sql.update_invite_used uid t k).
Hypothesis G_insert_session : forall t u c, preserves I (Sql.insert_session t u c).

(** The request at hand, and the store it arrives at.  Minting a key, a
    ban that passed the check on its target and an impersonation are
    reached by the administrator only; the page edit is made for the user
    of the session; logout and return act on the cookie. *)
Variable q : Request.
Variable w : Store.
Hypothesis G_insert_invite :
  byAdmin q w -> forall k u c, preserves I (Sql.insert_invite_key k u c).
Hypothesis G_ban :
  byAdmin q w ->
  forall f r id, badTarget id = false -> preserves I (Sql.update_user_ban f r id).
Hypothesis G_impersonate :
  byAdmin q w -> forall u id, au_id u = 1 -> preserves I (impersonate u id).
Hypothesis G_save :
  forall u, getUserFromCookie (q_session q) w = Some u ->
            preserves I (savePageForUser (au_id u) (q_body q)).
Hypothesis G_logout : q_route q = PostLogout -> preserves I (logout (q_session q)).
Hypothesis G_return : q_route q = PostReturn -> preserves I (adminReturn (q_session q)).

Lemma handle_guarded fuel :
  I w ->
  match handle fuel q w with
  | Ok _ w' | Throw _ w' => I w'
  | Diverge => True
  end.
Proof.
  intros HI. unfold Server.handle. cbv zeta. unfold bind at 1. unfold gets at 1.
  set (user := getUserFromCookie (q_session q) w) in *.
  match goal with
  | |- match ?m w with _ => _ end => enough (P : preserves I m) by exact (P w HI)
  end.
  destruct (q_route q) as [| | | | | | | | | | | |id|id|id| |segment] eqn:R.
  - unfold root. repeat pres_step.
  - apply preserves_reply.
  - now apply I_signup.
  - apply preserves_reply.
  - now apply I_login.
  - now apply G_logout.
  - apply I_withAuth. intros u. unfold dashboard.
    apply preserves_bind; [now apply I_ensurePageForUser|intros _; apply I_renderDashboard].
  - apply withAuth_is_user. intros u Hu _. unfold dashboardPost.
    apply preserves_bind; [now apply G_save|intros []; apply I_renderDashboard].
  - apply I_withAdmin. intros u. apply preserves_reply.
  - apply I_withAdmin. intros u. repeat pres_step.
  - apply withAdmin_is_user_1. intros u Hu Hb Hid.
    assert (A : byAdmin q w) by (exists u; repeat split; assumption).
    unfold adminMintKey.
    apply preserves_bind; [now apply I_nanoid|intros r].
    apply preserves_bind; [now apply I_now|intros t].
    apply preserves_bind; [now apply G_insert_invite|intros _; apply preserves_reply].
  - apply I_withAdmin. intros u. repeat pres_step.
  - apply withAdmin_is_user_1. intros u Hu Hb Hid.
    assert (A : byAdmin q w) by (exists u; repeat split; assumption).
    unfold ban. destruct (badTarget id) eqn:B; [apply preserves_reply|].
    apply preserves_bind; [now apply G_ban|intros _; apply preserves_reply].
  - apply withAdmin_is_user_1. intros u Hu Hb Hid.
    assert (A : byAdmin q w) by (exists u; repeat split; assumption).
    unfold unban. destruct (badTarget id) eqn:B; [apply preserves_reply|].
    apply preserves_bind; [now apply G_ban|intros _; apply preserves_reply].
  - apply withAdmin_is_user_1. intros u Hu Hb Hid.
    assert (A : byAdmin q w) by (exists u; repeat split; assumption).
    now apply G_impersonate.
  - apply I_withAuth. intros u. now apply G_return.
  - unfold profile. repeat pres_step.
Qed.

End Guarded.

(** Statements and handlers that leave a table alone maintain what is said
    about that table only. *)
Ltac frame_steps :=
  intros;
  unfold preserves, triple, Server.savePageForUser, Server.impersonate,
    Server.adminReturn, logout, bind, Server.nanoid, Server.now,
    Sql.insert_user, Sql.insert_page, Sql.update_page, Sql.insert_invite_key,
    Sql.update_invite_used, Sql.update_user_ban, Sql.insert_session,
    Sql.delete_session, Sql.delete_impersonation, Sql.insert_impersonation,
    modify, gets, reply, ret;
  intros;
  split_ifs;
  try (match goal with H : _ |- _ => exact H end);
  try (split; [match goal with H : _ |- _ => exact H end|discriminate]).

(** *** The administrator cannot be banned *)

Lemma adminNotBanned_handle fuel q : preserves adminNotBanned (handle fuel q).
Proof.
  intros w HI. apply handle_guarded; try exact HI; try (frame_steps; fail).
  - intros n h c w0 H. unfold Sql.insert_user.
    destruct (existsb _ (users w0)); [exact H|]. split; [|discriminate].
    intros u Hu. cbn in Hu. apply in_app_or in Hu as [Hu|[<-|[]]]; [now apply H|reflexivity].
  - intros _ f r id Hid w0 H u Hu Hu1. cbn in Hu.
    apply in_map_iff in Hu as [u0 [<- Hu0]]. unfold Sql.set_ban in *.
    destruct (Nat.eqb_spec (u_id u0) id) as [E|E]; [|now apply H].
    cbn in Hu1. unfold badTarget in Hid. apply orb_false_iff in Hid as [_ Hid].
    apply Nat.eqb_neq in Hid. congruence.
Qed.

(** X16.  The administrator cannot be banned.  If user 1 is not banned,
    then user 1 is not banned after any request, whoever sends it and
    whether its handler returns or throws, hence after any number of
    requests; so a session of user 1 passes [requireAuth] and
    [requireAdmin] in every store that is reached. *)
Theorem administrator_is_never_banned :
  forall w,
    adminNotBanned w ->
    (forall fuel q,
        match handle fuel q w with
        | Ok _ w' | Throw _ w' => adminNotBanned w'
        | Diverge => True
        end) /\
    (forall w', later w w' -> adminNotBanned w') /\
    (forall w' c u,
        later w w' -> getUserFromCookie c w' = Some u -> au_id u = 1 ->
        requireAuth (Some u) = inr u /\ requireAdmin (Some u) = inr u).
Proof.
  intros w HI.
  assert (L : forall w', later w w' -> adminNotBanned w').
  { intros w'. apply (later_preserves adminNotBanned adminNotBanned_handle). exact HI. }
  split; [intros fuel q; exact (adminNotBanned_handle fuel q w HI)|]. split; [exact L|].
  intros w' c u Hl Hu Hid.
  destruct (getUserFromCookie_inv _ _ _ Hu) as (t & sess & row & _ & _ & _ & Hrow & ->).
  apply find_some in Hrow as [Hin _]. cbn in Hid.
  unfold requireAuth, requireAdmin. cbn [au_banned au_id authOf].
  now rewrite (L w' Hl row Hin Hid), Hid.
Qed.

(** *** Impersonation belongs to the administrator *)

Lemma impersonationsByAdmin_handle fuel q :
  preserves impersonationsByAdmin (handle fuel q).
Proof.
  intros w HI. apply handle_guarded; try exact HI; try (frame_steps; fail).
  - intros _ u id Hu w0 H. unfold Server.impersonate, bind, gets, nanoid, now,
      Sql.insert_session, Sql.insert_impersonation, reply, ret.
    split_ifs; try exact H.
    intros i Hi. cbn in Hi. apply in_app_or in Hi as [Hi|[<-|[]]]; [now apply H|exact Hu].
  - intros _ w0 H. unfold logout, bind, Sql.delete_session, Sql.delete_impersonation,
      modify, ret.
    destruct (truthyToken _); [|exact H].
    intros i Hi. cbn in Hi. apply filter_In in Hi as [Hi _]. now apply H.
  - intros _ w0 H. unfold Server.adminReturn, bind, gets, nanoid, now,
      Sql.delete_session, Sql.delete_impersonation, modify, Sql.insert_session, reply, ret.
    split_ifs; try exact H;
      intros imp Himp; cbn in Himp; apply filter_In in Himp as [Himp _]; now apply H.
Qed.

(** X17.  Impersonation belongs to the administrator.  If every
    impersonation record names user 1 (as when there is none), this stays so
    after every request, hence in every store that is reached; and whenever
    [POST /admin/return] hands out a new cookie there, the session behind it
    is a session of user 1. *)
Theorem impersonation_belongs_to_the_administrator :
  forall w,
    impersonationsByAdmin w ->
    (forall fuel q,
        match handle fuel q w with
        | Ok _ w' | Throw _ w' => impersonationsByAdmin w'
        | Diverge => True
        end) /\
    (forall w', later w w' -> impersonationsByAdmin w') /\
    (forall w1 fuel c b t r w2,
        later w w1 ->
        handle fuel (mkRequest PostReturn c b) w1 = Ok (mkResponse (CookieSet t) r) w2 ->
        exists s, In s (sessions w2) /\ s_token s = t /\ s_user_id s = 1).
Proof.
  intros w HI.
  assert (L : forall w', later w w' -> impersonationsByAdmin w').
  { intros w'. apply (later_preserves impersonationsByAdmin impersonationsByAdmin_handle).
    exact HI. }
  split; [intros fuel q; exact (impersonationsByAdmin_handle fuel q w HI)|].
  split; [exact L|].
  intros w1 fuel c b t r w2 Hl H. specialize (L w1 Hl).
  unfold Server.handle, bind, gets in H. cbn [q_route q_session q_body] in H.
  unfold withAuth, requireAuth in H.
  destruct (getUserFromCookie c w1) as [u|]; [|discriminate].
  destruct (au_banned u); [discriminate|].
  unfold Server.adminReturn in H.
  destruct (truthyToken c) as [tok|]; [|discriminate].
  unfold bind, gets in H.
  destruct (Sql.impersonation_by_token tok w1) as [row|] eqn:Row; [|discriminate].
  apply find_some in Row as [Hrow _]. specialize (L row Hrow).
  unfold Sql.delete_session, Sql.delete_impersonation, modify, nanoid, now,
    Sql.insert_session, ret in H.
  match type of H with
  | context [if ?e then _ else _] => destruct e; [discriminate|]
  end.
  injection H as <- _ <-. eexists. split; [cbn; apply in_or_app; right; now left|].
  cbn. now split.
Qed.

(** X18.  Impersonation is all or nothing.  In a store where every
    impersonation record sits on a session, a [POST /admin/impersonate/:id] of
    the administrator has one of four outcomes: 400 "no" for the id 0;
    404 "not found" for an id that no user has; an exception when the token
    drawn is the token of a stored session; or else the session for the
    target and the impersonation record are both written and the token is
    sent as the cookie.  In the first three no table is changed. *)
Theorem impersonation_is_all_or_nothing :
  forall fuel c b w admin id,
    getUserFromCookie c w = Some admin -> au_id admin = 1 -> au_banned admin = false ->
    paired w = true ->
    let t := nanoid_src (tick w) 32 in
    let request := handle fuel (mkRequest (PostImpersonate id) c b) w in
    (id = 0 -> request = Ok (mkResponse CookieKeep (Send 400 "no")) w) /\
    (id <> 0 -> Sql.user_by_id id w = None ->
     request = Ok (mkResponse CookieKeep (Send 404 "not found")) w) /\
    (id <> 0 -> Sql.user_by_id id w <> None ->
     match Sql.session_by_token t w with
     | Some _ =>
         exists w',
           request = Throw (Sql.unique_failed "sessions.token") w' /\
           users w' = users w /\ pages w' = pages w /\ invite_keys w' = invite_keys w /\
           sessions w' = sessions w /\ impersonations w' = impersonations w
     | None =>
         request
         = Ok (mkResponse (CookieSet t) (Redirect "/dashboard")) (afterImpersonate t id 1 w)
     end).
Proof.
  intros fuel c b w admin id Ha Hid Hb Hp t request. unfold request.
  rewrite (handle_as_admin _ _ _ _ _ _ Ha Hid Hb).
  split; [|split].
  - intros ->. reflexivity.
  - intros H0 Hn. unfold Server.impersonate, bind, gets.
    apply Nat.eqb_neq in H0. now rewrite H0, Hn.
  - intros H0 Hu. destruct (Sql.user_by_id id w) as [target|] eqn:T; [|congruence].
    destruct (Sql.session_by_token t w) as [s|] eqn:S.
    + exists (bump (bump w)). split; [|repeat split].
      unfold Server.impersonate, bind, gets. apply Nat.eqb_neq in H0. rewrite H0, T.
      unfold nanoid, now, Sql.insert_session. cbn [sessions bump tick]. fold t.
      now rewrite (find_some_existsb _ _ _ S).
    + rewrite (impersonate_ok admin id w target H0 T S
                 (paired_no_session_no_impersonation _ _ Hp S)).
      fold t. now rewrite Hid.
Qed.

(** X19.  [POST /admin/return] acts on impersonations only.  For a user who
    is logged in and not banned: when the cookie carries no impersonation
    record ([isImpersonating] is false) the answer is a redirect to
    [/dashboard] and nothing is written; when it carries one, the record is
    gone afterwards, whether the handler returns or throws, and if it
    returns, its cookie is a new token on a session of the user the record
    names as administrator. *)
Theorem return_acts_on_impersonations_only :
  forall fuel c b w u,
    getUserFromCookie c w = Some u -> au_banned u = false ->
    (isImpersonating c w = false ->
     handle fuel (mkRequest PostReturn c b) w
     = Ok (mkResponse CookieKeep (Redirect "/dashboard")) w) /\
    (isImpersonating c w = true ->
     exists t row,
       c = Some t /\ Sql.impersonation_by_token t w = Some row /\
       match handle fuel (mkRequest PostReturn c b) w with
       | Ok r w' =>
           Sql.impersonation_by_token t w' = None /\
           r = mkResponse (CookieSet (nanoid_src (tick w) 32)) (Redirect "/admin/users") /\
           exists s,
             In s (sessions w') /\ s_token s = nanoid_src (tick w) 32 /\
             s_user_id s = i_admin_user_id row
       | Throw _ w' =>
           Sql.impersonation_by_token t w' = None /\ Sql.session_by_token t w' = None
       | Diverge => False
       end).
Proof.
  intros fuel c b w u Hu Hb. rewrite (handle_return _ _ _ _ _ Hu Hb).
  unfold isImpersonating, Server.adminReturn. split.
  - intros H. destruct (truthyToken c) as [t|]; [|reflexivity].
    unfold bind, gets. now destruct (Sql.impersonation_by_token t w).
  - intros H. destruct (truthyToken c) as [t|] eqn:T; [|discriminate].
    destruct (Sql.impersonation_by_token t w) as [row|] eqn:R; [|discriminate].
    exists t, row. split; [now apply truthyToken_some|]. split; [exact R|].
    unfold bind, gets. rewrite R.
    unfold Sql.delete_session, Sql.delete_impersonation, modify, nanoid, now,
      Sql.insert_session, ret.
    cbn [sessions tick bump set_sessions set_impersonations].
    destruct (existsb _ _).
    + split.
      * unfold Sql.impersonation_by_token. cbn. apply (find_filter_same i_token).
      * unfold Sql.session_by_token. cbn. apply (find_filter_same s_token).
    + split; [|split; [reflexivity|]].
      * unfold Sql.impersonation_by_token. cbn. apply (find_filter_same i_token).
      * eexists. split; [cbn; apply in_or_app; right; now left|]. now split.
Qed.

(** *** What is left to the administrator *)

(** X20.  Banning, unbanning, minting invite keys and starting an
    impersonation are left to the administrator.  A request whose session
    does not resolve to user 1, unbanned, leaves every user row as it was
    (at most it adds a user), adds no invite key and adds no impersonation
    record, whatever its route and body and whether its handler returns or
    throws. *)
Theorem only_the_administrator_governs :
  forall fuel q w,
    ~ byAdmin q w ->
    match handle fuel q w with
    | Ok _ w' | Throw _ w' =>
        (exists rest, users w' = users w ++ rest) /\
        map k_key (invite_keys w') = map k_key (invite_keys w) /\
        incl (impersonations w') (impersonations w)
    | Diverge => True
    end.
Proof.
  intros fuel q w Hna.
  apply (handle_guarded
           (fun w' => (exists rest, users w' = users w ++ rest) /\
                      map k_key (invite_keys w') = map k_key (invite_keys w) /\
                      incl (impersonations w') (impersonations w)));
    try (frame_steps; fail); try (intros A; now destruct (Hna A)).
  - intros n h c w0 ([rest H] & Hk & Hi). unfold Sql.insert_user.
    destruct (existsb _ (users w0)); [repeat split; eauto|].
    split; [|discriminate]. cbn. split; [|now split].
    eexists. rewrite H, <- app_assoc. reflexivity.
  - intros uid t k _ w0 (Hu & Hk & Hi). cbn. split; [exact Hu|]. split; [|exact Hi].
    rewrite <- Hk, map_map. apply map_ext. intros x. unfold Sql.set_used.
    now destruct (String.eqb (k_key x) k).
  - intros _ w0 (Hu & Hk & Hi). unfold logout, bind, Sql.delete_session,
      Sql.delete_impersonation, modify, ret.
    destruct (truthyToken _); [|now repeat split].
    cbn. split; [exact Hu|]. split; [exact Hk|].
    intros x Hx. apply filter_In in Hx as [Hx _]. now apply Hi.
  - intros _ w0 (Hu & Hk & Hi). unfold Server.adminReturn, bind, gets, nanoid, now,
      Sql.delete_session, Sql.delete_impersonation, modify, Sql.insert_session, reply, ret.
    split_ifs; try (now repeat split).
    all: cbn; split; [exact Hu|]; split; [exact Hk|].
    all: intros x Hx; apply filter_In in Hx as [Hx _]; now apply Hi.
  - split; [exists []; now rewrite app_nil_r|]. split; [reflexivity|apply incl_refl].
Qed.

(** *** Accounts *)

Lemma identity_set_ban flag reason X l :
  map identity (map (Sql.set_ban flag reason X) l) = map identity l.
Proof.
  rewrite map_map. apply map_ext. intros u. unfold Sql.set_ban, identity.
  now destruct (u_id u =? X).
Qed.

Lemma identity_handle w0 fuel q :
  preserves (fun w => exists rest, map identity (users w) = map identity (users w0) ++ rest)
    (handle fuel q).
Proof.
  apply handle_preserves; try (frame_steps; fail).
  - intros n h c w [rest H]. unfold Sql.insert_user.
    destruct (existsb _ (users w)); [now exists rest|]. split; [|discriminate].
    eexists. cbn. rewrite map_app, H, <- app_assoc. reflexivity.
  - intros f r id w [rest H]. exists rest. cbn. now rewrite identity_set_ban.
Qed.

Lemma find_by_key {A B} (key : A -> B) (sel : B -> bool) l l' rest u :
  map key l' = map key l ++ rest ->
  find (fun x => sel (key x)) l = Some u ->
  exists u', find (fun x => sel (key x)) l' = Some u' /\ key u' = key u.
Proof.
  revert l'. induction l as [|a l IH]; intros l' E F; [discriminate|].
  destruct l' as [|a' l']; [discriminate|]. cbn in E. injection E as Ea E.
  cbn in F |- *. rewrite Ea. destruct (sel (key a)).
  - injection F as <-. now exists a'.
  - now apply IH.
Qed.

(** X21.  Accounts are permanent.  No request deletes a user or changes a
    user's id, username, password hash or creation date: after any number
    of requests the users table still starts with the same accounts, in the
    same order, and a username that resolved to an account still resolves
    to the account with that id and that password hash. *)
Theorem accounts_are_permanent :
  forall w w',
    later w w' ->
    (exists rest, map identity (users w') = map identity (users w) ++ rest) /\
    (forall u, In u (users w) -> exists u', In u' (users w') /\ identity u' = identity u) /\
    (forall name u,
        Sql.user_by_username name w = Some u ->
        exists u', Sql.user_by_username name w' = Some u' /\ identity u' = identity u).
Proof.
  intros w w' L.
  assert (P : exists rest, map identity (users w') = map identity (users w) ++ rest).
  { apply (later_preserves _ (identity_handle w) w w'); [|exact L].
    exists []. now rewrite app_nil_r. }
  split; [exact P|]. destruct P as [rest P]. split.
  - intros u Hu.
    assert (Hin : In (identity u) (map identity (users w'))).
    { rewrite P. apply in_or_app. left. now apply in_map. }
    apply in_map_iff in Hin as [u' [E Hu']]. now exists u'.
  - intros name u F.
    apply (find_by_key identity (fun i => String.eqb (snd (fst (fst i))) name)
             (users w) (users w') rest u P F).
Qed.

Lemma find_unique_nat {A} (key : A -> nat) l x :
  NoDup (map key l) -> In x l -> find (fun y => key y =? key x) l = Some x.
Proof.
  induction l as [|a l IH]; simpl; [tauto|].
  intros Hnd [->|Hin].
  - now rewrite Nat.eqb_refl.
  - inversion Hnd as [|? ? Hnotin Hnd']; subst.
    destruct (Nat.eqb_spec (key a) (key x)) as [E|_]; [|auto].
    exfalso. apply Hnotin. rewrite E. now apply in_map.
Qed.

Lemma usersKeyed_handle fuel q : preserves usersKeyed (handle fuel q).
Proof.
  apply handle_preserves; try (frame_steps; fail).
  - intros n h c w (Hid & Hname & Hpos). unfold Sql.insert_user.
    destruct (existsb _ (users w)) eqn:Ex; [now repeat split|].
    split; [|discriminate]. unfold usersKeyed. cbn [users set_users].
    rewrite !map_app. cbn [map u_id u_username]. repeat split.
    + apply NoDup_app; [exact Hid|repeat constructor; auto|].
      intros a Ha [<-|[]]. apply in_map_iff in Ha as [u [E Hu]].
      pose proof (next_user_id_fresh w u Hu). lia.
    + apply NoDup_app; [exact Hname|repeat constructor; auto|].
      intros a Ha [<-|[]]. apply in_map_iff in Ha as [u [E Hu]].
      assert (T : existsb (fun u => String.eqb (u_username u) n) (users w) = true).
      { apply existsb_exists. exists u. split; [exact Hu|now apply String.eqb_eq]. }
      congruence.
    + intros u Hu. apply in_app_or in Hu as [Hu|[<-|[]]]; [now apply Hpos|discriminate].
  - intros f r id w (Hid & Hname & Hpos). cbn.
    assert (E1 : map u_id (map (Sql.set_ban f r id) (users w)) = map u_id (users w)).
    { rewrite map_map. apply map_ext. intros u. unfold Sql.set_ban.
      now destruct (u_id u =? id). }
    assert (E2 : map u_username (map (Sql.set_ban f r id) (users w))
                 = map u_username (users w)).
    { rewrite map_map. apply map_ext. intros u. unfold Sql.set_ban.
      now destruct (u_id u =? id). }
    unfold usersKeyed. cbn. rewrite E1, E2. repeat split; auto.
    intros u Hu. apply in_map_iff in Hu as [u0 [<- Hu0]].
    rewrite set_ban_id. now apply Hpos.
Qed.

(** X22.  The keys of [users] hold.  An empty users table has distinct
    positive ids and distinct usernames, and every request keeps it so,
    whether its handler returns or throws: an [INSERT] draws an id above
    every id in use and is refused on a username in use, and the only
    [UPDATE] leaves both columns alone.  In such a store the lookups by id
    and by username return the one row that carries the value. *)
Theorem users_keys_hold :
  usersKeyed emptyStore /\
  (forall fuel q w,
      usersKeyed w ->
      match handle fuel q w with
      | Ok _ w' | Throw _ w' => usersKeyed w'
      | Diverge => True
      end) /\
  (forall w w', usersKeyed w -> later w w' -> usersKeyed w') /\
  (forall w u,
      usersKeyed w -> In u (users w) ->
      Sql.user_by_id (u_id u) w = Some u /\
      Sql.user_by_username (u_username u) w = Some u).
Proof.
  split; [|split; [|split]].
  - repeat split; cbn; try constructor. intros u [].
  - intros fuel q w H. exact (usersKeyed_handle fuel q w H).
  - intros w w' H L. exact (later_preserves usersKeyed usersKeyed_handle w w' H L).
  - intros w u (Hid & Hname & _) Hu. split.
    + now apply (find_unique_nat u_id).
    + now apply (find_unique u_username).
Qed.

(** X23.  The constraints of [pages] hold.  Given that [nanoid(6)] draws 6
    characters of its alphabet, the empty database is well formed and every
    request keeps the store well formed, whether its handler returns or
    throws: no two pages of one user, no two pages with one slug, every page
    owned by a user, every username and every slug in its format.  So this
    holds in every store the application reaches from the empty one. *)
Theorem pages_constraints_hold :
  (forall k, Js.sforall Js.isUrlSafe (nanoid_src k 6) = true) ->
  (forall k, String.length (nanoid_src k 6) = 6) ->
  sound emptyStore /\
  (forall fuel q w,
      sound w ->
      match handle fuel q w with
      | Ok _ w' | Throw _ w' => sound w'
      | Diverge => True
      end) /\
  (forall w w', sound w -> later w w' -> sound w') /\
  (forall w', later emptyStore w' -> sound w').
Proof.
  intros Halpha Hlen.
  assert (E : sound emptyStore).
  { repeat split; cbn; try constructor; intros x []. }
  assert (L : forall w w', sound w -> later w w' -> sound w').
  { intros w w'. apply later_preserves. intros fuel q. now apply sound_handle. }
  split; [exact E|]. split; [|split; [exact L|]].
  - intros fuel q w H. exact (sound_handle Halpha Hlen fuel q w H).
  - intros w'. now apply L.
Qed.

(** *** Sessions and pages of others *)

Lemma session_survives fuel q w t s :
  q_session q <> Some t ->
  Sql.session_by_token t w = Some s ->
  match handle fuel q w with
  | Ok _ w' | Throw _ w' => Sql.session_by_token t w' = Some s
  | Diverge => True
  end.
Proof.
  intros Hq Hs.
  assert (Hins : forall t' u c,
             preserves (fun w => Sql.session_by_token t w = Some s)
               (Sql.insert_session t' u c)).
  { intros t' u c w0 H. unfold Sql.insert_session.
    destruct (existsb _ (sessions w0)); [exact H|].
    unfold Sql.session_by_token. cbn. now apply find_app_some. }
  assert (Hdel : forall tok w0,
             q_session q = Some tok ->
             Sql.session_by_token t w0 = Some s ->
             Sql.session_by_token t
               (set_impersonations (filter (fun i => negb (String.eqb (i_token i) tok)))
                  (set_sessions (filter (fun s => negb (String.eqb (s_token s) tok))) w0))
             = Some s).
  { intros tok w0 E H. unfold Sql.session_by_token in *. cbn.
    rewrite (find_filter_other s_token); [exact H|]. congruence. }
  apply (handle_guarded (fun w => Sql.session_by_token t w = Some s));
    try exact Hs; try exact Hins; try (frame_steps; fail).
  - intros _ u id Hu w0 H. unfold Server.impersonate.
    destruct (id =? 0); [exact H|].
    unfold bind at 1. unfold gets.
    destruct (Sql.user_by_id id w0); [|exact H].
    unfold bind at 1. unfold nanoid. unfold bind at 1. unfold now at 1.
    unfold bind at 1.
    pose proof (Hins (nanoid_src (tick w0) 32) id (clock (tick (bump w0)))
                  (bump (bump w0)) H) as P.
    destruct (Sql.insert_session _ _ _ _) as [[] w1| |]; try exact P.
    unfold bind, now, Sql.insert_impersonation, ret.
    destruct (existsb _ _); exact P.
  - intros _ w0 H. unfold logout, bind, Sql.delete_session, Sql.delete_impersonation,
      modify, ret.
    destruct (truthyToken (q_session q)) as [tok|] eqn:T; [|exact H].
    apply (Hdel tok w0 (truthyToken_some _ _ T) H).
  - intros _ w0 H. unfold Server.adminReturn.
    destruct (truthyToken (q_session q)) as [tok|] eqn:T; [|exact H].
    unfold bind at 1. unfold gets.
    destruct (Sql.impersonation_by_token tok w0) as [row|]; [|exact H].
    unfold bind, Sql.delete_session, Sql.delete_impersonation, modify, nanoid, now, ret.
    pose proof (Hdel tok w0 (truthyToken_some _ _ T) H) as H1.
    set (w1 := set_impersonations _ _) in *.
    pose proof (Hins (nanoid_src (tick w1) 32) (i_admin_user_id row)
                  (clock (tick (bump w1))) (bump (bump w1)) H1) as P.
    destruct (Sql.insert_session _ _ _ _); exact P.
Qed.

Lemma serve_later qs :
  forall w0 w w', later w0 w -> serve qs w = Some w' -> later w0 w'.
Proof.
  induction qs as [|[fuel q] qs IH]; intros w0 w w' L S; cbn [Runs.serve] in S.
  - injection S as <-. exact L.
  - destruct (handle fuel q w) as [r w1|msg w1|] eqn:E; [| |discriminate].
    + apply (IH w0 w1 w'); [|exact S].
      apply (later_step _ _ _ _ _ _ w w1 L). exact (step_returned _ _ _ _ _ _ _ fuel q r E).
    + apply (IH w0 w1 w'); [|exact S].
      apply (later_step _ _ _ _ _ _ w w1 L). exact (step_threw _ _ _ _ _ _ _ fuel q msg E).
Qed.

(** X24.  A session ends only through its own token, and never by itself.
    Whatever a request does, and whoever sends it, a session whose token is
    not the one in the request's cookie is still there afterwards,
    unchanged: nobody, the administrator included, can end the session of
    somebody else.  So after any series of requests that do not carry the
    token the session is still stored, and a cookie that resolved to a user
    still resolves to the user with that id and that username: a session
    does not expire. *)
Theorem sessions_end_only_by_their_own_token :
  forall t s w,
    Sql.session_by_token t w = Some s ->
    (forall fuel q,
        q_session q <> Some t ->
        match handle fuel q w with
        | Ok _ w' | Throw _ w' => Sql.session_by_token t w' = Some s
        | Diverge => True
        end) /\
    (forall qs w',
        Forall (fun fq => q_session (snd fq) <> Some t) qs ->
        serve qs w = Some w' ->
        Sql.session_by_token t w' = Some s /\
        (forall a,
            getUserFromCookie (Some t) w = Some a ->
            exists a',
              getUserFromCookie (Some t) w' = Some a' /\
              au_id a' = au_id a /\ au_username a' = au_username a)).
Proof.
  intros t s w Hs. split.
  - intros fuel q Hq. now apply session_survives.
  - intros qs w' Hqs S.
    assert (Hs' : Sql.session_by_token t w' = Some s).
    { revert w Hs S. induction Hqs as [|[fuel q] qs Hq _ IH]; intros w Hs S;
        cbn [Runs.serve] in S.
      - now injection S as <-.
      - cbn in Hq. pose proof (session_survives fuel q w t s Hq Hs) as P.
        destruct (handle fuel q w) as [r w1|msg w1|]; [| |discriminate];
          now apply (IH w1). }
    split; [exact Hs'|].
    intros a Ha. unfold getUserFromCookie in *.
    destruct (truthyToken (Some t)) as [tok|] eqn:T; [|discriminate].
    apply truthyToken_some in T. injection T as <-.
    rewrite Hs in Ha. rewrite Hs'.
    destruct (Sql.user_by_id (s_user_id s) w) as [u|] eqn:U; [|discriminate].
    injection Ha as <-.
    assert (L : later w w').
    { apply (serve_later qs w w w'); [constructor|exact S]. }
    assert (P : exists rest, map identity (users w') = map identity (users w) ++ rest).
    { apply (later_preserves _ (identity_handle w) w w'); [|exact L].
      exists []. now rewrite app_nil_r. }
    destruct P as [rest P].
    destruct (find_by_key identity (fun i => fst (fst (fst i)) =? s_user_id s)
                (users w) (users w') rest u P U) as [u' [F E]].
    change (Sql.user_by_id (s_user_id s) w' = Some u') in F. rewrite F.
    exists (authOf u'). split; [reflexivity|].
    unfold identity in E. injection E as E1 E2 _ _. now split.
Qed.

(** X25.  A page changes only at the hands of its owner.  Whatever a
    request does, a page of a user other than the one the request's session
    resolves to is still in the table afterwards, exactly as it was; this
    holds for requests without a session and for those of the administrator
    too.  And no request deletes a page: a user who has a page still has
    one afterwards. *)
Theorem pages_change_only_for_their_owner :
  forall fuel q w,
    (forall p,
        In p (pages w) ->
        (forall u, getUserFromCookie (q_session q) w = Some u -> au_id u <> p_user_id p) ->
        match handle fuel q w with
        | Ok _ w' | Throw _ w' => In p (pages w')
        | Diverge => True
        end) /\
    (forall uid,
        In uid (map p_user_id (pages w)) ->
        match handle fuel q w with
        | Ok _ w' | Throw _ w' => In uid (map p_user_id (pages w'))
        | Diverge => True
        end).
Proof.
  intros fuel q w. split.
  - intros p Hp Hother.
    apply (handle_guarded (fun w => In p (pages w)));
      try exact Hp; try (frame_steps; fail).
    + intros p' w0 H. unfold Sql.insert_page. split_ifs; try exact H.
      cbn. apply in_or_app. now left.
    + intros u Hu w0 H. specialize (Hother u Hu).
      unfold Server.savePageForUser, bind, gets, now, Sql.update_page, ret.
      split_ifs; try exact H.
      all: cbn; apply in_map_iff; exists p; split; [|exact H].
      all: apply Nat.neq_sym, Nat.eqb_neq in Hother; now rewrite Hother.
  - intros uid Huid.
    apply (handle_guarded (fun w => In uid (map p_user_id (pages w))));
      try exact Huid; try (frame_steps; fail).
    + intros p' w0 H. unfold Sql.insert_page. split_ifs; try exact H.
      cbn. rewrite map_app. apply in_or_app. now left.
    + intros u Hu w0 H.
      unfold Server.savePageForUser, bind, gets, now, Sql.update_page, ret.
      split_ifs; try exact H.
      all: cbn; rewrite map_map;
        erewrite map_ext; [exact H|];
        intros a; cbn; now destruct (p_user_id a =? au_id u).
Qed.

(** X26.  A new page lives under the username.  A username that passed
    [validateUsername] is left as it is by a second validation and is a
    valid slug; and when nobody holds it as a slug, the page that
    [ensurePageForUser] creates for a user of the table who has no page is
    stored under the username itself, with no draw from [nanoid].  For an
    id that no user has, the [INSERT] is refused on the foreign key of
    [pages] instead, and nothing is written. *)
Theorem new_page_lives_under_the_username :
  forall fuel uid s name w,
    validateUsername s = Some name ->
    validateUsername name = Some name /\
    validateSlug name = Some name /\
    (hasUser uid w = true ->
     Sql.page_by_user uid w = None ->
     Sql.page_by_slug name w = None ->
     ensurePageForUser fuel uid name w = Ok tt (withFreshPage uid name name w) /\
     Sql.page_by_slug name (withFreshPage uid name name w)
     = Some (freshPage uid name name (clock (tick w)))) /\
    (hasUser uid w = false ->
     Sql.page_by_user uid w = None ->
     Sql.page_by_slug name w = None ->
     ensurePageForUser fuel uid name w = Throw Sql.foreign_key_failed (bump w)).
Proof.
  intros fuel uid s name w V.
  pose proof (validateUsername_format _ _ V) as Hn.
  destruct (matchUsername_inv _ Hn) as [Hc Hl].
  assert (Hslug : matchSlug name = true) by (apply matchSlug_intro; [exact Hc|lia]).
  split; [|split; [|split]].
  - unfold validateUsername, Js.trim, Js.toLowerCase.
    rewrite (smap_id_on _ _ _ slugChar_lower Hc), (trimStart_id _ Hc), (trimEnd_id _ Hc).
    now rewrite Hn.
  - unfold validateSlug. now rewrite (normalizeSlug_fixed _ Hslug), Hslug.
  - intros Hu Hp Hs. split.
    + rewrite (ensurePageForUser_cases_user _ _ _ _ Hu), Hp.
      unfold Server.uniqueSlugEnsure.
      rewrite (uniqueSlug_username _ Hn).
      rewrite loop_free; [reflexivity|]. unfold slugTaken. now rewrite Hs.
    + unfold Sql.page_by_slug, Server.withFreshPage. cbn [pages set_pages bump].
      apply find_app_new; [exact Hs|]. cbn. apply String.eqb_refl.
  - intros Hu Hp Hs. rewrite ensurePageForUser_cases, Hp, Hu.
    unfold Server.uniqueSlugEnsure. rewrite (uniqueSlug_username _ Hn).
    rewrite loop_free; [reflexivity|]. unfold slugTaken. now rewrite Hs.
Qed.

(** ** The administrator's listings *)

Lemma join_pages_single w x :
  NoDup (map p_user_id (pages w)) -> Sql.join_pages w x = [listedRow w x].
Proof.
  intros Hnd. unfold Sql.join_pages, listedRow, Sql.page_by_user.
  destruct (find (fun p => p_user_id p =? u_id x) (pages w)) as [p|] eqn:F.
  - now rewrite (filter_unique_nat p_user_id _ _ _ Hnd F).
  - now rewrite (filter_find_none _ _ F).
Qed.

Lemma users_with_slug_spec w :
  NoDup (map p_user_id (pages w)) ->
  Sql.users_with_slug w
  = firstn 1000
      (map (listedRow w) (Sql.order_by (fun a b => u_id a <=? u_id b) (users w))).
Proof.
  intros Hnd. unfold Sql.users_with_slug. f_equal.
  induction (Sql.order_by _ (users w)) as [|x l IH]; [reflexivity|].
  cbn [flat_map map]. now rewrite join_pages_single, IH.
Qed.

Lemma handle_admin_users fuel c b w a :
  getUserFromCookie c w = Some a -> au_id a = 1 -> au_banned a = false ->
  handle fuel (mkRequest GetAdminUsers c b) w
  = Ok (mkResponse CookieKeep (Render (AdminUsersView a (Sql.users_with_slug w)))) w.
Proof.
  intros Ha Hid Hb. unfold Server.handle, bind, gets. cbn [q_route q_session q_body].
  rewrite Ha. unfold withAdmin, withAuth, requireAuth, requireAdmin. now rewrite Hb, Hid.
Qed.

Lemma handle_admin_keys fuel c b w a :
  getUserFromCookie c w = Some a -> au_id a = 1 -> au_banned a = false ->
  handle fuel (mkRequest GetAdminKeys c b) w
  = Ok (mkResponse CookieKeep (Render (AdminKeysView a (Sql.recent_invite_keys w)))) w.
Proof.
  intros Ha Hid Hb. unfold Server.handle, bind, gets. cbn [q_route q_session q_body].
  rewrite Ha. unfold withAdmin, withAuth, requireAuth, requireAdmin. now rewrite Hb, Hid.
Qed.

(** X27.  [GET /admin/users] shows the administrator the users in
    ascending order of id, each user once (one page per user at most), with
    the slug of the user's page if there is one; at most 1000 rows, and all
    the users when there are no more than 1000.  Nothing is written. *)
Theorem admin_users_listing :
  forall fuel c b w u,
    getUserFromCookie c w = Some u -> au_id u = 1 -> au_banned u = false ->
    NoDup (map p_user_id (pages w)) ->
    exists rows,
      handle fuel (mkRequest GetAdminUsers c b) w
      = Ok (mkResponse CookieKeep (Render (AdminUsersView u rows))) w /\
      length rows <= 1000 /\
      StronglySorted (fun a b => Sql.ur_id a <= Sql.ur_id b) rows /\
      (forall r, In r rows -> exists x, In x (users w) /\ r = listedRow w x) /\
      (length (users w) <= 1000 -> Permutation (map (listedRow w) (users w)) rows).
Proof.
  intros fuel c b w u Hu Hid Hb Hnd.
  exists (Sql.users_with_slug w). split; [now apply handle_admin_users|].
  rewrite (users_with_slug_spec w Hnd).
  set (sorted := Sql.order_by (fun a b => u_id a <=? u_id b) (users w)).
  assert (P : Permutation (users w) sorted) by apply order_by_perm.
  split; [apply firstn_le_length|]. split; [|split].
  - apply StronglySorted_firstn, StronglySorted_map. cbn [listedRow Sql.ur_id].
    apply (StronglySorted_impl (fun a b => (u_id a <=? u_id b) = true));
      [|apply (order_by_sorted (fun a b => u_id a <=? u_id b))].
    + intros x y H. now apply Nat.leb_le.
    + intros x y H. apply Nat.leb_gt in H. apply Nat.leb_le. lia.
    + intros x y z H1 H2. apply Nat.leb_le in H1, H2. apply Nat.leb_le. lia.
  - intros r Hr. apply In_firstn in Hr. apply in_map_iff in Hr as [x [<- Hx]].
    exists x. split; [|reflexivity]. apply (Permutation_in x (Permutation_sym P) Hx).
  - intros L. rewrite firstn_all2.
    + now apply Permutation_map.
    + rewrite length_map, <- (Permutation_length P). exact L.
Qed.

(** X28.  [GET /admin/keys] shows the administrator the invite keys newest
    first: at most 80 of the stored keys, in descending order of creation
    date, all of them when there are no more than 80; and a key that is left
    out is not newer than any key that is shown.  Nothing is written. *)
Theorem admin_keys_listing :
  forall fuel c b w u,
    getUserFromCookie c w = Some u -> au_id u = 1 -> au_banned u = false ->
    exists keys,
      handle fuel (mkRequest GetAdminKeys c b) w
      = Ok (mkResponse CookieKeep (Render (AdminKeysView u keys))) w /\
      length keys <= 80 /\
      StronglySorted
        (fun a b => String.ltb (k_created_at a) (k_created_at b) = false) keys /\
      (forall k, In k keys -> In k (invite_keys w)) /\
      (length (invite_keys w) <= 80 -> Permutation (invite_keys w) keys) /\
      (forall k k',
          In k keys -> In k' (invite_keys w) -> ~ In k' keys ->
          String.ltb (k_created_at k) (k_created_at k') = false).
Proof.
  intros fuel c b w u Hu Hid Hb.
  exists (Sql.recent_invite_keys w). split; [now apply handle_admin_keys|].
  unfold Sql.recent_invite_keys.
  set (le := fun a b => negb (String.ltb (k_created_at a) (k_created_at b))).
  set (sorted := Sql.order_by le (invite_keys w)).
  assert (P : Permutation (invite_keys w) sorted) by apply order_by_perm.
  assert (S : StronglySorted
                (fun a b => String.ltb (k_created_at a) (k_created_at b) = false) sorted).
  { apply (StronglySorted_impl (fun a b => le a b = true));
      [|apply (order_by_sorted le)].
    - intros x y H. now apply negb_true_iff in H.
    - intros x y H. unfold le in *. apply negb_false_iff in H.
      apply negb_true_iff. now apply ltb_asym.
    - intros x y z H1 H2. unfold le in *. apply negb_true_iff in H1, H2.
      apply negb_true_iff. now apply (not_ltb_trans _ (k_created_at y)). }
  split; [apply firstn_le_length|]. split; [now apply StronglySorted_firstn|].
  split; [|split].
  - intros k Hk. apply In_firstn in Hk. apply (Permutation_in k (Permutation_sym P) Hk).
  - intros L. rewrite firstn_all2; [exact P|]. now rewrite <- (Permutation_length P).
  - intros k k' Hk Hk' Hout.
    rewrite <- (firstn_skipn 80 sorted) in S.
    apply (StronglySorted_app _ _ _ S k k' Hk).
    apply (Permutation_in k' P) in Hk'.
    rewrite <- (firstn_skipn 80 sorted) in Hk'.
    apply in_app_or in Hk' as [H|H]; [contradiction|exact H].
Qed.

(** ** The script that creates the administrator *)

(** X29.  The script that creates the administrator never fails and can be
    run again.  If no user is called [iqsm] it appends that user, not
    banned, with the hash of the script's password, under the next free id,
    and reports the id; if there is one it writes to no table and reports
    that user's id.  A second run always finds the user and reports the same
    id.  No other table is touched.  On a database without users the account
    gets id 1, the id that [requireAdmin] lets through. *)
Theorem admin_script_can_be_rerun :
  forall w,
    exists log w1,
      Script.run clock bcrypt_hash w = Ok log w1 /\
      pages w1 = pages w /\ invite_keys w1 = invite_keys w /\
      sessions w1 = sessions w /\ impersonations w1 = impersonations w /\
      match Sql.user_by_username Script.username w with
      | Some u => log = Script.AlreadyExists (u_id u) /\ users w1 = users w
      | None =>
          log = Script.Created (Sql.next_user_id w) /\
          users w1
          = users w ++ [mkUser (Sql.next_user_id w) Script.username
                          (bcrypt_hash (tick w) Script.password)
                          (clock (S (tick w))) false ""]
      end /\
      (exists id w2,
          Script.run clock bcrypt_hash w1 = Ok (Script.AlreadyExists id) w2 /\
          users w2 = users w1 /\
          (log = Script.AlreadyExists id \/ log = Script.Created id)) /\
      (users w = [] ->
       log = Script.Created 1 /\
       exists u,
         Sql.user_by_id 1 w1 = Some u /\ u_username u = Script.username /\
         requireAuth (Some (authOf u)) = inr (authOf u) /\
         requireAdmin (Some (authOf u)) = inr (authOf u)).
Proof.
  intros w. unfold Script.run, bind, hashPassword, gets, now, Sql.insert_user, ret.
  change Script.username with "iqsm".
  change (Sql.user_by_username "iqsm" (bump w))
    with (Sql.user_by_username "iqsm" w).
  cbn [users bump tick].
  destruct (Sql.user_by_username "iqsm" w) as [u|] eqn:U.
  - exists (Script.AlreadyExists (u_id u)), (bump w).
    repeat (split; [reflexivity|]). split; [now split|]. split.
    + exists (u_id u), (bump (bump w)).
      change (Sql.user_by_username "iqsm" (bump (bump w)))
        with (Sql.user_by_username "iqsm" w).
      rewrite U. split; [reflexivity|]. split; [reflexivity|now left].
    + intros E. unfold Sql.user_by_username in U. rewrite E in U. discriminate.
  - pose proof U as Ex. apply find_none_existsb in Ex.
    cbn [users bump tick]. rewrite Ex.
    set (new := mkUser (Sql.next_user_id w) "iqsm" (bcrypt_hash (tick w) Script.password)
                  (clock (S (tick w))) false "").
    exists (Script.Created (Sql.next_user_id w)),
           (set_users (fun us => us ++ [new]) (bump (bump w))).
    change (Sql.next_user_id (bump (bump w))) with (Sql.next_user_id w).
    repeat (split; [reflexivity|]). split; [now split|]. split.
    + exists (Sql.next_user_id w),
             (bump (set_users (fun us => us ++ [new]) (bump (bump w)))).
      assert (F : Sql.user_by_username "iqsm"
                    (bump (set_users (fun us => us ++ [new]) (bump (bump w))))
                  = Some new).
      { unfold Sql.user_by_username. cbn [users set_users bump].
        apply find_app_new; [exact U|reflexivity]. }
      rewrite F.
      split; [reflexivity|]. split; [reflexivity|now right].
    + intros E. unfold Sql.next_user_id. rewrite E. cbn [map list_max fold_right Nat.max].
      split; [reflexivity|]. exists new. split.
      * unfold Sql.user_by_id. cbn [users set_users bump]. rewrite E.
        unfold new, Sql.next_user_id. rewrite E. reflexivity.
      * unfold new, Sql.next_user_id. rewrite E. repeat split.
Qed.

End Properties.

(** * Worked examples *)

Import Examples.

Lemma crowded_slugs : map p_slug (pages crowdedStore) = map snd crowdedSlugs.
Proof. unfold crowdedStore. cbn [pages]. rewrite map_map. reflexivity. Qed.

Lemma crowded_sequential j :
  (1 <= j <= 9999)%N -> slugTaken crowdedStore (seqCandidate "user" j) = true.
Proof.
  intros Hj. apply slugTaken_in. rewrite crowded_slugs. unfold crowdedSlugs, seqCandidate.
  destruct (N.eqb_spec j 1) as [->|Hne]; [now left|].
  right. rewrite map_app. apply in_or_app. left. rewrite map_map. cbn [snd].
  apply in_map_iff. exists (N.to_nat j). split.
  - now rewrite N2Nat.id.
  - apply in_seq. lia.
Qed.

Lemma crowded_random t :
  slugTaken crowdedStore (randCandidate stubbornNanoid "user" t) = true.
Proof.
  apply slugTaken_in. rewrite crowded_slugs. unfold crowdedSlugs.
  right. rewrite map_app. apply in_or_app. right. now left.
Qed.

(** C6, counterexample.  With the slugs [user], [user2], ..., [user9999]
    and [user-aaaaaa] taken and a random source that keeps drawing
    "AAAAAA", the loop never returns: termination is not guaranteed. *)
Lemma slug_loop_can_run_forever :
  ~ exists fuel slug w',
      uniqueSlugEnsure stubbornNanoid fuel "user" crowdedStore = Ok slug w'.
Proof.
  intros (fuel & slug & w' & H).
  unfold uniqueSlugEnsure in H. change (uniqueSlug "user") with "user" in H.
  apply (loop_any_more_fuel stubbornNanoid "user" (N.to_nat 9998)) in H.
  replace (N.to_nat 9998 + fuel) with (N.to_nat 9997 + S fuel) in H by lia.
  change "user" with (seqCandidate "user" 1) in H at 2.
  change 2%N with (1 + 1)%N in H.
  rewrite loop_sequential_exhausted in H;
    [|lia|lia|intros j Hj; apply crowded_sequential; lia].
  rewrite loop_random_diverges in H; [discriminate|reflexivity|lia|].
  intros j. rewrite slugTaken_bump. apply crowded_random.
Qed.

Lemma crowded_no_user_named_user : Sql.user_by_username "user" crowdedStore = None.
Proof.
  unfold Sql.user_by_username.
  destruct (find _ (users crowdedStore)) as [u|] eqn:F; [|reflexivity].
  apply find_some in F as [Hin E]. unfold crowdedStore in Hin. cbn [users] in Hin.
  apply in_map_iff in Hin as [e [<- _]]. cbn in E. discriminate.
Qed.

Lemma crowded_pages_have_owners : pagesHaveOwners crowdedStore = true.
Proof.
  unfold pagesHaveOwners. apply forallb_forall. intros p Hp.
  unfold crowdedStore in Hp. cbn [pages] in Hp.
  apply in_map_iff in Hp as [e [<- He]].
  unfold hasUser. apply existsb_exists.
  exists (mkUser (fst e) ("usr" ++ Js.decimal (N.of_nat (fst e)))%string
            "$2a$12$hash" t0 false "").
  split; [|apply Nat.eqb_refl].
  unfold crowdedStore. cbn [users].
  apply (in_map (fun e => mkUser (fst e) ("usr" ++ Js.decimal (N.of_nat (fst e)))%string
                            "$2a$12$hash" t0 false "") crowdedSlugs e He).
Qed.

Lemma crowded_ids e : In e crowdedSlugs -> 1 <= fst e <= N.to_nat 10000.
Proof.
  unfold crowdedSlugs. intros [<-|H]; [cbn [fst]; lia|].
  apply in_app_or in H as [H|[<-|[]]]; [|cbn [fst]; lia].
  apply in_map_iff in H as [k [<- Hk]]. apply in_seq in Hk. cbn [fst]. lia.
Qed.

(** What the slug loop sees of a store is its pages table. *)
Lemma slugTaken_same_pages w w' slug :
  pages w' = pages w -> slugTaken w' slug = slugTaken w slug.
Proof. unfold slugTaken, Sql.page_by_slug. now intros ->. Qed.

Lemma pagesHaveOwners_same_tables w w' :
  users w' = users w -> pages w' = pages w -> pagesHaveOwners w' = pagesHaveOwners w.
Proof. unfold pagesHaveOwners, hasUser. now intros -> ->. Qed.

Lemma users_set_invite_keys f w : users (set_invite_keys f w) = users w.
Proof. reflexivity. Qed.

Lemma pages_set_invite_keys f w : pages (set_invite_keys f w) = pages w.
Proof. reflexivity. Qed.

Lemma pages_set_users f w : pages (set_users f w) = pages w.
Proof. reflexivity. Qed.

Lemma crowdedInvited_users : users crowdedInvited = users crowdedStore.
Proof. exact (users_set_invite_keys _ crowdedStore). Qed.

Lemma crowdedInvited_pages : pages crowdedInvited = pages crowdedStore.
Proof. exact (pages_set_invite_keys _ crowdedStore). Qed.

Lemma crowdedPageless_pages : pages crowdedPageless = pages crowdedStore.
Proof. exact (pages_set_users _ crowdedStore). Qed.

(** C1, counterexample.  In the crowded store a signup for the free
    username "user", with a password of 8 characters and an invite key that
    exists and is unused, writes the user row and claims the key, and then
    never leaves the slug loop when the random source keeps drawing
    "AAAAAA": no write fails, and neither the page nor the session is ever
    created. *)
Lemma signup_can_run_forever :
  validateUsername (field userSignup "username") = Some "user" /\
  String.length (field userSignup "password") = 8 /\
  Sql.invite_by_key (Js.trim (field userSignup "invite")) crowdedInvited
  = Some (mkInviteKey "Q7ZK2M9XPA" 1 None None t0) /\
  Sql.user_by_username "user" crowdedInvited = None /\
  forall fuel,
    handle stubbornNanoid clockOf hashOf compareOf numberOf fuel
      (mkRequest PostSignup None userSignup) crowdedInvited
    = Diverge.
Proof.
  assert (U : Sql.user_by_username "user" crowdedInvited = None).
  { unfold Sql.user_by_username. rewrite crowdedInvited_users.
    exact crowded_no_user_named_user. }
  split; [reflexivity|]. split; [reflexivity|]. split; [reflexivity|].
  split; [exact U|].
  intros fuel. rewrite handle_signup.
  apply signup_stuck with (username := "user")
                          (row := mkInviteKey "Q7ZK2M9XPA" 1 None None t0).
  - reflexivity.
  - cbn. lia.
  - reflexivity.
  - reflexivity.
  - rewrite (pagesHaveOwners_same_tables crowdedStore crowdedInvited
               crowdedInvited_users crowdedInvited_pages).
    exact crowded_pages_have_owners.
  - exact U.
  - intros j Hj. rewrite (slugTaken_same_pages crowdedStore _ _ crowdedInvited_pages).
    exact (crowded_sequential j Hj).
  - intros t. rewrite (slugTaken_same_pages crowdedStore _ _ crowdedInvited_pages).
    exact (crowded_random t).
Qed.

(** The same table stops a login: "user" has an account but no page, the
    password is right and the account is not banned, yet the handler never
    leaves the slug loop, so no session is created. *)
Lemma login_can_run_forever :
  Sql.user_by_username "user" crowdedPageless
  = Some (mkUser (N.to_nat 10001) "user" "$2a$12$hunter22" t0 false "") /\
  compareOf "hunter22" "$2a$12$hunter22" = true /\
  forall fuel,
    handle stubbornNanoid clockOf hashOf compareOf numberOf fuel
      (mkRequest PostLogin None userLogin) crowdedPageless
    = Diverge.
Proof.
  assert (U : Sql.user_by_username "user" crowdedPageless
              = Some (mkUser (N.to_nat 10001) "user" "$2a$12$hunter22" t0 false "")).
  { unfold Sql.user_by_username, crowdedPageless. cbn [users set_users].
    rewrite (find_app_none _ _ _ crowded_no_user_named_user). reflexivity. }
  split; [exact U|]. split; [reflexivity|].
  intros fuel. rewrite handle_login.
  apply login_stuck with (u := mkUser (N.to_nat 10001) "user" "$2a$12$hunter22" t0 false "").
  - exact U.
  - reflexivity.
  - reflexivity.
  - cbn [u_id]. unfold Sql.page_by_user. rewrite crowdedPageless_pages.
    destruct (find _ (pages crowdedStore)) as [p|] eqn:F; [|reflexivity].
    apply find_some in F as [Hin E]. apply Nat.eqb_eq in E.
    unfold crowdedStore in Hin. cbn [pages] in Hin.
    apply in_map_iff in Hin as [e [<- He]]. cbn [p_user_id freshPage] in E.
    pose proof (crowded_ids e He). lia.
  - intros j Hj. rewrite (slugTaken_same_pages crowdedStore _ _ crowdedPageless_pages).
    exact (crowded_sequential j Hj).
  - intros t. rewrite (slugTaken_same_pages crowdedStore _ _ crowdedPageless_pages).
    exact (crowded_random t).
Qed.

Local Abbreviation run := (handle nanoidOf clockOf hashOf compareOf numberOf).

(** C1, witness: "Bob" signs up with the unused key of the example
    store, whose two pages leave the slug loop room. *)
Lemma signup_consumes_invite_witness :
  exists w',
    run 2 (mkRequest PostSignup None signupBody) exampleStore
    = Ok (mkResponse (CookieSet (nanoidOf 4 32)) (Redirect "/dashboard")) w' /\
    length (users w') = 4 /\ length (pages w') = 3 /\ length (sessions w') = 4 /\
    consumed "Q7ZK2M9XPA" w' = true.
Proof.
  pose proof
    (signup_consumes_invite nanoidOf clockOf hashOf compareOf numberOf
       2 None signupBody exampleStore "bob"
       (mkInviteKey "Q7ZK2M9XPA" 1 None None t0)) as T.
  cbv zeta in T.
  destruct T as (R & E); try reflexivity.
  - simpl. lia.
  - destruct R as (slug & Hslug & _); [simpl; lia|simpl; lia|].
    destruct (E slug _ Hslug) as (H & Hu & Hp & Hs & _ & Hk & _); [reflexivity|].
    eexists. split; [exact H|].
    rewrite Hu, Hp, Hs. unfold consumed, Sql.invite_by_key. rewrite Hk.
    repeat split.
Defined.

(** C2, witness: the administrator impersonates alice and returns. *)
Lemma impersonation_round_trip_witness :
  exists w1 w2,
    run 0 (mkRequest (PostImpersonate 2) adminCookie []) exampleStore
    = Ok (mkResponse (CookieSet (nanoidOf 0 32)) (Redirect "/dashboard")) w1 /\
    run 0 (mkRequest PostReturn (Some (nanoidOf 0 32)) []) w1
    = Ok (mkResponse (CookieSet (nanoidOf 3 32)) (Redirect "/admin/users")) w2 /\
    Sql.session_by_token (nanoidOf 0 32) w2 = None /\
    Sql.impersonation_by_token (nanoidOf 0 32) w2 = None /\
    getUserFromCookie (Some (nanoidOf 3 32)) w2 = Some adminAuth /\
    getUserFromCookie adminCookie w2 = Some adminAuth.
Proof.
  pose proof
    (impersonation_round_trip nanoidOf clockOf hashOf compareOf numberOf
       0 adminCookie [] [] 2 exampleStore adminAuth aliceRow) as T.
  cbv zeta in T.
  destruct T as (H1 & _ & _ & _ & _ & R); try reflexivity; try discriminate.
  destruct R as (H2 & Hs & Hi & _ & Ha & _ & Hc); try reflexivity; try discriminate.
  eexists. eexists. repeat split; eassumption.
Defined.

(** C2, counterexample.  The administrator impersonates mallory, who is
    banned; [/admin/return] with the borrowed token is then answered 403
    "Banned" by [requireAuth], and the borrowed session and its
    impersonation record both stay. *)
Lemma return_refused_when_target_is_banned :
  exists w1,
    run 0 (mkRequest (PostImpersonate 3) adminCookie []) exampleStore
    = Ok (mkResponse (CookieSet (nanoidOf 0 32)) (Redirect "/dashboard")) w1 /\
    run 0 (mkRequest PostReturn (Some (nanoidOf 0 32)) []) w1
    = Ok (mkResponse CookieKeep (Send 403 "Banned")) w1 /\
    Sql.session_by_token (nanoidOf 0 32) w1
    = Some (mkSession (nanoidOf 0 32) 3 (clockOf 1)) /\
    Sql.impersonation_by_token (nanoidOf 0 32) w1
    = Some (mkImpersonation (nanoidOf 0 32) 1 (clockOf 2)).
Proof. eexists. repeat split; vm_compute; reflexivity. Qed.

(** C3, witness: alice, who has a page, logs in; an unknown user is turned
    away. *)
Lemma login_outcomes_witness :
  (exists w',
      login nanoidOf clockOf compareOf 0 aliceLogin exampleStore
      = Ok (mkResponse (CookieSet (nanoidOf 0 32)) (Redirect "/dashboard")) w' /\
      Sql.session_by_token (nanoidOf 0 32) w'
      = Some (mkSession (nanoidOf 0 32) 2 (clockOf 1))) /\
  login nanoidOf clockOf compareOf 0 nobodyWrong exampleStore
  = Ok (mkResponse CookieKeep (Render (LoginForm (Some "Invalid login")))) exampleStore.
Proof.
  pose proof (login_outcomes nanoidOf clockOf hashOf compareOf numberOf 0 aliceLogin exampleStore)
    as (_ & _ & P & T).
  pose proof (login_outcomes nanoidOf clockOf hashOf compareOf numberOf 0 nobodyWrong exampleStore)
    as (N & _).
  split.
  - destruct (P aliceRow eq_refl eq_refl eq_refl) as (w1 & He & Hsame & _).
    + left. discriminate.
    + assert (E : w1 = exampleStore) by (apply Hsame; discriminate). subst w1.
      destruct (T aliceRow exampleStore eq_refl eq_refl eq_refl He eq_refl)
        as (w' & H & _ & _ & Hs & _).
      exists w'. split; assumption.
  - apply N. exact I.
Defined.

(** C3, counterexample.  The password "wrong" verifies against no stored
    hash, yet the answer for the banned account is "Banned" while the
    answer for an unknown username is "Invalid login". *)
Lemma banned_login_is_told_apart :
  compareOf "wrong" "$2a$12$letmein" = false /\
  Sql.user_by_username "nobody" exampleStore = None /\
  login nanoidOf clockOf compareOf 0 malloryWrong exampleStore
  = Ok (mkResponse CookieKeep (Render (LoginForm (Some "Banned")))) exampleStore /\
  login nanoidOf clockOf compareOf 0 nobodyWrong exampleStore
  = Ok (mkResponse CookieKeep (Render (LoginForm (Some "Invalid login")))) exampleStore.
Proof. repeat split. Qed.

(** C4, witness: the administrator bans alice, whose session is then
    refused on the dashboard, and unbans her. *)
Lemma ban_gates_without_revoking_witness :
  exists w1 w2,
    run 0 (mkRequest (PostBan 2) adminCookie [("reason", "spam")]) exampleStore
    = Ok (mkResponse CookieKeep (Redirect "/admin/users")) w1 /\
    sessions w1 = sessions exampleStore /\
    run 0 (mkRequest GetDashboard aliceCookie []) w1
    = Ok (mkResponse CookieKeep (Send 403 "Banned")) w1 /\
    run 0 (mkRequest (PostUnban 2) adminCookie [("reason", "spam")]) w1
    = Ok (mkResponse CookieKeep (Redirect "/admin/users")) w2 /\
    requireAuth (getUserFromCookie aliceCookie w2) = inr (mkAuthUser 2 "alice" false "").
Proof.
  pose proof
    (ban_gates_without_revoking nanoidOf clockOf hashOf compareOf numberOf
       0 adminCookie [("reason", "spam")] exampleStore adminAuth 2) as T.
  cbv zeta in T.
  destruct T as (H1 & Hs & _ & _ & _ & _ & G & _); try reflexivity; try discriminate.
  destruct (G "alice-session-token" (authOf aliceRow)) as (Hg & Hu & _ & Ha);
    try reflexivity.
  eexists. eexists. split; [exact H1|]. split; [exact Hs|].
  split; [apply Hg; now left|]. split; [exact Hu|exact Ha].
Defined.

(** C5, witness: mallory has no page yet. *)
Lemma ensurePageForUser_idempotent_witness :
  exists w1,
    ensurePageForUser nanoidOf clockOf 2 3 "mallory" exampleStore = Ok tt w1 /\
    ensurePageForUser nanoidOf clockOf 0 3 "mallory" w1 = Ok tt w1 /\
    length (filter (fun p => p_user_id p =? 3) (pages w1)) = 1.
Proof.
  destruct (ensurePageForUser_idempotent nanoidOf clockOf hashOf compareOf numberOf
              2 0 3 "mallory" exampleStore) as [T I].
  - cbn. repeat constructor; cbn; intuition discriminate.
  - destruct T as [w1 H1]; [reflexivity|simpl; lia|simpl; lia|].
    destruct (I w1 H1) as (H2 & Hc & _).
    exists w1. repeat split; assumption.
Defined.

(** C6, witness: "alice" is taken, so "Alice" gets [alice2]. *)
Lemma uniqueSlugEnsure_resolution_witness :
  uniqueSlugEnsure nanoidOf 1 "Alice" exampleStore = Ok "alice2" exampleStore.
Proof.
  apply (proj1 (proj2 (uniqueSlugEnsure_resolution nanoidOf "Alice" exampleStore)) 2%N 1).
  - lia.
  - intros j Hj. replace j with 1%N by lia. reflexivity.
  - reflexivity.
  - simpl. lia.
Defined.

(** C7, witness: alice saves the submission of the example. *)
Lemma saved_links_are_the_http_entries_witness :
  exists w' page',
    savePageForUser clockOf numberOf 2 exampleLinksBody exampleStore = Ok Saved w' /\
    Sql.page_by_user 2 w' = Some page' /\
    p_links_json page'
    = [mkLink "Blog" "https://b.example"; mkLink "Link" "https://c.example"].
Proof.
  destruct (saved_links_are_the_http_entries clockOf numberOf 2 exampleLinksBody
              exampleStore (afterSave clockOf numberOf 2 exampleLinksBody "alice" exampleStore))
    as (page' & Hp & _ & Hl).
  - reflexivity.
  - exists (afterSave clockOf numberOf 2 exampleLinksBody "alice" exampleStore), page'.
    split; [reflexivity|]. split; [exact Hp|now apply Hl].
Defined.

(** C8, witness: the example store has no impersonation; when the
    administrator impersonates alice the session and the record are
    written on one token, and the pairing holds. *)
Lemma impersonations_stay_paired_witness :
  match run 0 (mkRequest (PostImpersonate 2) adminCookie []) exampleStore with
  | Ok _ w' =>
      paired w' = true /\
      sessions w' = sessions exampleStore ++ [mkSession (nanoidOf 0 32) 2 (clockOf 1)] /\
      impersonations w' = [mkImpersonation (nanoidOf 0 32) 1 (clockOf 2)]
  | _ => False
  end.
Proof.
  destruct (impersonations_stay_paired nanoidOf clockOf hashOf compareOf numberOf)
    as (E & S & _ & Imp & _).
  pose proof (S 0 (mkRequest (PostImpersonate 2) adminCookie []) exampleStore
                (E exampleStore eq_refl)) as P.
  pose proof (Imp 0 adminCookie [] exampleStore adminAuth 2
                eq_refl eq_refl eq_refl (E exampleStore eq_refl)) as Q.
  cbv zeta in Q.
  destruct (run 0 (mkRequest (PostImpersonate 2) adminCookie []) exampleStore)
    as [r w'|msg w'|].
  - destruct Q as (_ & _ & Hs & Hi); try discriminate. repeat split; assumption.
  - destruct Q as (Q & _); try discriminate. apply Q. reflexivity.
  - destruct Q; discriminate.
Defined.

(** C9, witness: [/ALICE] renders alice's page, [/nobody] is not found. *)
Lemma profile_lookup_is_normalized_witness :
  run 0 (mkRequest (GetSlug "ALICE") None []) exampleStore
  = Ok (mkResponse CookieKeep (Render (ProfileView alicePage []))) exampleStore /\
  run 0 (mkRequest (GetSlug "nobody") None []) exampleStore
  = Ok (mkResponse CookieKeep (Send 404 "Not found")) exampleStore.
Proof.
  split.
  - apply (proj1 (proj2 (profile_lookup_is_normalized nanoidOf clockOf hashOf compareOf
                           numberOf 0 None [] "ALICE" exampleStore)) alicePage).
    + cbn. repeat constructor; cbn; intuition discriminate.
    + cbn. right. now left.
    + reflexivity.
  - apply (proj2 (proj2 (profile_lookup_is_normalized nanoidOf clockOf hashOf compareOf
                           numberOf 0 None [] "nobody" exampleStore))).
    intros p [<-|[<-|[]]]; discriminate.
Defined.

(** C10, witness: alice submits the slug " My-Page! "; it is stored as
    [my-page].  The one-letter residue of "A!" is refused. *)
Lemma slug_is_normalized_before_matching_witness :
  (exists w' page',
      savePageForUser clockOf numberOf 2 [("slug", " My-Page! ")] exampleStore = Ok Saved w' /\
      Sql.page_by_user 2 w' = Some page' /\ p_slug page' = "my-page") /\
  savePageForUser clockOf numberOf 2 [("slug", "A!")] exampleStore
  = Ok (NotSaved "Slug must be 2-32: a-z 0-9 _ -") exampleStore.
Proof.
  split.
  - apply (proj1 (proj2 (proj2
             (slug_is_normalized_before_matching nanoidOf clockOf hashOf compareOf numberOf
                2 [("slug", " My-Page! ")] exampleStore alicePage eq_refl)))).
    + simpl. lia.
    + intros q [<-|[<-|[]]]; intros E; [discriminate E|reflexivity].
  - apply (proj1 (proj2
             (slug_is_normalized_before_matching nanoidOf clockOf hashOf compareOf numberOf
                2 [("slug", "A!")] exampleStore alicePage eq_refl))).
    simpl. lia.
Defined.

(** The example store is well formed, and so is every store reached from
    it with a random source that respects the alphabet and the requested
    length. *)
Lemma exampleStore_sound : sound exampleStore.
Proof.
  repeat split.
  - cbn. repeat constructor; cbn; intuition discriminate.
  - cbn. repeat constructor; cbn; intuition discriminate.
  - intros u [<-|[<-|[<-|[]]]]; reflexivity.
  - intros p [<-|[<-|[]]]; reflexivity.
Qed.

Lemma nanoidOf_alphabet k : Js.sforall Js.isUrlSafe (nanoidOf k 6) = true.
Proof.
  unfold nanoidOf. apply sforall_slice0. cbn [String.append].
  cbn [Js.sforall]. change (Js.isUrlSafe "T") with true. cbn [andb].
  rewrite sforall_append. apply andb_true_iff. split; [|reflexivity].
  apply (sforall_impl Js.isSlugChar); [|apply decimal_chars].
  intros c Hc. unfold Js.isUrlSafe. rewrite Hc. apply orb_true_r.
Qed.

Lemma nanoidOf_length k : String.length (nanoidOf k 6) = 6.
Proof.
  unfold nanoidOf. rewrite length_slice0. cbn [String.append String.length].
  rewrite length_append. cbn [String.length]. lia.
Qed.

Lemma example_runs_stay_sound w :
  later nanoidOf clockOf hashOf compareOf numberOf exampleStore w -> sound w.
Proof.
  apply (sound_forever nanoidOf clockOf hashOf compareOf numberOf
           nanoidOf_alphabet nanoidOf_length).
  exact exampleStore_sound.
Qed.

(** * Worked examples of the further properties *)

Lemma compareOf_hashOf k p : compareOf p (hashOf k p) = true.
Proof. unfold compareOf, hashOf. apply String.eqb_refl. Qed.

Lemma exampleStore_pages_keyed : NoDup (map p_user_id (pages exampleStore)).
Proof. cbn. repeat constructor; cbn; intuition discriminate. Qed.

Lemma exampleStore_slugs_distinct : NoDup (map p_slug (pages exampleStore)).
Proof. cbn. repeat constructor; cbn; intuition discriminate. Qed.

(** X1, witness: a volume of 0.73 is kept; one that is not a number
    becomes 0. *)
Lemma clamp_stays_in_range_witness :
  (clamp (numberOf "0.73") 0 1 == 73 # 100)%Q /\ clamp (numberOf "loud") 0 1 = 0%Q.
Proof.
  assert (L : (0 <= 1)%Q) by discriminate.
  destruct (clamp_stays_in_range (numberOf "0.73") 0 1 L) as (_ & _ & _ & _ & _ & H).
  destruct (clamp_stays_in_range (numberOf "loud") 0 1 L) as (_ & _ & N & _).
  split.
  - apply (H (73 # 100)%Q); [reflexivity|discriminate|discriminate].
  - apply N. reflexivity.
Defined.

(** X2, witness: a style sheet without any of the tokens comes back as it
    is. *)
Lemma sanitizeCss_only_deletes_witness :
  sanitizeCss "body{color:red}" = "body{color:red}".
Proof.
  destruct (proj2 (proj2 (proj2 (sanitizeCss_only_deletes "body{color:red}")))
              eq_refl eq_refl eq_refl) as [_ H].
  apply H. simpl. lia.
Defined.

(** X5, witness: "Alice" is taken in the example store. *)
Lemma signup_taken_username_writes_nothing_witness :
  exists w',
    run 0 (mkRequest PostSignup None takenBody) exampleStore
    = Ok (mkResponse CookieKeep (Render (SignupForm (Some "Username already taken")))) w' /\
    users w' = users exampleStore /\ consumed "Q7ZK2M9XPA" w' = false.
Proof.
  destruct (signup_taken_username_writes_nothing nanoidOf clockOf hashOf compareOf numberOf
              0 None takenBody exampleStore "alice"
              (mkInviteKey "Q7ZK2M9XPA" 1 None None t0) aliceRow)
    as (w' & H & Hu & _ & _ & _ & _ & Hk); try reflexivity.
  - simpl. lia.
  - exists w'. split; [exact H|]. split; [exact Hu|].
    unfold consumed.
    change (Sql.invite_by_key (Js.trim (field takenBody "invite")) w')
      with (Sql.invite_by_key "Q7ZK2M9XPA" w') in Hk.
    now rewrite Hk.
Defined.

(** X6, witness: "Bob" signs up while the token about to be drawn is in
    use. *)
Lemma signup_is_not_atomic_witness :
  exists w',
    run 0 (mkRequest PostSignup None signupBody) collidingStore
    = Ok (mkResponse CookieKeep (Render (SignupForm (Some "Username already taken")))) w' /\
    length (users w') = 4 /\ length (pages w') = 3 /\ length (sessions w') = 4 /\
    consumed "Q7ZK2M9XPA" w' = true.
Proof.
  pose proof
    (signup_is_not_atomic nanoidOf clockOf hashOf compareOf numberOf
       0 None signupBody collidingStore "bob"
       (mkInviteKey "Q7ZK2M9XPA" 1 None None t0) "bob"
       (afterClaim clockOf hashOf "bob" "hunter22" "Q7ZK2M9XPA" collidingStore)
       (mkSession (nanoidOf 4 32) 2 t0)) as T.
  cbv zeta in T.
  destruct T as (w' & H & Hu & Hp & Hs & _ & Hk); try reflexivity.
  - simpl. lia.
  - exists w'. rewrite Hu, Hp, Hs. repeat split; [exact H|exact Hk].
Defined.

(** X7, witness: "Bob" signs up in the example store, then logs in. *)
Lemma signup_then_login_witness :
  exists w' w'',
    run 0 (mkRequest PostSignup None signupBody) exampleStore
    = Ok (mkResponse (CookieSet (nanoidOf 4 32)) (Redirect "/dashboard")) w' /\
    run 0 (mkRequest PostLogin None signupBody) w'
    = Ok (mkResponse (CookieSet (nanoidOf 6 32)) (Redirect "/dashboard")) w'' /\
    getUserFromCookie (Some (nanoidOf 6 32)) w'' = Some (mkAuthUser 4 "bob" false "").
Proof.
  pose proof
    (signup_then_login nanoidOf clockOf hashOf compareOf numberOf
       0 0 None None signupBody exampleStore "bob"
       (mkInviteKey "Q7ZK2M9XPA" 1 None None t0) "bob"
       (afterClaim clockOf hashOf "bob" "hunter22" "Q7ZK2M9XPA" exampleStore)) as T.
  cbv zeta in T.
  destruct T as (H1 & _ & H2 & H3 & _); try reflexivity; try discriminate.
  - apply compareOf_hashOf.
  - simpl. lia.
  - eexists. eexists. split; [exact H1|]. split; [exact H2|exact H3].
Defined.

(** X8, witness: alice logs out; the administrator's session is not
    affected. *)
Lemma logout_revokes_the_presented_token_witness :
  exists w',
    run 0 (mkRequest PostLogout aliceCookie []) exampleStore
    = Ok (mkResponse CookieClear (Redirect "/login")) w' /\
    getUserFromCookie aliceCookie w' = None /\
    getUserFromCookie adminCookie w' = Some adminAuth.
Proof.
  destruct (proj1 (logout_revokes_the_presented_token nanoidOf clockOf hashOf compareOf
                     numberOf 0 [] exampleStore) "alice-session-token")
    as (w' & H & _ & _ & Hg & Ho & _); [discriminate|].
  exists w'. split; [exact H|]. split; [exact Hg|].
  destruct (Ho "admin-session-token") as (_ & _ & Ha); [discriminate|].
  exact Ha.
Defined.

(** X9, witness: a visitor is sent from the dashboard to the login form;
    alice may not mint invite keys. *)
Lemma guards_turn_strangers_away_witness :
  run 0 (mkRequest GetDashboard None []) exampleStore
  = Ok (mkResponse CookieKeep (Redirect "/login")) exampleStore /\
  run 0 (mkRequest PostAdminKeys aliceCookie []) exampleStore
  = Ok (mkResponse CookieKeep (Send 403 "Forbidden")) exampleStore.
Proof.
  split.
  - apply (proj1 (proj2 (guards_turn_strangers_away nanoidOf clockOf hashOf compareOf
                           numberOf 0 GetDashboard None [] exampleStore))); reflexivity.
  - apply (proj2 (proj2 (proj2 (guards_turn_strangers_away nanoidOf clockOf hashOf compareOf
                                  numberOf 0 PostAdminKeys aliceCookie [] exampleStore)))
             eq_refl (authOf aliceRow)); try reflexivity.
    discriminate.
Defined.

(** X10, witness: alice's page is served at [/alice], where [/] sends
    her. *)
Lemma pages_are_served_under_their_slug_witness :
  run 0 (mkRequest (GetSlug "alice") aliceCookie []) exampleStore
  = Ok (mkResponse CookieKeep (Render (ProfileView alicePage []))) exampleStore /\
  run 0 (mkRequest GetRoot aliceCookie []) exampleStore
  = Ok (mkResponse CookieKeep (Redirect "/alice")) exampleStore.
Proof.
  destruct (pages_are_served_under_their_slug nanoidOf clockOf hashOf compareOf numberOf
              0 aliceCookie [] exampleStore exampleStore_sound) as [S R].
  split.
  - apply (S alicePage). cbn. right. now left.
  - destruct (R (authOf aliceRow) eq_refl eq_refl) as [_ H]. exact H.
Defined.

(** X11, witness: mallory, unbanned, opens her dashboard for the first
    time. *)
Lemma dashboard_creates_the_missing_page_witness :
  exists w' page,
    run 2 (mkRequest GetDashboard malloryCookie []) pardonedStore
    = Ok (mkResponse CookieKeep
            (Render (DashboardView (mkAuthUser 3 "mallory" false "") page
                       (p_links_json page) None None false false))) w' /\
    Sql.page_by_user 3 w' = Some page /\ length (pages w') = 3.
Proof.
  destruct (dashboard_creates_the_missing_page nanoidOf clockOf hashOf compareOf numberOf
              2 malloryCookie [] pardonedStore (mkAuthUser 3 "mallory" false ""))
    as (w' & page & H & Hp & slug & _ & _ & Hw); try reflexivity.
  - simpl. lia.
  - exists w', page. split; [exact H|]. split; [exact Hp|]. rewrite Hw. reflexivity.
Defined.

(** X12, witness: alice asks for the slug of the administrator's page. *)
Lemma dashboard_edit_outcomes_witness :
  run 0 (mkRequest PostDashboard aliceCookie [("slug", "IQSM")]) exampleStore
  = Ok (mkResponse CookieKeep
          (Render (DashboardView (authOf aliceRow) alicePage []
                     (Some "That slug is taken") None false false))) exampleStore.
Proof.
  exact (dashboard_edit_outcomes nanoidOf clockOf hashOf compareOf numberOf
           0 aliceCookie [("slug", "IQSM")] exampleStore (authOf aliceRow) alicePage
           eq_refl eq_refl eq_refl exampleStore_slugs_distinct).
Defined.

(** X13, witness: alice saves the submission of the link example. *)
Lemma saved_page_respects_the_limits_witness :
  exists page',
    Sql.page_by_user 2 (afterSave clockOf numberOf 2 exampleLinksBody "alice" exampleStore)
    = Some page' /\
    length (p_links_json page') <= 14 /\ (p_song_volume page' <= 1)%Q.
Proof.
  destruct (saved_page_respects_the_limits clockOf numberOf 2 exampleLinksBody exampleStore
              (afterSave clockOf numberOf 2 exampleLinksBody "alice" exampleStore))
    as (page' & Hp & _ & _ & _ & _ & _ & _ & _ & _ & _ & Hv & _ & Hl & _).
  - reflexivity.
  - exists page'. repeat split; assumption.
Defined.

(** X14, witness: the administrator mints a key in the example store. *)
Lemma minted_key_is_new_and_unused_witness :
  exists w',
    run 0 (mkRequest PostAdminKeys adminCookie []) exampleStore
    = Ok (mkResponse CookieKeep (Redirect "/admin/keys")) w' /\
    length (invite_keys w') = 3 /\
    consumed (Js.toUpperCase (nanoidOf 0 10)) w' = false.
Proof.
  destruct (minted_key_is_new_and_unused nanoidOf clockOf hashOf compareOf numberOf
              0 adminCookie [] exampleStore adminAuth eq_refl eq_refl eq_refl)
    as (w' & H & Hk & Hf & _).
  exists w'. split; [exact H|]. split; [now rewrite Hk|].
  unfold consumed.
  change (Sql.invite_by_key (Js.toUpperCase (nanoidOf 0 10)) w')
    with (Sql.invite_by_key (Js.toUpperCase (nanoidOf (tick exampleStore) 10)) w').
  now rewrite Hf.
Defined.

(** X15, witness: the administrator cannot ban user 1; banning and
    unbanning alice gives back the example store. *)
Lemma ban_corner_cases_witness :
  run 0 (mkRequest (PostBan 1) adminCookie []) exampleStore
  = Ok (mkResponse CookieKeep (Send 400 "no")) exampleStore /\
  exists w1,
    run 0 (mkRequest (PostBan 2) adminCookie []) exampleStore
    = Ok (mkResponse CookieKeep (Redirect "/admin/users")) w1 /\
    run 0 (mkRequest (PostUnban 2) adminCookie []) w1
    = Ok (mkResponse CookieKeep (Redirect "/admin/users")) exampleStore.
Proof.
  destruct (ban_corner_cases nanoidOf clockOf hashOf compareOf numberOf
              0 adminCookie [] exampleStore adminAuth eq_refl eq_refl eq_refl)
    as (A & _ & B).
  split.
  - apply (A 1). now right.
  - apply (B 2); try discriminate.
    intros u [<-|[<-|[<-|[]]]] E; try discriminate E. now split.
Defined.

(** X16, witness: after the administrator has banned alice, the
    administrator's session still passes both guards. *)
Lemma administrator_is_never_banned_witness :
  exists w1,
    run 0 (mkRequest (PostBan 2) adminCookie []) exampleStore
    = Ok (mkResponse CookieKeep (Redirect "/admin/users")) w1 /\
    requireAuth (getUserFromCookie adminCookie w1) = inr adminAuth /\
    requireAdmin (getUserFromCookie adminCookie w1) = inr adminAuth.
Proof.
  set (w1 := set_users (map (Sql.set_ban true "" 2)) exampleStore).
  assert (S : run 0 (mkRequest (PostBan 2) adminCookie []) exampleStore
              = Ok (mkResponse CookieKeep (Redirect "/admin/users")) w1) by reflexivity.
  assert (L : later nanoidOf clockOf hashOf compareOf numberOf exampleStore w1).
  { eapply later_step; [apply later_now|]. eapply step_returned. exact S. }
  assert (N : adminNotBanned exampleStore).
  { intros u [<-|[<-|[<-|[]]]] E; try discriminate E. reflexivity. }
  destruct (proj2 (proj2 (administrator_is_never_banned nanoidOf clockOf hashOf compareOf
                            numberOf exampleStore N))
              w1 adminCookie adminAuth L eq_refl eq_refl) as [Ha Hb].
  exists w1. split; [exact S|]. split; [exact Ha|exact Hb].
Defined.

(** X17, witness: the administrator impersonates alice and returns; the
    new session is one of user 1. *)
Lemma impersonation_belongs_to_the_administrator_witness :
  exists w1 w2 s,
    run 0 (mkRequest (PostImpersonate 2) adminCookie []) exampleStore
    = Ok (mkResponse (CookieSet (nanoidOf 0 32)) (Redirect "/dashboard")) w1 /\
    run 0 (mkRequest PostReturn (Some (nanoidOf 0 32)) []) w1
    = Ok (mkResponse (CookieSet (nanoidOf 3 32)) (Redirect "/admin/users")) w2 /\
    In s (sessions w2) /\ s_token s = nanoidOf 3 32 /\ s_user_id s = 1.
Proof.
  set (w1 := afterImpersonate clockOf (nanoidOf 0 32) 2 1 exampleStore).
  set (w2 := afterReturn clockOf (nanoidOf 0 32) (nanoidOf 3 32) 1 w1).
  assert (S1 : run 0 (mkRequest (PostImpersonate 2) adminCookie []) exampleStore
               = Ok (mkResponse (CookieSet (nanoidOf 0 32)) (Redirect "/dashboard")) w1)
    by reflexivity.
  assert (S2 : run 0 (mkRequest PostReturn (Some (nanoidOf 0 32)) []) w1
               = Ok (mkResponse (CookieSet (nanoidOf 3 32)) (Redirect "/admin/users")) w2)
    by reflexivity.
  assert (L : later nanoidOf clockOf hashOf compareOf numberOf exampleStore w1).
  { eapply later_step; [apply later_now|]. eapply step_returned. exact S1. }
  assert (N : impersonationsByAdmin exampleStore) by (intros i []).
  destruct (proj2 (proj2 (impersonation_belongs_to_the_administrator nanoidOf clockOf hashOf
                            compareOf numberOf exampleStore N))
              w1 0 (Some (nanoidOf 0 32)) [] (nanoidOf 3 32) (Redirect "/admin/users") w2
              L S2) as (s & Hs & Ht & Hu).
  exists w1, w2, s. repeat split; assumption.
Defined.

(** X24, witness: the administrator bans alice and logs out; alice's
    session stays, and her cookie still resolves to her. *)
Lemma sessions_end_only_by_their_own_token_witness :
  exists w',
    Runs.serve nanoidOf clockOf hashOf compareOf numberOf
      [(0, mkRequest (PostBan 2) adminCookie [("reason", "rude")]);
       (0, mkRequest PostLogout adminCookie [])] exampleStore = Some w' /\
    Sql.session_by_token "alice-session-token" w'
    = Some (mkSession "alice-session-token" 2 t0) /\
    exists a',
      getUserFromCookie aliceCookie w' = Some a' /\
      au_id a' = 2 /\ au_username a' = "alice".
Proof.
  destruct (sessions_end_only_by_their_own_token nanoidOf clockOf hashOf compareOf numberOf
              "alice-session-token" (mkSession "alice-session-token" 2 t0)
              exampleStore eq_refl) as [_ H].
  set (qs := [(0, mkRequest (PostBan 2) adminCookie [("reason", "rude")]);
              (0, mkRequest PostLogout adminCookie [])]).
  destruct (Runs.serve nanoidOf clockOf hashOf compareOf numberOf qs exampleStore)
    as [w'|] eqn:S; [|vm_compute in S; discriminate].
  exists w'. split; [reflexivity|].
  destruct (H qs w') as [Hs Ha].
  - repeat constructor; discriminate.
  - exact S.
  - split; [exact Hs|]. exact (Ha (authOf aliceRow) eq_refl).
Defined.

(** X25, witness: alice renames her page; the administrator's page is as
    it was. *)
Lemma pages_change_only_for_their_owner_witness :
  match run 0 (mkRequest PostDashboard aliceCookie [("slug", "wonderland")]) exampleStore with
  | Ok _ w' | Throw _ w' => In (freshPage 1 "iqsm" "iqsm" t0) (pages w')
  | Diverge => True
  end.
Proof.
  apply (proj1 (pages_change_only_for_their_owner nanoidOf clockOf hashOf compareOf numberOf
                  0 (mkRequest PostDashboard aliceCookie [("slug", "wonderland")])
                  exampleStore) (freshPage 1 "iqsm" "iqsm" t0)).
  - cbn. now left.
  - intros u Hu.
    change (getUserFromCookie (q_session (mkRequest PostDashboard aliceCookie
                                            [("slug", "wonderland")])) exampleStore)
      with (Some (authOf aliceRow)) in Hu.
    injection Hu as <-. discriminate.
Defined.

(** X21, witness: alice is banned; her username still resolves to her
    account. *)
Lemma accounts_are_permanent_witness :
  exists w1 u',
    run 0 (mkRequest (PostBan 2) adminCookie [("reason", "spam")]) exampleStore
    = Ok (mkResponse CookieKeep (Redirect "/admin/users")) w1 /\
    Sql.user_by_username "alice" w1 = Some u' /\ identity u' = identity aliceRow.
Proof.
  set (w1 := set_users (map (Sql.set_ban true "spam" 2)) exampleStore).
  assert (S : run 0 (mkRequest (PostBan 2) adminCookie [("reason", "spam")]) exampleStore
              = Ok (mkResponse CookieKeep (Redirect "/admin/users")) w1) by reflexivity.
  assert (L : later nanoidOf clockOf hashOf compareOf numberOf exampleStore w1).
  { eapply later_step; [apply later_now|]. eapply step_returned. exact S. }
  destruct (accounts_are_permanent nanoidOf clockOf hashOf compareOf numberOf
              exampleStore w1 L) as (_ & _ & F).
  destruct (F "alice" aliceRow eq_refl) as (u' & Hu & Hi).
  exists w1, u'. repeat split; assumption.
Defined.

(** X23, witness: the example store stays well formed when "Bob" signs
    up. *)
Lemma pages_constraints_hold_witness :
  match run 0 (mkRequest PostSignup None signupBody) exampleStore with
  | Ok _ w' | Throw _ w' => sound w'
  | Diverge => True
  end.
Proof.
  apply (proj1 (proj2 (pages_constraints_hold nanoidOf clockOf hashOf compareOf numberOf
                         nanoidOf_alphabet nanoidOf_length))).
  exact exampleStore_sound.
Defined.

(** X29, witness: the script on a new database, run twice. *)
Lemma admin_script_can_be_rerun_witness :
  exists w1 w2,
    Script.run clockOf hashOf emptyStore = Ok (Script.Created 1) w1 /\
    Script.run clockOf hashOf w1 = Ok (Script.AlreadyExists 1) w2 /\
    users w2 = users w1.
Proof.
  destruct (admin_script_can_be_rerun clockOf hashOf emptyStore)
    as (log & w1 & H & _ & _ & _ & _ & _ & (id & w2 & H2 & Hu & Hl) & E).
  destruct (E eq_refl) as [-> _].
  exists w1, w2. split; [exact H|]. split; [|exact Hu].
  destruct Hl as [Hl|Hl]; [discriminate Hl|]. injection Hl as <-. exact H2.
Defined.

(** X27, witness: the users of the example store, listed. *)
Lemma admin_users_listing_witness :
  exists rows,
    run 0 (mkRequest GetAdminUsers adminCookie []) exampleStore
    = Ok (mkResponse CookieKeep (Render (AdminUsersView adminAuth rows))) exampleStore /\
    Permutation (map (listedRow exampleStore) (users exampleStore)) rows.
Proof.
  destruct (admin_users_listing nanoidOf clockOf hashOf compareOf numberOf
              0 adminCookie [] exampleStore adminAuth eq_refl eq_refl eq_refl
              exampleStore_pages_keyed)
    as (rows & H & _ & _ & _ & Hp).
  exists rows. split; [exact H|]. apply Hp. simpl. lia.
Defined.

(** X28, witness: the invite keys of the example store, listed. *)
Lemma admin_keys_listing_witness :
  exists keys,
    run 0 (mkRequest GetAdminKeys adminCookie []) exampleStore
    = Ok (mkResponse CookieKeep (Render (AdminKeysView adminAuth keys))) exampleStore /\
    Permutation (invite_keys exampleStore) keys.
Proof.
  destruct (admin_keys_listing nanoidOf clockOf hashOf compareOf numberOf
              0 adminCookie [] exampleStore adminAuth eq_refl eq_refl eq_refl)
    as (keys & H & _ & _ & _ & Hp & _).
  exists keys. split; [exact H|]. apply Hp. simpl. lia.
Defined.

(** X26, witness: mallory's first page is stored under [mallory]. *)
Lemma new_page_lives_under_the_username_witness :
  ensurePageForUser nanoidOf clockOf 0 3 "mallory" exampleStore
  = Ok tt (withFreshPage clockOf 3 "mallory" "mallory" exampleStore).
Proof.
  destruct (proj1 (proj2 (proj2 (new_page_lives_under_the_username nanoidOf clockOf
                                   0 3 " Mallory" "mallory" exampleStore eq_refl)))
              eq_refl eq_refl eq_refl) as [H _].
  exact H.
Defined.

(** X22, witness: in the example store the id 2 and the name "alice"
    select the same row. *)
Lemma users_keys_hold_witness :
  Sql.user_by_id 2 exampleStore = Some aliceRow /\
  Sql.user_by_username "alice" exampleStore = Some aliceRow.
Proof.
  apply (proj2 (proj2 (proj2 (users_keys_hold nanoidOf clockOf hashOf compareOf numberOf)))
           exampleStore aliceRow).
  - repeat split.
    + cbn. repeat constructor; cbn; intuition discriminate.
    + cbn. repeat constructor; cbn; intuition discriminate.
    + intros u [<-|[<-|[<-|[]]]]; discriminate.
  - cbn. right. now left.
Defined.

(** X18, witness: nobody has id 7; alice is impersonated with both rows
    written. *)
Lemma impersonation_is_all_or_nothing_witness :
  run 0 (mkRequest (PostImpersonate 7) adminCookie []) exampleStore
  = Ok (mkResponse CookieKeep (Send 404 "not found")) exampleStore /\
  run 0 (mkRequest (PostImpersonate 2) adminCookie []) exampleStore
  = Ok (mkResponse (CookieSet (nanoidOf 0 32)) (Redirect "/dashboard"))
      (afterImpersonate clockOf (nanoidOf 0 32) 2 1 exampleStore).
Proof.
  split.
  - pose proof (impersonation_is_all_or_nothing nanoidOf clockOf hashOf compareOf numberOf
                  0 adminCookie [] exampleStore adminAuth 7
                  eq_refl eq_refl eq_refl eq_refl) as T.
    cbv zeta in T. destruct T as (_ & T & _). apply T; [discriminate|reflexivity].
  - pose proof (impersonation_is_all_or_nothing nanoidOf clockOf hashOf compareOf numberOf
                  0 adminCookie [] exampleStore adminAuth 2
                  eq_refl eq_refl eq_refl eq_refl) as T.
    cbv zeta in T. destruct T as (_ & _ & T).
    specialize (T ltac:(discriminate) ltac:(discriminate)). exact T.
Defined.

(** X19, witness: alice is not being impersonated, so her return changes
    nothing. *)
Lemma return_acts_on_impersonations_only_witness :
  run 0 (mkRequest PostReturn aliceCookie []) exampleStore
  = Ok (mkResponse CookieKeep (Redirect "/dashboard")) exampleStore.
Proof.
  apply (proj1 (return_acts_on_impersonations_only nanoidOf clockOf hashOf compareOf numberOf
                  0 aliceCookie [] exampleStore (authOf aliceRow) eq_refl eq_refl)).
  reflexivity.
Defined.

(** X20, witness: a visitor signs up as "Bob"; the three users of the
    example store are as they were, and no key was added. *)
Lemma only_the_administrator_governs_witness :
  match run 0 (mkRequest PostSignup None signupBody) exampleStore with
  | Ok _ w' | Throw _ w' =>
      (exists rest, users w' = users exampleStore ++ rest) /\
      map k_key (invite_keys w') = map k_key (invite_keys exampleStore) /\
      incl (impersonations w') (impersonations exampleStore)
  | Diverge => True
  end.
Proof.
  apply (only_the_administrator_governs nanoidOf clockOf hashOf compareOf numberOf).
  intros (u & E & _). discriminate.
Defined.
